(** * Smart-Calculator: a shallow embedding of [calculator.py]

    The calculator reads one line at a time and dispatches it to a command,
    a variable assignment or lookup, or an integer expression.  An
    expression is tokenised with a regular expression, converted to postfix
    with an operator stack and evaluated with a value stack.

    Conventions of the embedding:
    - a Python [str] is a [string]; characters are ASCII, and the character
      predicates ([isalpha], [isdigit], [isalnum], [isspace], the class
      [\w]) are Python's restricted to code points below 128;
    - a Python [int] is a [Z] (unbounded); [//] is [Z.div], which rounds
      towards minus infinity like Python's;
    - [int()] and [str()] are CPython's up to its limit of 4300 decimal
      digits on a conversion between [int] and [str]; beyond the limit
      Python raises ValueError where [Py.int] and [Py.str] give a result,
      so a property that converts a literal, a stored value or a result of
      any size is stated within the limit ([fits], [short_values],
      [in_session]);
    - exceptions are values of [exn]; a method of [Calculator] is a function
      from the object and the text printed so far to a result, the object
      and the text printed, so that what a method changed before raising
      stays changed;
    - [a ** b] with a negative [b] and [a <> 0] is a float in Python: the
      embedding stops there with the result [NonInteger] and follows the
      line no further. *)

From Stdlib Require Import ZArith Ascii String List Lia Bool.
From Stdlib Require Import Numbers.DecimalString Numbers.DecimalZ Numbers.DecimalPos.
From stdpp Require Import base gmap strings list fin_maps.

Import ListNotations.
Open Scope string_scope.
Open Scope list_scope.
Open Scope Z_scope.

(** ** Characters and strings, as Python's [str] methods see them *)

Module Py.

Definition code (c : ascii) : N := N_of_ascii c.

Definition in_range (lo hi : N) (c : ascii) : bool :=
  ((lo <=? code c) && (code c <=? hi))%N.

(** [c.isdigit()], [c.isalpha()], [c.isalnum()], [c.isspace()] on one
    ASCII character. *)
Definition isdigit_c (c : ascii) : bool := in_range 48 57 c.
Definition isalpha_c (c : ascii) : bool := in_range 65 90 c || in_range 97 122 c.
Definition isalnum_c (c : ascii) : bool := isalpha_c c || isdigit_c c.
Definition isspace_c (c : ascii) : bool := in_range 9 13 c || in_range 28 32 c.

(** The whitespace that [int] skips around an ASCII literal is C's:
    tab to carriage return, and the space. *)
Definition isspace_int (c : ascii) : bool := in_range 9 13 c || in_range 32 32 c.

(** A method such as [s.isalpha()] is false on the empty string and
    otherwise asks every character. *)
Fixpoint all_chars (p : ascii → bool) (s : string) : bool :=
  match s with
  | EmptyString => true
  | String c r => p c && all_chars p r
  end.

Definition nonempty (s : string) : bool :=
  match s with EmptyString => false | String _ _ => true end.

Definition isalpha (s : string) : bool := nonempty s && all_chars isalpha_c s.
Definition isdigit (s : string) : bool := nonempty s && all_chars isdigit_c s.
Definition isalnum (s : string) : bool := nonempty s && all_chars isalnum_c s.

(** [len(s)] *)
Definition len (s : string) : nat := String.length s.

(** [sub in s]: [sub] occurs in [s] as a substring. *)
Fixpoint str_in (sub s : string) : bool :=
  String.prefix sub s ||
  match s with
  | EmptyString => false
  | String _ r => str_in sub r
  end.

(** [s.count(c)] for a one-character [c]. *)
Fixpoint count (c : ascii) (s : string) : nat :=
  match s with
  | EmptyString => O
  | String d r => (if Ascii.eqb d c then 1 else 0) + count c r
  end%nat.

(** [s.replace(c, '')] for a one-character [c]. *)
Fixpoint remove_char (c : ascii) (s : string) : string :=
  match s with
  | EmptyString => EmptyString
  | String d r => if Ascii.eqb d c then remove_char c r else String d (remove_char c r)
  end.

(** [s.lstrip()], [s.rstrip()] and [s.strip()] with the characters to
    strip given by a predicate. *)
Fixpoint lstrip (p : ascii → bool) (s : string) : string :=
  match s with
  | EmptyString => EmptyString
  | String c r => if p c then lstrip p r else s
  end.

Fixpoint rstrip (p : ascii → bool) (s : string) : string :=
  match s with
  | EmptyString => EmptyString
  | String c r =>
      match rstrip p r with
      | EmptyString => if p c then EmptyString else String c EmptyString
      | r' => String c r'
      end
  end.

Definition strip_by (p : ascii → bool) (s : string) : string := rstrip p (lstrip p s).

(** [s.strip()] and [s.strip(' ')] *)
Definition strip (s : string) : string := strip_by isspace_c s.
Definition strip_spaces (s : string) : string := strip_by (Ascii.eqb " ") s.

(** [s.split(c)] for a one-character separator: always at least one
    piece, one more than there are separators. *)
Fixpoint split (c : ascii) (s : string) : list string :=
  match s with
  | EmptyString => [EmptyString]
  | String d r =>
      if Ascii.eqb d c then EmptyString :: split c r
      else match split c r with
           | p :: ps => String d p :: ps
           | [] => [String d EmptyString]
           end
  end.

(** The digits of a decimal literal, where single underscores may stand
    between digits.  [prev] tells whether the character before was a
    digit: only then may the literal end or an underscore follow. *)
Fixpoint digits (prev : bool) (s : string) : option Decimal.uint :=
  match s with
  | EmptyString => if prev then Some Decimal.Nil else None
  | String c r =>
      if isdigit_c c then uint_of_char c (digits true r)
      else if Ascii.eqb c "_" && prev then digits false r
      else None
  end.

(** [int(s)] for a string [s], base ten: surrounding whitespace is
    dropped, one sign is allowed, then come the digits.  [None] stands for
    [ValueError]. *)
Definition int (s : string) : option Z :=
  match strip_by isspace_int s with
  | EmptyString => None
  | String c r =>
      if Ascii.eqb c "-" then (λ d, Z.of_int (Decimal.Neg d)) <$> digits false r
      else if Ascii.eqb c "+" then (λ d, Z.of_int (Decimal.Pos d)) <$> digits false r
      else (λ d, Z.of_int (Decimal.Pos d)) <$> digits false (String c r)
  end.

(** [str(z)] for an integer [z]. *)
Definition str (z : Z) : string := NilEmpty.string_of_int (Z.to_int z).

End Py.

(** ** [re.split] for the tokeniser's pattern

    [get_infix] splits the line with
    [(\w+)?([+-]+)?([*/^]+)?([\(\)])?].  [re.split] returns, for every
    match, the text between the previous match and this one, then the four
    groups ([None] for a group that took part in no match), and at the end
    the text after the last match.  The pattern matches the empty string
    everywhere, so the engine's rule for empty matches is part of the
    model: after an empty match the next one may not be empty at the same
    place, and the search moves on by one character. *)

Module Re.

Definition is_word (c : ascii) : bool := Py.isalnum_c c || Ascii.eqb c "_".
Definition is_sign (c : ascii) : bool := Ascii.eqb c "+" || Ascii.eqb c "-".
Definition is_mul (c : ascii) : bool :=
  Ascii.eqb c "*" || Ascii.eqb c "/" || Ascii.eqb c "^".
Definition is_paren (c : ascii) : bool := Ascii.eqb c "(" || Ascii.eqb c ")".

(** The longest prefix of characters of one class, and the rest: a greedy
    [[...]+]. *)
Fixpoint span (p : ascii → bool) (s : list ascii) : list ascii * list ascii :=
  match s with
  | c :: r => if p c then let '(g, r') := span p r in (c :: g, r') else ([], s)
  | [] => ([], [])
  end.

(** An optional group that matched nothing is [None]. *)
Definition group (g : list ascii) : option (list ascii) :=
  match g with [] => None | _ => Some g end.

(** One match of the pattern at the head of [s]: the four groups and what
    follows the match.  Each group is optional and greedy and nothing
    after it is mandatory, so no backtracking ever shortens a group. *)
Definition match_here (s : list ascii) : list (option (list ascii)) * list ascii :=
  let '(g1, s1) := span is_word s in
  let '(g2, s2) := span is_sign s1 in
  let '(g3, s3) := span is_mul s2 in
  let '(g4, s4) :=
    match s3 with
    | c :: r => if is_paren c then ([c], r) else ([], s3)
    | [] => ([], [])
    end in
  ([group g1; group g2; group g3; group g4], s4).

Definition is_empty_match (groups : list (option (list ascii))) : bool :=
  forallb (λ g, match g with None => true | Some _ => false end) groups.

(** The loop of [re.split].  [s] is the text from the end of the last
    match on and [must_advance] says that the last match was empty.  Each
    turn searches the next match and appends the text before it and its
    groups; when no match is left the rest of the text is appended.  The
    loop is bounded by [fuel]; [None] means the bound was too small. *)
Fixpoint split_loop (fuel : nat) (must_advance : bool) (s : list ascii)
  : option (list (option (list ascii))) :=
  match fuel with
  | O => None
  | S fuel =>
      let '(groups, rest) := match_here s in
      if negb (is_empty_match groups && must_advance) then
        (* a match right at the start of the search *)
        (λ items, Some [] :: groups ++ items)
          <$> split_loop fuel (is_empty_match groups) rest
      else
        (* only the empty match is there and it is refused: the search
           goes one character on, where any match is accepted *)
        match s with
        | [] => Some [Some []]
        | c :: s' =>
            let '(groups', rest') := match_here s' in
            (λ items, Some [c] :: groups' ++ items)
              <$> split_loop fuel (is_empty_match groups') rest'
        end
  end.

(** Two turns for every character and two at the end are enough. *)
Definition enough (s : list ascii) : nat := 2 * length s + 2.

Definition split (s : string) : list (option string) :=
  match split_loop (enough (list_ascii_of_string s)) false (list_ascii_of_string s) with
  | Some items => map (option_map string_of_list_ascii) items
  | None => []
  end.

End Re.

(** ** Exceptions and results *)

(** The classes of [custom_exceptions.py]. *)
Inductive custom :=
  | InvalidExpressionError
  | UnknownCommandError
  | InvalidIdentifierError
  | UnknownVariableError
  | InvalidAssignmentError.

(** Their [__str__]. *)
Definition message (e : custom) : string :=
  match e with
  | InvalidExpressionError => "Invalid expression"
  | UnknownCommandError => "Unknown command"
  | InvalidIdentifierError => "Invalid identifier"
  | UnknownVariableError => "Unknown variable"
  | InvalidAssignmentError => "Invalid assignment"
  end.

(** What the program can raise: its own classes and the built-in
    exceptions of the operations it uses. *)
Inductive exn :=
  | Custom (e : custom)
  | IndexError
  | KeyError
  | ZeroDivisionError
  | ValueError
  | EOFError.

Coercion Custom : custom >-> exn.

#[global] Instance custom_eq_dec : EqDecision custom.
Proof. solve_decision. Defined.

#[global] Instance exn_eq_dec : EqDecision exn.
Proof. solve_decision. Defined.

(** A computation returns, raises, or leaves the integers. *)
Inductive result (A : Type) :=
  | Ok (a : A)
  | Raise (e : exn)
  | NonInteger.

Arguments Ok {A} a.
Arguments Raise {A} e.
Arguments NonInteger {A}.

Definition rbind {A B} (r : result A) (k : A → result B) : result B :=
  match r with
  | Ok a => k a
  | Raise e => Raise e
  | NonInteger => NonInteger
  end.

(** ** The tokeniser: [Calculator.get_infix] *)

Definition has_mul (ch : string) : bool :=
  Py.str_in "*" ch || Py.str_in "/" ch || Py.str_in "^" ch.

Definition has_sign (ch : string) : bool :=
  Py.str_in "+" ch || Py.str_in "-" ch.

(** What the [for] loop of [get_infix] does to one token. *)
Definition fold_token (ch : string) : result string :=
  if has_mul ch && (1 <? Py.len ch)%nat then Raise InvalidExpressionError
  else if has_sign ch && (1 <? Py.len ch)%nat then
    Ok (if (Py.count "-" ch mod 2 =? 1)%nat then "-" else "+")
  else Ok ch.

(** The loop over [enumerate(infix)]: tokens are replaced in place from
    left to right, and the first offending one raises. *)
Fixpoint fold_tokens (infix : list string) : result (list string) :=
  match infix with
  | [] => Ok []
  | ch :: rest =>
      rbind (fold_token ch) (λ ch', rbind (fold_tokens rest) (λ rest', Ok (ch' :: rest')))
  end.

(** [[ch for ch in ... if ch]]: [None] and the empty string go. *)
Definition truthy (items : list (option string)) : list string :=
  omap (λ item, match item with
                | Some (String c r) => Some (String c r)
                | _ => None
                end) items.

Definition get_infix (expression : string) : result (list string) :=
  fold_tokens (truthy (Re.split (Py.remove_char " " expression))).

(** ** The converter: [Calculator.infix_to_postfix] *)

(** The class attribute [priority]; a missing key is [KeyError]. *)
Definition priority : gmap string nat :=
  list_to_map [("+", 1%nat); ("-", 1%nat); ("*", 2%nat); ("/", 2%nat); ("^", 3%nat); ("(", 0%nat)].

Definition priority_of (ch : string) : result nat :=
  match priority !! ch with
  | Some p => Ok p
  | None => Raise KeyError
  end.

(** The operator stack has its top at the head; [postfix] grows at its
    end. *)

(** [while len(stack) != 0 and stack[-1] != '(': postfix.append(stack.pop())] *)
Fixpoint pop_to_paren (stack postfix : list string) : list string * list string :=
  match stack with
  | [] => ([], postfix)
  | top :: below =>
      if String.eqb top "(" then (stack, postfix)
      else pop_to_paren below (postfix ++ [top])
  end.

(** [while len(stack) != 0 and self.priority[ch] <= self.priority[stack[-1]]:
    postfix.append(stack.pop())] *)
Fixpoint pop_not_lower (ch : string) (stack postfix : list string)
  : result (list string * list string) :=
  match stack with
  | [] => Ok ([], postfix)
  | top :: below =>
      rbind (priority_of ch) (λ p,
      rbind (priority_of top) (λ q,
        if (p <=? q)%nat then pop_not_lower ch below (postfix ++ [top])
        else Ok (stack, postfix)))
  end.

(** The body of [for ch in infix]. *)
Definition convert_token (ch : string) (stack postfix : list string)
  : result (list string * list string) :=
  if Py.isalnum ch then Ok (stack, postfix ++ [ch])
  else if String.eqb ch "(" then Ok (ch :: stack, postfix)
  else if String.eqb ch ")" then
    match pop_to_paren stack postfix with
    | ([], _) => Raise InvalidExpressionError
    | (_ :: below, postfix') => Ok (below, postfix')
    end
  else
    match stack with
    | [] => Ok ([ch], postfix)
    | top :: _ =>
        rbind (priority_of ch) (λ p,
        rbind (priority_of top) (λ q,
          if (q <? p)%nat then Ok (ch :: stack, postfix)
          else rbind (pop_not_lower ch stack postfix)
                 (λ '(stack', postfix'), Ok (ch :: stack', postfix'))))
    end.

Fixpoint convert_tokens (infix stack postfix : list string)
  : result (list string * list string) :=
  match infix with
  | [] => Ok (stack, postfix)
  | ch :: rest =>
      rbind (convert_token ch stack postfix)
        (λ '(stack', postfix'), convert_tokens rest stack' postfix')
  end.

Definition infix_to_postfix (infix : list string) : result (list string) :=
  rbind (convert_tokens infix [] [])
    (λ '(stack, postfix),
       (* while stack: postfix.append(stack.pop()) *)
       let postfix := postfix ++ stack in
       if bool_decide ("(" ∈ postfix) then Raise InvalidExpressionError
       else Ok postfix).

(** ** The calculator object and its methods *)

Record Calculator := {
  total : Z;
  variables : gmap string string;
  postfix : list string
}.

(** [Calculator.__init__] *)
Definition init : Calculator :=
  {| total := 0; variables := ∅; postfix := [] |}.

Definition set_total (v : Z) (self : Calculator) : Calculator :=
  {| total := v; variables := variables self; postfix := postfix self |}.

Definition set_variables (m : gmap string string) (self : Calculator) : Calculator :=
  {| total := total self; variables := m; postfix := postfix self |}.

Definition set_postfix (p : list string) (self : Calculator) : Calculator :=
  {| total := total self; variables := variables self; postfix := p |}.

(** What one [print] writes: a line of text, or the class docstring. *)
Inductive printed :=
  | Text (s : string)
  | Doc.

(** A method takes the object and the text printed so far, and gives its
    result with the object and the text as they are when it returns or
    raises. *)
Definition M (A : Type) : Type :=
  Calculator → list printed → result A * Calculator * list printed.

Definition ret {A} (a : A) : M A := λ self out, (Ok a, self, out).

Definition raise {A} (e : exn) : M A := λ self out, (Raise e, self, out).

Definition bind {A B} (m : M A) (k : A → M B) : M B :=
  λ self out,
    match m self out with
    | (Ok a, self', out') => k a self' out'
    | (Raise e, self', out') => (Raise e, self', out')
    | (NonInteger, self', out') => (NonInteger, self', out')
    end.

Definition lift {A} (r : result A) : M A := λ self out, (r, self, out).

Definition get : M Calculator := λ self out, (Ok self, self, out).

Definition modify (f : Calculator → Calculator) : M unit :=
  λ self out, (Ok tt, f self, out).

Definition print (p : printed) : M unit :=
  λ self out, (Ok tt, self, out ++ [p]).

Notation "'let*' x ':=' m 'in' k" := (bind m (λ x, k))
  (at level 10, x name, m at level 100, k at level 200).
Notation "'do' m 'in' k" := (bind m (λ _, k))
  (at level 10, m at level 100, k at level 200).

(** [try: body / except E1 ...: print(err); after / else: orelse]: the
    handlers of [start_calculator] all print the error and go on with
    [after]; [orelse] runs after a [body] that returned, outside the
    handlers. *)
Definition try_except {A B} (body : M A) (handled : list custom)
    (after : M B) (orelse : A → M B) : M B :=
  λ self out,
    match body self out with
    | (Ok a, self', out') => orelse a self' out'
    | (Raise (Custom e), self', out') =>
        if bool_decide (e ∈ handled)
        then (do print (Text (message e)) in after) self' out'
        else (Raise (Custom e), self', out')
    | (Raise e, self', out') => (Raise e, self', out')
    | (NonInteger, self', out') => (NonInteger, self', out')
    end.

(** *** [Calculator.evaluate_postfix] *)

(** [a ** b] on integers: a negative exponent gives a float, and zero to
    a negative power raises. *)
Definition power (a b : Z) : result Z :=
  if 0 <=? b then Ok (a ^ b)
  else if a =? 0 then Raise ZeroDivisionError
  else NonInteger.

(** [a // b] *)
Definition floordiv (a b : Z) : result Z :=
  if b =? 0 then Raise ZeroDivisionError else Ok (a / b).

(** The chain [if ch == '+': ... elif ch == '^': ...] on the stack from
    which [a] and [b] were popped; it has no [else]. *)
Definition apply_operator (ch : string) (a b : Z) (stack : list Z) : result (list Z) :=
  if String.eqb ch "+" then Ok (a + b :: stack)
  else if String.eqb ch "-" then Ok (a - b :: stack)
  else if String.eqb ch "*" then Ok (a * b :: stack)
  else if String.eqb ch "/" then rbind (floordiv a b) (λ v, Ok (v :: stack))
  else if String.eqb ch "^" then rbind (power a b) (λ v, Ok (v :: stack))
  else Ok stack.

(** [int(s)] where [ValueError] is not caught. *)
Definition int_or_raise (s : string) : result Z :=
  match Py.int s with
  | Some z => Ok z
  | None => Raise ValueError
  end.

(** The body of [for ch in self.postfix]; the value stack has its top at
    the head. *)
Definition eval_token (vars : gmap string string) (ch : string) (stack : list Z)
  : result (list Z) :=
  if Py.str_in ch "+-*/^" then
    match stack with
    | [] => Raise IndexError
    | b :: stack1 =>
        match stack1 with
        | a :: stack2 => apply_operator ch a b stack2
        | [] => apply_operator ch 0 b []
        end
    end
  else if Py.isdigit ch then
    rbind (int_or_raise ch) (λ v, Ok (v :: stack))
  else
    match vars !! ch with
    | Some value => rbind (int_or_raise value) (λ v, Ok (v :: stack))
    | None => Raise UnknownVariableError
    end.

Fixpoint eval_tokens (vars : gmap string string) (tokens : list string) (stack : list Z)
  : result (list Z) :=
  match tokens with
  | [] => Ok stack
  | ch :: rest => rbind (eval_token vars ch stack) (eval_tokens vars rest)
  end.

Definition evaluate_postfix : M Z :=
  let* self := get in
  let* stack := lift (eval_tokens (variables self) (postfix self) []) in
  do modify (set_postfix []) in
  match stack with
  | v :: _ => ret v
  | [] => raise IndexError
  end.

(** *** [Calculator.handle_command] *)

Definition handle_command (command : string) : M Z :=
  if String.eqb command "/exit" then do print (Text "Bye!") in ret (-1)
  else if String.eqb command "/help" then do print Doc in ret 0
  else raise UnknownCommandError.

(** *** [Calculator.handle_variable] *)

Definition handle_variable (expression : string) : M unit :=
  match Py.split "=" expression with
  | [] => raise IndexError
  | [name] =>
      let variable := Py.strip_spaces name in
      if negb (Py.isalpha variable) then raise InvalidIdentifierError
      else
        let* self := get in
        match variables self !! variable with
        | Some value => print (Text value)
        | None => raise UnknownVariableError
        end
  | [name; value] =>
      let variable := Py.strip_spaces name in
      let value := Py.strip_spaces value in
      if negb (Py.isalpha variable) then raise InvalidIdentifierError
      else
        let* self := get in
        let value := match variables self !! value with
                     | Some stored => stored
                     | None => value
                     end in
        match Py.int value with
        | None => raise InvalidAssignmentError
        | Some value =>
            modify (set_variables (<[variable := Py.str value]> (variables self)))
        end
  | _ => raise InvalidAssignmentError
  end.

(** *** [Calculator.handle_expression] *)

Definition handle_expression (expression : string) : M unit :=
  let* infix := lift (get_infix expression) in
  let* p := lift (infix_to_postfix infix) in
  do modify (set_postfix p) in
  let* v := evaluate_postfix in
  modify (set_total v).

(** *** [Calculator.start_calculator] *)

(** How one turn of [while True] ends. *)
Inductive flow :=
  | Continue
  | Break.

Definition first_char_is (c : ascii) (s : string) : bool :=
  match s with
  | String d _ => Ascii.eqb d c
  | EmptyString => false
  end.

(** The [if]/[elif] chain of the loop on the stripped line. *)
Inductive route :=
  | Blank
  | ToCommand
  | ToVariable
  | ToExpression.

Definition classify (expression : string) : route :=
  if String.eqb expression "" then Blank
  else if first_char_is "/" expression then ToCommand
  else if Py.str_in "=" expression || Py.isalpha expression then ToVariable
  else ToExpression.

(** The body of the loop, for the line that [input()] returned. *)
Definition process_line (line : string) : M flow :=
  let expression := Py.strip line in
  match classify expression with
  | Blank => ret Continue
  | ToCommand =>
      try_except (handle_command expression) [UnknownCommandError]
        (ret Continue)
        (λ command_value, if command_value =? -1 then ret Break else ret Continue)
  | ToVariable =>
      try_except (handle_variable expression)
        [InvalidIdentifierError; UnknownVariableError; InvalidAssignmentError]
        (ret Continue)
        (λ _, ret Continue)
  | ToExpression =>
      try_except (handle_expression expression)
        [InvalidExpressionError; UnknownVariableError]
        (ret Continue)
        (λ _, let* self := get in
              do print (Text (Py.str (total self))) in
              do modify (set_total 0) in
              ret Continue)
  end.

(** The loop, fed with the lines that [input()] will return; when they
    run out [input()] raises [EOFError]. *)
Fixpoint start_calculator (lines : list string) : M unit :=
  match lines with
  | [] => raise EOFError
  | line :: rest =>
      let* f := process_line line in
      match f with
      | Break => ret tt
      | Continue => start_calculator rest
      end
  end.

(** What a session prints, from a fresh calculator. *)
Definition run (lines : list string) : result unit * Calculator * list printed :=
  start_calculator lines init [].

Definition prints (lines : list string) : list printed := (run lines).2.

(** ** Notions used to state the properties *)

(** The handler that the loop calls for a line, without the [try] around
    it: what it raises is what processing the line fails with. *)
Definition handler (line : string) : M unit :=
  let expression := Py.strip line in
  match classify expression with
  | Blank => ret tt
  | ToCommand => let* _ := handle_command expression in ret tt
  | ToVariable => handle_variable expression
  | ToExpression => handle_expression expression
  end.

(** The five operator tokens. *)
Definition operators : list string := ["+"; "-"; "*"; "/"; "^"].

Definition is_operator (ch : string) : bool := bool_decide (ch ∈ operators).

(** A stored value is canonical when it is the decimal text of the
    integer it denotes: [v == str(int(v))]. *)
Definition canonical (v : string) : Prop :=
  ∃ z, Py.int v = Some z ∧ Py.str z = v.

(** The states a session goes through: the fresh calculator, and whatever
    a line leaves behind, however its processing ends. *)
Inductive reachable : Calculator → Prop :=
  | reachable_init : reachable init
  | reachable_line self line out r self' out' :
      reachable self →
      process_line line self out = (r, self', out') →
      reachable self'.

(** CPython converts between [int] and [str] up to 4300 decimal digits
    ([sys.get_int_max_str_digits()]): [int()] of a longer literal and
    [str()] of a longer integer raise ValueError.  An integer fits when its
    decimal text has at most 4300 digits. *)
Definition fits (z : Z) : bool := Z.abs z <? 10 ^ 4300.

(** Stored values of at most 4300 characters: [int()] reads them without
    meeting the limit. *)
Definition short_values (vars : gmap string string) : Prop :=
  map_Forall (λ _ v, (String.length v ≤ 4300)%nat) vars.

(** A line of ASCII characters. *)
Definition ascii_only (line : string) : bool :=
  Py.all_chars (λ c, (Py.code c <? 128)%N) line.

(** A printed text of at most 4300 characters. *)
Definition short_text (p : printed) : bool :=
  match p with
  | Text s => (String.length s <=? 4300)%nat
  | Doc => true
  end.

(** The states in which the loop reads a line: the fresh calculator, and
    the state after a line on which the loop went on.  The lines are ASCII
    and have at most 4300 characters, and so has whatever a line prints: no
    literal, stored value or printed result is beyond the limit of [int()]
    and [str()]. *)
Inductive in_session : Calculator → Prop :=
  | session_init : in_session init
  | session_line self line self' now :
      in_session self →
      ascii_only line = true →
      (String.length line ≤ 4300)%nat →
      process_line line self [] = (Ok Continue, self', now) →
      forallb short_text now = true →
      in_session self'.

(** Two states of the object that differ at most in [postfix]. *)
Definition same_but_postfix (s1 s2 : Calculator) : Prop :=
  total s1 = total s2 ∧ variables s1 = variables s2.

(** Every value of the variables table is canonical. *)
Definition canonical_table (vars : gmap string string) : Prop :=
  map_Forall (λ _ v, canonical v) vars.

(** The tokens of a line, read off its characters: a maximal run of word
    characters, of signs, or of [*], [/], [^] is one token, and every other
    character is a token by itself.  [Re.split] is shown to produce
    exactly these. *)
Definition same_run (c d : ascii) : bool :=
  (Re.is_word c && Re.is_word d) || (Re.is_sign c && Re.is_sign d) ||
  (Re.is_mul c && Re.is_mul d).

Fixpoint chunks (s : list ascii) : list (list ascii) :=
  match s with
  | [] => []
  | c :: r =>
      match chunks r with
      | (d :: t) :: ts => if same_run c d then (c :: d :: t) :: ts else [c] :: (d :: t) :: ts
      | ts => [c] :: ts
      end
  end.

(** The items of [re.split] that are neither [None] nor empty. *)
Definition nonempties (items : list (option (list ascii))) : list (list ascii) :=
  omap (λ item, match item with
                | Some (c :: r) => Some (c :: r)
                | _ => None
                end) items.

(** What a run of signs folds to. *)
Definition folded_sign (run : string) : string :=
  if Nat.odd (Py.count "-" run) then "-" else "+".

Definition starts_with (p : ascii → bool) (s : string) : bool :=
  match s with
  | String c _ => p c
  | EmptyString => false
  end.

Fixpoint ends_with (p : ascii → bool) (s : string) : bool :=
  match s with
  | EmptyString => false
  | String c EmptyString => p c
  | String _ r => ends_with p r
  end.

(** The tokens that the converter has a rule for: operands, the five
    operators and the two parentheses. *)
Definition known (ch : string) : bool :=
  Py.isalnum ch || is_operator ch || String.eqb ch "(" || String.eqb ch ")".

(** The number of parentheses open after the tokens of [infix], starting
    from [opened]; [None] when a [)] comes with none open. *)
Fixpoint depth (infix : list string) (opened : nat) : option nat :=
  match infix with
  | [] => Some opened
  | ch :: rest =>
      if String.eqb ch "(" then depth rest (S opened)
      else if String.eqb ch ")" then
        match opened with
        | O => None
        | S k => depth rest k
        end
      else depth rest opened
  end.

Definition balanced (infix : list string) : bool :=
  match depth infix 0 with
  | Some O => true
  | _ => false
  end.

(** The number of [(] on the operator stack. *)
Fixpoint opens (stack : list string) : nat :=
  match stack with
  | [] => O
  | t :: below => ((if String.eqb t "(" then 1 else 0) + opens below)%nat
  end.

(** On known tokens the operator stack holds operators and [(] only. *)
Definition stack_ok (stack : list string) : bool :=
  forallb (λ t, is_operator t || String.eqb t "(") stack.

(** Two characters among [*], [/], [^] stand side by side in [s]. *)
Fixpoint adjacent_mul (s : string) : bool :=
  match s with
  | EmptyString => false
  | String a r =>
      match r with
      | String b _ => Re.is_mul a && Re.is_mul b
      | EmptyString => false
      end || adjacent_mul r
  end.

(** The characters the calculator has a use for: letters, digits, the
    five operators and the parentheses. *)
Definition plain (c : ascii) : bool :=
  Py.isalnum_c c || Re.is_sign c || Re.is_mul c || Re.is_paren c.

(** A token that is not a parenthesis. *)
Definition nonparen (t : string) : bool :=
  negb (String.eqb t "(") && negb (String.eqb t ")").

(** Arithmetic expressions with every operation in parentheses, to state
    what the calculator computes: literals, variables and the five binary
    operations. *)
Inductive expr :=
  | Lit (n : N)
  | Name (x : string)
  | Bin (op : string) (a b : expr).

(** Literals have at most 4300 digits, names are alphabetic and
    operations are among the five. *)
Fixpoint wf (e : expr) : bool :=
  match e with
  | Lit n => fits (Z.of_N n)
  | Name x => Py.isalpha x
  | Bin op a b => is_operator op && wf a && wf b
  end.

(** The expression as the user types it, and as tokens. *)
Fixpoint show (e : expr) : string :=
  match e with
  | Lit n => Py.str (Z.of_N n)
  | Name x => x
  | Bin op a b => "(" +:+ show a +:+ op +:+ show b +:+ ")"
  end.

Fixpoint render (e : expr) : list string :=
  match e with
  | Lit n => [Py.str (Z.of_N n)]
  | Name x => [x]
  | Bin op a b => ["("] ++ render a ++ [op] ++ render b ++ [")"]
  end.

(** The expression in postfix order. *)
Fixpoint postorder (e : expr) : list string :=
  match e with
  | Lit n => [Py.str (Z.of_N n)]
  | Name x => [x]
  | Bin op a b => postorder a ++ postorder b ++ [op]
  end.

(** The operation that an operator stands for in Python. *)
Definition arith (op : string) (a b : Z) : result Z :=
  if String.eqb op "+" then Ok (a + b)
  else if String.eqb op "-" then Ok (a - b)
  else if String.eqb op "*" then Ok (a * b)
  else if String.eqb op "/" then floordiv a b
  else power a b.

(** The value of an expression, operands from left to right. *)
Fixpoint value (vars : gmap string string) (e : expr) : result Z :=
  match e with
  | Lit n => Ok (Z.of_N n)
  | Name x =>
      match vars !! x with
      | Some v => int_or_raise v
      | None => Raise UnknownVariableError
      end
  | Bin op a b =>
      rbind (value vars a) (λ va, rbind (value vars b) (λ vb, arith op va vb))
  end.

Definition is_name (e : expr) : bool :=
  match e with Name _ => true | _ => false end.

(** * Properties *)

(** ** Sample inputs *)

Example int_samples :
  Py.int "42" = Some 42 ∧ Py.int "-7" = Some (-7) ∧ Py.int "+007" = Some 7 ∧
  Py.int " 1_000 " = Some 1000 ∧ Py.int "1__0" = None ∧ Py.int "_1" = None ∧
  Py.int "1_" = None ∧ Py.int "" = None ∧ Py.int "-" = None ∧
  Py.int "1+2" = None ∧ Py.int "x" = None ∧ Py.int "- 1" = None.
Proof. vm_compute. repeat split. Qed.

Example int_whitespace_samples :
  Py.int (String (ascii_of_nat 9) "5 ") = Some 5 ∧
  Py.int (String (ascii_of_nat 28) "5") = None ∧
  Py.strip (String (ascii_of_nat 28) "5") = "5".
Proof. vm_compute. repeat split. Qed.

Example str_samples :
  Py.str 0 = "0" ∧ Py.str 64 = "64" ∧ Py.str (-4) = "-4".
Proof. vm_compute. repeat split. Qed.

Example split_samples :
  Py.split "=" "a=b=5" = ["a"; "b"; "5"] ∧ Py.split "=" "x" = ["x"] ∧
  Py.split "=" "=" = [""; ""] ∧ Py.strip "  a b  " = "a b" ∧
  Py.str_in "=" "x = 1" = true ∧ Py.str_in "+-" "+-*/^" = true ∧
  Py.str_in "_" "+-*/^" = false.
Proof. vm_compute. repeat split. Qed.

Example re_split_samples :
  Re.split "1+2" =
    [Some ""; Some "1"; Some "+"; None; None;
     Some ""; Some "2"; None; None; None;
     Some ""; None; None; None; None;
     Some ""] ∧
  Re.split "a.b" =
    [Some ""; Some "a"; None; None; None;
     Some ""; None; None; None; None;
     Some "."; Some "b"; None; None; None;
     Some ""; None; None; None; None;
     Some ""] ∧
  Re.split "" = [Some ""; None; None; None; None; Some ""].
Proof. vm_compute. repeat split. Qed.

Example lines_samples :
  prints ["7/2"] = [Text "3"] ∧ prints ["-7/2"] = [Text "-3"] ∧
  prints ["(0-7)/2"] = [Text "-4"] ∧
  prints ["2^3^2"] = [Text "64"] ∧ prints ["1+-2"; "1--2"] = [Text "-1"; Text "3"] ∧
  prints ["(1+2"; "1+2)"] = [Text "Invalid expression"; Text "Invalid expression"] ∧
  prints ["1**2"; "1//2"] = [Text "Invalid expression"; Text "Invalid expression"] ∧
  prints ["-5"] = [Text "-5"] ∧
  prints ["x=5"; "x+1"; "x"] = [Text "6"; Text "5"] ∧
  prints ["x = 10"; "y = x"; "y"] = [Text "10"] ∧
  prints ["z+1"; "1x = 5"; "a=b=5"; "/foo"; "/exit"; "1"] =
    [Text "Unknown variable"; Text "Invalid identifier"; Text "Invalid assignment";
     Text "Unknown command"; Text "Bye!"] ∧
  (run ["()"]).1.1 = Raise IndexError ∧ (run ["+"]).1.1 = Raise IndexError ∧
  prints ["_"] = [Text "Unknown variable"] ∧ (run ["1+_"]).1.1 = Raise KeyError ∧
  (run ["1/0"]).1.1 = Raise ZeroDivisionError ∧ (run ["2^(0-1)"]).1.1 = NonInteger ∧
  (run ["# 1 . 2"]).1.1 = Raise KeyError ∧
  get_infix "# 1 . 2" = Ok ["#"; "1"; "."; "2"] ∧
  get_infix "a_1+ +-(b*c)#" = Ok ["a_1"; "-"; "("; "b"; "*"; "c"; ")"; "#"].
Proof. vm_compute. repeat split. Qed.

(** ** Division and the leading minus *)

Lemma floordiv_floor (a b : Z) :
  b ≠ 0 →
  floordiv a b = Ok (a / b) ∧
  ∃ r, a = b * (a / b) + r ∧ (0 ≤ r < b ∨ b < r ≤ 0).
Proof.
  intros Hb. unfold floordiv.
  destruct (Z.eqb_spec b 0) as [->|_]; [done|]. split; [done|].
  exists (a mod b). split.
  - apply Z.div_mod. done.
  - destruct (Z_lt_le_dec 0 b).
    + left. apply Z.mod_pos_bound. lia.
    + right. apply Z.mod_neg_bound. lia.
Qed.

(** C1, as the code has it: [/] is floor division, so that [7/2] prints 3
    and [(0-7)/2] prints -4; the line [-7/2] prints -3, because its minus
    is applied to the quotient of 7 by 2. *)
Theorem C1_floor_division (a b : Z) (stack : list Z) (Hb : b ≠ 0) :
  (∃ q r, apply_operator "/" a b stack = Ok (q :: stack) ∧
          a = b * q + r ∧ (0 ≤ r < b ∨ b < r ≤ 0)) ∧
  prints ["7/2"] = [Text "3"] ∧
  prints ["(0-7)/2"] = [Text "-4"] ∧
  get_infix "-7/2" = Ok ["-"; "7"; "/"; "2"] ∧
  infix_to_postfix ["-"; "7"; "/"; "2"] = Ok ["7"; "2"; "/"; "-"] ∧
  prints ["-7/2"] = [Text "-3"].
Proof.
  split.
  - destruct (floordiv_floor a b Hb) as [Hq [r Hr]].
    exists (a / b), r. split; [|done].
    unfold apply_operator. simpl. by rewrite Hq.
  - vm_compute. repeat split.
Qed.

Lemma C1_floor_division_witness :
  (∃ q r, apply_operator "/" (-7) 2 [] = Ok [q] ∧
          -7 = 2 * q + r ∧ (0 ≤ r < 2 ∨ 2 < r ≤ 0)) ∧
  prints ["7/2"] = [Text "3"] ∧
  prints ["(0-7)/2"] = [Text "-4"] ∧
  get_infix "-7/2" = Ok ["-"; "7"; "/"; "2"] ∧
  infix_to_postfix ["-"; "7"; "/"; "2"] = Ok ["7"; "2"; "/"; "-"] ∧
  prints ["-7/2"] = [Text "-3"].
Proof. apply (C1_floor_division (-7) 2 []). lia. Defined.

(** C1 as stated fails: the line [-7/2] does not print -4. *)
Lemma C1_minus_seven_halves_counterexample :
  ¬ (prints ["7/2"] = [Text "3"] ∧ prints ["-7/2"] = [Text "-4"]).
Proof. vm_compute. intros [_ H]. discriminate H. Qed.

(** ** Operators of equal priority *)

Lemma convert_operand ch stack postfix :
  Py.isalnum ch = true →
  convert_token ch stack postfix = Ok (stack, postfix ++ [ch]).
Proof. intros H. unfold convert_token. by rewrite H. Qed.

(** C2: an incoming operator whose priority is not above that of the
    operator on top of the stack sends the top to the output before it is
    pushed, [^] against [^] included; so [a^b^c] becomes [a b ^ c ^] and
    [2^3^2] prints 64. *)
Theorem C2_left_associative (ch top : string) (p q : nat) (stack postfix : list string)
    (a b c : string)
    (Hch : is_operator ch = true)
    (Hp : priority !! ch = Some p) (Hq : priority !! top = Some q) (Hpq : (p ≤ q)%nat)
    (Ha : Py.isalnum a = true) (Hb : Py.isalnum b = true) (Hc : Py.isalnum c = true) :
  convert_token ch (top :: stack) postfix =
    rbind (pop_not_lower ch stack (postfix ++ [top]))
      (λ '(stack', postfix'), Ok (ch :: stack', postfix')) ∧
  convert_token "^" ["^"] postfix = Ok (["^"], postfix ++ ["^"]) ∧
  infix_to_postfix [a; "^"; b; "^"; c] = Ok [a; b; "^"; c; "^"] ∧
  get_infix "2^3^2" = Ok ["2"; "^"; "3"; "^"; "2"] ∧
  eval_tokens ∅ ["2"; "3"; "^"; "2"; "^"] [] = Ok [(2 ^ 3) ^ 2] ∧
  prints ["2^3^2"] = [Text "64"].
Proof.
  assert (Hops : ch = "+" ∨ ch = "-" ∨ ch = "*" ∨ ch = "/" ∨ ch = "^").
  { apply bool_decide_eq_true_1 in Hch. unfold operators in Hch.
    rewrite !elem_of_cons, elem_of_nil in Hch. tauto. }
  split; [|split; [|split]].
  - assert (Hna : Py.isalnum ch = false) by (by destruct Hops as [->|[->|[->|[->| ->]]]]).
    assert (Hno : String.eqb ch "(" = false) by (by destruct Hops as [->|[->|[->|[->| ->]]]]).
    assert (Hnc : String.eqb ch ")" = false) by (by destruct Hops as [->|[->|[->|[->| ->]]]]).
    unfold convert_token. rewrite Hna, Hno, Hnc.
    unfold priority_of. rewrite Hp, Hq. simpl.
    destruct (Nat.ltb_spec q p) as [?|_]; [lia|].
    unfold priority_of. rewrite Hp, Hq. simpl.
    destruct (Nat.leb_spec p q) as [_|?]; [done|lia].
  - done.
  - assert (Hnp : ∀ x : string, Py.isalnum x = true → "(" ≠ x).
    { intros x Hx <-. discriminate Hx. }
    unfold infix_to_postfix.
    cbn [convert_tokens]. rewrite (convert_operand a) by done. cbn [rbind app].
    change (convert_token "^" [] [a])
      with (Ok (["^"], [a]) : result (list string * list string)).
    cbn [rbind]. rewrite (convert_operand b) by done. cbn [rbind app].
    change (convert_token "^" ["^"] [a; b])
      with (Ok (["^"], [a; b; "^"]) : result (list string * list string)).
    cbn [rbind]. rewrite (convert_operand c) by done. cbn [rbind app].
    rewrite bool_decide_eq_false_2; [done|].
    rewrite !elem_of_cons, elem_of_nil.
    intros [H|[H|[H|[H|[H|H]]]]]; try discriminate H; try done.
    + by apply (Hnp a).
    + by apply (Hnp b).
    + by apply (Hnp c).
  - vm_compute. repeat split.
Qed.

Lemma C2_left_associative_witness :
  convert_token "^" ["^"] ["2"; "3"] =
    rbind (pop_not_lower "^" [] (["2"; "3"] ++ ["^"]))
      (λ '(stack', postfix'), Ok ("^" :: stack', postfix')) ∧
  convert_token "^" ["^"] ["2"; "3"] = Ok (["^"], ["2"; "3"] ++ ["^"]) ∧
  infix_to_postfix ["2"; "^"; "3"; "^"; "2"] = Ok ["2"; "3"; "^"; "2"; "^"] ∧
  get_infix "2^3^2" = Ok ["2"; "^"; "3"; "^"; "2"] ∧
  eval_tokens ∅ ["2"; "3"; "^"; "2"; "^"] [] = Ok [(2 ^ 3) ^ 2] ∧
  prints ["2^3^2"] = [Text "64"].
Proof.
  apply (C2_left_associative "^" "^" 3 3 [] ["2"; "3"] "2" "3" "2");
    try reflexivity; lia.
Defined.

(** ** The methods, with the plumbing unfolded *)

Lemma handle_expression_unfold expression self out :
  handle_expression expression self out =
  match get_infix expression with
  | Ok infix =>
      match infix_to_postfix infix with
      | Ok p =>
          match eval_tokens (variables self) p [] with
          | Ok (v :: _) =>
              (Ok tt, {| total := v; variables := variables self; postfix := [] |}, out)
          | Ok [] => (Raise IndexError, set_postfix [] self, out)
          | Raise e => (Raise e, set_postfix p self, out)
          | NonInteger => (NonInteger, set_postfix p self, out)
          end
      | Raise e => (Raise e, self, out)
      | NonInteger => (NonInteger, self, out)
      end
  | Raise e => (Raise e, self, out)
  | NonInteger => (NonInteger, self, out)
  end.
Proof.
  unfold handle_expression, bind, lift, modify, evaluate_postfix, bind, get, lift, modify.
  destruct (get_infix expression) as [infix|e|]; [|done..].
  destruct (infix_to_postfix infix) as [p|e|]; [|done..].
  cbn [variables postfix set_postfix].
  destruct (eval_tokens (variables self) p []) as [[|v st]|e|]; done.
Qed.

Lemma handle_variable_unfold expression self out :
  handle_variable expression self out =
  match Py.split "=" expression with
  | [] => (Raise IndexError, self, out)
  | [name] =>
      if Py.isalpha (Py.strip_spaces name) then
        match variables self !! Py.strip_spaces name with
        | Some value => (Ok tt, self, out ++ [Text value])
        | None => (Raise UnknownVariableError, self, out)
        end
      else (Raise InvalidIdentifierError, self, out)
  | [name; value] =>
      if Py.isalpha (Py.strip_spaces name) then
        match Py.int (default (Py.strip_spaces value) (variables self !! Py.strip_spaces value)) with
        | Some z => (Ok tt, set_variables (<[Py.strip_spaces name := Py.str z]> (variables self)) self, out)
        | None => (Raise InvalidAssignmentError, self, out)
        end
      else (Raise InvalidIdentifierError, self, out)
  | _ => (Raise InvalidAssignmentError, self, out)
  end.
Proof.
  unfold handle_variable.
  destruct (Py.split "=" expression) as [|name [|value [|]]]; try done.
  - destruct (Py.isalpha (Py.strip_spaces name)); [|done].
    cbn. unfold bind, get. destruct (variables self !! Py.strip_spaces name); done.
  - destruct (Py.isalpha (Py.strip_spaces name)); [|done].
    cbn. unfold bind, get.
    destruct (variables self !! Py.strip_spaces value); cbn;
      match goal with |- context [Py.int ?x] => destruct (Py.int x) end; done.
Qed.

Lemma handle_command_unfold command self out :
  handle_command command self out =
  if String.eqb command "/exit" then (Ok (-1), self, out ++ [Text "Bye!"])
  else if String.eqb command "/help" then (Ok 0, self, out ++ [Doc])
  else (Raise UnknownCommandError, self, out).
Proof.
  unfold handle_command.
  destruct (String.eqb command "/exit"); [done|].
  destruct (String.eqb command "/help"); done.
Qed.

(** ** What each stage can raise *)
Lemma fold_token_raises ch e : fold_token ch = Raise e → e = InvalidExpressionError.
Proof. unfold fold_token. repeat case_match; congruence. Qed.

Lemma fold_token_integer ch : fold_token ch ≠ NonInteger.
Proof. unfold fold_token. repeat case_match; congruence. Qed.

Lemma fold_tokens_raises infix e : fold_tokens infix = Raise e → e = InvalidExpressionError.
Proof.
  revert e. induction infix as [|ch rest IH]; intros e; cbn; [done|].
  destruct (fold_token ch) eqn:Hch; cbn.
  - destruct (fold_tokens rest); cbn; [done| |done]. intros [= <-]. by apply IH.
  - intros [= <-]. by eapply fold_token_raises.
  - done.
Qed.

Lemma fold_tokens_integer infix : fold_tokens infix ≠ NonInteger.
Proof.
  induction infix as [|ch rest IH]; cbn; [done|].
  destruct (fold_token ch) eqn:Hch; cbn; [|done|by apply fold_token_integer in Hch].
  destruct (fold_tokens rest); done.
Qed.

Lemma priority_of_raises ch e : priority_of ch = Raise e → e = KeyError.
Proof. unfold priority_of. case_match; congruence. Qed.

Lemma priority_of_integer ch : priority_of ch ≠ NonInteger.
Proof. unfold priority_of. case_match; congruence. Qed.

Lemma pop_not_lower_raises ch stack postfix e :
  pop_not_lower ch stack postfix = Raise e → e = KeyError.
Proof.
  revert postfix. induction stack as [|top below IH]; intros postfix; cbn; [done|].
  destruct (priority_of ch) eqn:Hp; cbn; [|intros [= <-]; by eapply priority_of_raises|done].
  destruct (priority_of top) eqn:Hq; cbn; [|intros [= <-]; by eapply priority_of_raises|done].
  case_match; [apply IH|done].
Qed.

Lemma pop_not_lower_integer ch stack postfix :
  pop_not_lower ch stack postfix ≠ NonInteger.
Proof.
  revert postfix. induction stack as [|top below IH]; intros postfix; cbn; [done|].
  destruct (priority_of ch) eqn:Hp; cbn; [|done|by apply priority_of_integer in Hp].
  destruct (priority_of top) eqn:Hq; cbn; [|done|by apply priority_of_integer in Hq].
  case_match; [apply IH|done].
Qed.

Lemma convert_token_raises ch stack postfix e :
  convert_token ch stack postfix = Raise e →
  e = Custom InvalidExpressionError ∨ e = KeyError.
Proof.
  unfold convert_token.
  destruct (Py.isalnum ch); [done|].
  destruct (String.eqb ch "("); [done|].
  destruct (String.eqb ch ")").
  { destruct (pop_to_paren stack postfix) as [[|] ?]; [|done]. intros [= <-]. by left. }
  destruct stack as [|top below]; [done|].
  destruct (priority_of ch) eqn:Hp; cbn [rbind]; [|intros [= <-]; right; by eapply priority_of_raises|done].
  destruct (priority_of top) eqn:Hq; cbn [rbind]; [|intros [= <-]; right; by eapply priority_of_raises|done].
  case_match; [done|].
  destruct (pop_not_lower ch (top :: below) postfix) as [[]| |] eqn:Hl; cbn [rbind]; [done| |done].
  intros [= <-]. right. by eapply pop_not_lower_raises.
Qed.

Lemma convert_token_integer ch stack postfix :
  convert_token ch stack postfix ≠ NonInteger.
Proof.
  unfold convert_token.
  destruct (Py.isalnum ch); [done|].
  destruct (String.eqb ch "("); [done|].
  destruct (String.eqb ch ")").
  { by destruct (pop_to_paren stack postfix) as [[|] ?]. }
  destruct stack as [|top below]; [done|].
  destruct (priority_of ch) eqn:Hp; cbn [rbind]; [|done|by apply priority_of_integer in Hp].
  destruct (priority_of top) eqn:Hq; cbn [rbind]; [|done|by apply priority_of_integer in Hq].
  case_match; [done|].
  destruct (pop_not_lower ch (top :: below) postfix) as [[]| |] eqn:Hl; cbn [rbind]; [done|done|].
  by apply pop_not_lower_integer in Hl.
Qed.

Lemma convert_tokens_raises infix stack postfix e :
  convert_tokens infix stack postfix = Raise e →
  e = Custom InvalidExpressionError ∨ e = KeyError.
Proof.
  revert stack postfix. induction infix as [|ch rest IH]; intros stack postfix; cbn; [done|].
  destruct (convert_token ch stack postfix) as [[]| |] eqn:Hc; cbn; [apply IH| |done].
  intros [= <-]. by eapply convert_token_raises.
Qed.

Lemma convert_tokens_integer infix stack postfix :
  convert_tokens infix stack postfix ≠ NonInteger.
Proof.
  revert stack postfix. induction infix as [|ch rest IH]; intros stack postfix; cbn; [done|].
  destruct (convert_token ch stack postfix) as [[]| |] eqn:Hc; cbn; [apply IH|done|].
  by apply convert_token_integer in Hc.
Qed.

Lemma infix_to_postfix_raises infix e :
  infix_to_postfix infix = Raise e →
  e = Custom InvalidExpressionError ∨ e = KeyError.
Proof.
  unfold infix_to_postfix.
  destruct (convert_tokens infix [] []) as [[]| |] eqn:Hc; cbn; [| |done].
  - case_match; [|done]. intros [= <-]. by left.
  - intros [= <-]. by eapply convert_tokens_raises.
Qed.

Lemma infix_to_postfix_integer infix : infix_to_postfix infix ≠ NonInteger.
Proof.
  unfold infix_to_postfix.
  destruct (convert_tokens infix [] []) as [[]| |] eqn:Hc; cbn; [|done|].
  - by case_match.
  - by apply convert_tokens_integer in Hc.
Qed.

Lemma eval_token_raises_custom vars ch stack (e : custom) :
  eval_token vars ch stack = Raise e → e = UnknownVariableError.
Proof.
  unfold eval_token, apply_operator, floordiv, power, int_or_raise.
  repeat case_match; cbn; congruence.
Qed.

Lemma eval_tokens_raises_custom vars tokens stack (e : custom) :
  eval_tokens vars tokens stack = Raise e → e = UnknownVariableError.
Proof.
  revert stack. induction tokens as [|ch rest IH]; intros stack; cbn; [done|].
  destruct (eval_token vars ch stack) eqn:Hc; cbn; [apply IH| |done].
  intros [= ->]. by eapply eval_token_raises_custom.
Qed.

Lemma get_infix_raises expression e :
  get_infix expression = Raise e → e = InvalidExpressionError.
Proof. apply fold_tokens_raises. Qed.

Ltac in_list := repeat first [apply list_elem_of_here | apply list_elem_of_further].

Lemma handle_expression_fails expression self out (e : custom) self' out' :
  handle_expression expression self out = (Raise e, self', out') →
  e ∈ [InvalidExpressionError; UnknownVariableError] ∧
  variables self' = variables self ∧ total self' = total self ∧ out' = out.
Proof.
  rewrite handle_expression_unfold.
  destruct (get_infix expression) as [infix|e1|] eqn:Hi; [| |done].
  - destruct (infix_to_postfix infix) as [p|e1|] eqn:Hp; [| |done].
    + destruct (eval_tokens (variables self) p []) as [[|v st]|e1|] eqn:He; [done..| |done].
      intros [= -> <- <-]. apply eval_tokens_raises_custom in He as ->.
      split; [in_list|done].
    + intros [= -> <- <-]. apply infix_to_postfix_raises in Hp as [[= ->]|?]; [|done].
      split; [in_list|done].
  - intros [= -> <- <-]. apply get_infix_raises in Hi as [= ->].
    split; [in_list|done].
Qed.

Lemma handle_variable_fails expression self out (e : custom) self' out' :
  handle_variable expression self out = (Raise e, self', out') →
  e ∈ [InvalidIdentifierError; UnknownVariableError; InvalidAssignmentError] ∧
  self' = self ∧ out' = out.
Proof.
  rewrite handle_variable_unfold.
  repeat case_match; intros [= <- <- <-]; (split; [in_list|done]).
Qed.

Lemma handle_command_fails command self out (e : custom) self' out' :
  handle_command command self out = (Raise e, self', out') →
  e = UnknownCommandError ∧ self' = self ∧ out' = out.
Proof.
  rewrite handle_command_unfold.
  repeat case_match; intros [= <- <- <-]; done.
Qed.

(** ** Errors are printed once and change nothing *)

(** C7: when the handler of a line raises one of the five errors of the
    calculator, the loop prints its message and nothing else, the
    variables and the last result are as before the line, and the loop
    goes on with the next line. *)
Theorem C7_error_prints_once_and_keeps_state
    (line : string) (self : Calculator) (out : list printed) (e : custom)
    (Hfail : (handler line self out).1.1 = Raise (Custom e)) :
  ∃ self',
    process_line line self out = (Ok Continue, self', out ++ [Text (message e)]) ∧
    variables self' = variables self ∧
    total self' = total self ∧
    ∀ rest, start_calculator (line :: rest) self out =
            start_calculator rest self' (out ++ [Text (message e)]).
Proof.
  assert (∃ self',
    process_line line self out = (Ok Continue, self', out ++ [Text (message e)]) ∧
    variables self' = variables self ∧ total self' = total self) as (self' & Hp & Hv & Ht).
  { revert Hfail. unfold handler, process_line.
    destruct (classify (Py.strip line)); [done| | |].
    - unfold bind, try_except.
      destruct (handle_command (Py.strip line) self out) as [[r s] o] eqn:Hc.
      destruct r as [v|e'|]; [done| |done]. cbn. intros [= ->].
      apply handle_command_fails in Hc as (-> & -> & ->).
      exists self. done.
    - unfold try_except.
      destruct (handle_variable (Py.strip line) self out) as [[r s] o] eqn:Hc.
      destruct r as [v|e'|]; [done| |done]. cbn [fst]. intros [= ->].
      apply handle_variable_fails in Hc as (Hin & -> & ->).
      rewrite bool_decide_eq_true_2 by done. exists self. done.
    - unfold try_except.
      destruct (handle_expression (Py.strip line) self out) as [[r s] o] eqn:Hc.
      destruct r as [v|e'|]; [done| |done]. cbn [fst]. intros [= ->].
      apply handle_expression_fails in Hc as (Hin & ? & ? & ->).
      rewrite bool_decide_eq_true_2 by done. exists s. done. }
  exists self'. split; [done|]. split; [done|]. split; [done|].
  intros rest. cbn [start_calculator]. unfold bind at 1. by rewrite Hp.
Qed.

Lemma C7_error_prints_once_and_keeps_state_witness :
  ∃ self',
    process_line "z+1" init [] =
      (Ok Continue, self', [] ++ [Text (message UnknownVariableError)]) ∧
    variables self' = variables init ∧
    total self' = total init ∧
    ∀ rest, start_calculator ("z+1" :: rest) init [] =
            start_calculator rest self' ([] ++ [Text (message UnknownVariableError)]).
Proof.
  apply (C7_error_prints_once_and_keeps_state "z+1" init [] UnknownVariableError).
  reflexivity.
Defined.

(** ** The operands of an operator *)

Lemma operator_cases ch :
  is_operator ch = true → ch = "+" ∨ ch = "-" ∨ ch = "*" ∨ ch = "/" ∨ ch = "^".
Proof.
  intros Hch. apply bool_decide_eq_true_1 in Hch. unfold operators in Hch.
  rewrite !elem_of_cons, elem_of_nil in Hch. tauto.
Qed.

(** C6: for an operator token the evaluator pops [b], then [a], and takes
    0 for [a] when the stack is empty by then; so the postfix sequence
    [5 -] evaluates to [0 - 5] and the line [-5] prints -5. *)
Theorem C6_missing_operand_is_zero
    (vars : gmap string string) (ch : string) (a b : Z) (stack : list Z)
    (Hch : is_operator ch = true) :
  eval_token vars ch (b :: a :: stack) = apply_operator ch a b stack ∧
  eval_token vars ch [b] = apply_operator ch 0 b [] ∧
  apply_operator "+" a b stack = Ok (a + b :: stack) ∧
  apply_operator "-" a b stack = Ok (a - b :: stack) ∧
  apply_operator "*" a b stack = Ok (a * b :: stack) ∧
  eval_token vars "-" [b] = Ok [0 - b] ∧
  evaluate_postfix (set_postfix ["5"; "-"] init) [] = (Ok (0 - 5), init, []) ∧
  get_infix "-5" = Ok ["-"; "5"] ∧
  infix_to_postfix ["-"; "5"] = Ok ["5"; "-"] ∧
  prints ["-5"] = [Text "-5"].
Proof.
  assert (Hin : Py.str_in ch "+-*/^" = true).
  { by destruct (operator_cases ch Hch) as [->|[->|[->|[->| ->]]]]. }
  unfold eval_token. rewrite Hin.
  repeat split.
Qed.

Lemma C6_missing_operand_is_zero_witness :
  eval_token ∅ "-" [5; 7; 1] = apply_operator "-" 7 5 [1] ∧
  eval_token ∅ "-" [5] = apply_operator "-" 0 5 [] ∧
  apply_operator "+" 7 5 [1] = Ok [7 + 5; 1] ∧
  apply_operator "-" 7 5 [1] = Ok [7 - 5; 1] ∧
  apply_operator "*" 7 5 [1] = Ok [7 * 5; 1] ∧
  eval_token ∅ "-" [5] = Ok [0 - 5] ∧
  evaluate_postfix (set_postfix ["5"; "-"] init) [] = (Ok (0 - 5), init, []) ∧
  get_infix "-5" = Ok ["-"; "5"] ∧
  infix_to_postfix ["-"; "5"] = Ok ["5"; "-"] ∧
  prints ["-5"] = [Text "-5"].
Proof. apply (C6_missing_operand_is_zero ∅ "-" 7 5 [1]). reflexivity. Defined.

(** ** Exceptions that the loop does not catch *)

(** C9 does not hold of the code: built-in exceptions leave the loop.  The
    final pop raises [IndexError] on [()], the pop of [b] raises it on a
    lone [+], the priority table raises [KeyError] on [1+_], and [1/0]
    raises [ZeroDivisionError]; nothing is printed and the loop ends
    without reading the next line.  The line [_] alone fails with
    UnknownVariable. *)
Theorem C9_uncaught_exceptions :
  process_line "()" init [] = (Raise IndexError, init, []) ∧
  process_line "+" init [] = (Raise IndexError, set_postfix ["+"] init, []) ∧
  process_line "1+_" init [] = (Raise KeyError, init, []) ∧
  process_line "1/0" init [] = (Raise ZeroDivisionError, set_postfix ["1"; "0"; "/"] init, []) ∧
  run ["()"; "1"] = (Raise IndexError, init, []) ∧
  run ["+"; "1"] = (Raise IndexError, set_postfix ["+"] init, []) ∧
  prints ["_"; "1"] = [Text "Unknown variable"; Text "1"].
Proof. vm_compute. repeat split. Qed.

(** ** The postfix sequence between lines *)

Lemma same_but_postfix_refl s : same_but_postfix s s.
Proof. done. Qed.

Lemma process_line_ignores_postfix line s1 s2 out :
  same_but_postfix s1 s2 →
  (process_line line s1 out).1.1 = (process_line line s2 out).1.1 ∧
  (process_line line s1 out).2 = (process_line line s2 out).2 ∧
  same_but_postfix (process_line line s1 out).1.2 (process_line line s2 out).1.2.
Proof.
  intros [Ht Hv]. unfold process_line.
  destruct (classify (Py.strip line)); [done| | |].
  - unfold try_except. rewrite !handle_command_unfold.
    repeat case_match; simplify_eq; done.
  - unfold try_except. rewrite !handle_variable_unfold, Hv.
    repeat case_match; simplify_eq; cbn; try done.
    all: split; [done|]; split; [done|]; split; cbn; congruence.
  - unfold try_except. rewrite !handle_expression_unfold, Hv.
    destruct (get_infix (Py.strip line)) as [infix| |]; [| |done].
    + destruct (infix_to_postfix infix) as [p| |]; [| |done].
      * destruct (eval_tokens (variables s2) p []) as [[|v st]|e|]; try done.
        destruct e as [e| | | | |]; try done. case_match; done.
      * destruct e as [e| | | | |]; try done. case_match; done.
    + destruct e as [e| | | | |]; try done. case_match; done.
Qed.

Lemma start_calculator_ignores_postfix lines s1 s2 out :
  same_but_postfix s1 s2 →
  (start_calculator lines s1 out).1.1 = (start_calculator lines s2 out).1.1 ∧
  (start_calculator lines s1 out).2 = (start_calculator lines s2 out).2 ∧
  same_but_postfix (start_calculator lines s1 out).1.2 (start_calculator lines s2 out).1.2.
Proof.
  revert s1 s2 out. induction lines as [|line rest IH]; intros s1 s2 out Hs; [done|].
  cbn [start_calculator]. unfold bind.
  destruct (process_line_ignores_postfix line s1 s2 out Hs) as (Hr & Ho & Hs').
  destruct (process_line line s1 out) as [[r1 t1] o1].
  destruct (process_line line s2 out) as [[r2 t2] o2].
  cbn in Hr, Ho, Hs'. subst r2 o2.
  destruct r1 as [[|]| |]; try done. by apply IH.
Qed.

(** C8 fails in the code.  [evaluate_postfix] resets the postfix sequence
    on the path that returns a value and nowhere else: an expression line
    whose evaluation fails with UnknownVariable prints the message, lets
    the loop go on and leaves its whole, non-empty postfix sequence in the
    object.  So it is after the line [z+1] from the fresh calculator, and
    the sequence is still there after the lines that follow it. *)
Theorem C8_postfix_kept_after_unknown_variable
    (line : string) (self : Calculator) (out : list printed)
    (Hroute : classify (Py.strip line) = ToExpression)
    (Hfails : (handler line self out).1.1 = Raise UnknownVariableError) :
  (∃ infix p,
     get_infix (Py.strip line) = Ok infix ∧ infix_to_postfix infix = Ok p ∧
     p ≠ [] ∧
     process_line line self out =
       (Ok Continue, set_postfix p self, out ++ [Text "Unknown variable"])) ∧
  (∀ v self' out',
     evaluate_postfix self out = (Ok v, self', out') → postfix self' = []) ∧
  process_line "z+1" init [] =
    (Ok Continue, set_postfix ["z"; "1"; "+"] init, [Text "Unknown variable"]) ∧
  (run ["z+1"; "x = 2"; "x"; "/exit"]).1.1 = Ok tt ∧
  postfix (run ["z+1"; "x = 2"; "x"; "/exit"]).1.2 = ["z"; "1"; "+"].
Proof.
  split; [|split; [|by vm_compute]].
  - revert Hfails. unfold handler, process_line. rewrite Hroute.
    unfold try_except. rewrite handle_expression_unfold.
    destruct (get_infix (Py.strip line)) as [infix|e|] eqn:Hi; cbn; [|intros [= ->]|done].
    2:{ by apply get_infix_raises in Hi. }
    destruct (infix_to_postfix infix) as [p|e|] eqn:Hp; cbn; [|intros [= ->]|done].
    2:{ by destruct (infix_to_postfix_raises _ _ Hp). }
    destruct (eval_tokens (variables self) p []) as [[|v st]|e|] eqn:He; cbn; try done.
    intros [= ->]. exists infix, p.
    split; [done|]. split; [done|]. split; [|done].
    intros ->. by cbn in He.
  - intros v self' out'. unfold evaluate_postfix, bind, get, lift, modify.
    destruct (eval_tokens (variables self) (postfix self) []) as [[|w st]| |]; try done.
    by intros [= _ <- _].
Qed.

Lemma C8_postfix_kept_after_unknown_variable_witness :
  (∃ infix p,
     get_infix (Py.strip " z + 1 ") = Ok infix ∧ infix_to_postfix infix = Ok p ∧
     p ≠ [] ∧
     process_line " z + 1 " (set_variables {["x" := "2"]} init) [Doc] =
       (Ok Continue, set_postfix p (set_variables {["x" := "2"]} init),
        [Doc] ++ [Text "Unknown variable"])) ∧
  (∀ v self' out',
     evaluate_postfix (set_variables {["x" := "2"]} init) [Doc] = (Ok v, self', out') →
     postfix self' = []) ∧
  process_line "z+1" init [] =
    (Ok Continue, set_postfix ["z"; "1"; "+"] init, [Text "Unknown variable"]) ∧
  (run ["z+1"; "x = 2"; "x"; "/exit"]).1.1 = Ok tt ∧
  postfix (run ["z+1"; "x = 2"; "x"; "/exit"]).1.2 = ["z"; "1"; "+"].
Proof.
  apply (C8_postfix_kept_after_unknown_variable
           " z + 1 " (set_variables {["x" := "2"]} init) [Doc]); reflexivity.
Defined.

(** ** [int] after [str] *)

Lemma all_digits_string_of_uint d :
  Py.all_chars Py.isdigit_c (NilEmpty.string_of_uint d) = true.
Proof. induction d; cbn; [done|by rewrite IHd..]. Qed.

Lemma digits_string_of_uint d :
  Py.digits true (NilEmpty.string_of_uint d) = Some d.
Proof. induction d; cbn; [done|by rewrite IHd..]. Qed.

Lemma digits_string_of_uint_nonnil d :
  d ≠ Decimal.Nil → Py.digits false (NilEmpty.string_of_uint d) = Some d.
Proof. destruct d; [done|intros _; cbn; by rewrite digits_string_of_uint..]. Qed.

Lemma rstrip_none p s :
  Py.all_chars (λ c, negb (p c)) s = true → Py.rstrip p s = s.
Proof.
  induction s as [|c r IH]; cbn; [done|].
  intros [Hc Hr]%andb_true_iff. rewrite IH by done.
  destruct r; [|done]. by destruct (p c).
Qed.

Lemma digit_not_space s :
  Py.all_chars Py.isdigit_c s = true →
  Py.all_chars (λ c, negb (Py.isspace_int c)) s = true.
Proof.
  induction s as [|c r IH]; cbn; [done|].
  intros [Hc Hr]%andb_true_iff. rewrite IH by done.
  rewrite andb_true_r. revert Hc.
  destruct c as [[|] [|] [|] [|] [|] [|] [|] [|]]; by vm_compute.
Qed.

Lemma strip_string_of_uint d :
  Py.strip_by Py.isspace_int (NilEmpty.string_of_uint d) = NilEmpty.string_of_uint d.
Proof.
  unfold Py.strip_by.
  assert (Py.lstrip Py.isspace_int (NilEmpty.string_of_uint d) = NilEmpty.string_of_uint d)
    as -> by (by destruct d).
  apply rstrip_none, digit_not_space, all_digits_string_of_uint.
Qed.

Lemma strip_minus_string_of_uint d :
  Py.strip_by Py.isspace_int (String "-" (NilEmpty.string_of_uint d)) =
  String "-" (NilEmpty.string_of_uint d).
Proof.
  unfold Py.strip_by. cbn [Py.lstrip].
  change (Py.isspace_int "-") with false. cbn iota.
  apply rstrip_none. cbn. apply digit_not_space, all_digits_string_of_uint.
Qed.

Lemma int_string_of_uint d :
  d ≠ Decimal.Nil →
  Py.int (NilEmpty.string_of_uint d) = Some (Z.of_int (Decimal.Pos d)) ∧
  Py.int (String "-" (NilEmpty.string_of_uint d)) = Some (Z.of_int (Decimal.Neg d)).
Proof.
  intros Hd. unfold Py.int.
  rewrite strip_string_of_uint, strip_minus_string_of_uint. split.
  - pose proof (digits_string_of_uint_nonnil d Hd) as Hdig.
    destruct d; [done|cbn in Hdig |- *; by rewrite Hdig..].
  - change (Ascii.eqb "-" "-") with true. cbn iota.
    by rewrite digits_string_of_uint_nonnil.
Qed.

(** [int(str(z)) == z] *)
Lemma int_str z : Py.int (Py.str z) = Some z.
Proof.
  unfold Py.str. rewrite <- (DecimalZ.of_to z) at 2.
  destruct z as [|p|p]; [done| |].
  - apply int_string_of_uint, Unsigned.to_uint_nonnil.
  - apply int_string_of_uint, Unsigned.to_uint_nonnil.
Qed.

Lemma canonical_str z : canonical (Py.str z).
Proof. exists z. by rewrite int_str. Qed.

(** ** The variables table holds canonical integers *)






Lemma process_line_variables line self out :
  variables (process_line line self out).1.2 = variables self ∨
  ∃ name z, variables (process_line line self out).1.2 =
            <[name := Py.str z]> (variables self).
Proof.
  unfold process_line.
  destruct (classify (Py.strip line)); [by left| | |].
  - left. unfold try_except. rewrite handle_command_unfold.
    repeat case_match; simplify_eq; done.
  - unfold try_except. rewrite handle_variable_unfold.
    repeat case_match; simplify_eq; cbn; eauto.
  - left. unfold try_except. rewrite handle_expression_unfold.
    repeat case_match; simplify_eq; done.
Qed.

Lemma reachable_canonical self : reachable self → canonical_table (variables self).
Proof.
  induction 1 as [|self line out r self' out' _ IH Hstep].
  - apply map_Forall_empty.
  - pose proof (process_line_variables line self out) as Hv.
    rewrite Hstep in Hv. cbn in Hv.
    destruct Hv as [->|(name & z & ->)]; [done|].
    apply map_Forall_insert_2; [apply canonical_str|done].
Qed.



(** ** [Re.split] yields the maximal runs *)

Lemma classes_disjoint c :
  (Re.is_word c = true → Re.is_sign c = false ∧ Re.is_mul c = false ∧ Re.is_paren c = false) ∧
  (Re.is_sign c = true → Re.is_word c = false ∧ Re.is_mul c = false ∧ Re.is_paren c = false) ∧
  (Re.is_mul c = true → Re.is_word c = false ∧ Re.is_sign c = false ∧ Re.is_paren c = false) ∧
  (Re.is_paren c = true → Re.is_word c = false ∧ Re.is_sign c = false ∧ Re.is_mul c = false).
Proof.
  destruct c as [[|] [|] [|] [|] [|] [|] [|] [|]]; vm_compute; repeat split; congruence.
Qed.

Lemma same_run_class p c d :
  p = Re.is_word ∨ p = Re.is_sign ∨ p = Re.is_mul →
  p c = true → same_run c d = p d.
Proof.
  unfold same_run.
  intros [->|[->| ->]] Hc; rewrite Hc;
    [destruct (proj1 (classes_disjoint c) Hc) as (-> & -> & _)
    |destruct (proj1 (proj2 (classes_disjoint c)) Hc) as (-> & -> & _)
    |destruct (proj1 (proj2 (proj2 (classes_disjoint c))) Hc) as (-> & -> & _)];
    cbn; by rewrite ?orb_false_r.
Qed.

Lemma same_run_none c d :
  Re.is_word c = false → Re.is_sign c = false → Re.is_mul c = false →
  same_run c d = false.
Proof. unfold same_run. by intros -> -> ->. Qed.

Lemma chunks_cons c r :
  ∃ t ts, chunks (c :: r) = (c :: t) :: ts.
Proof.
  cbn. destruct (chunks r) as [|[|d t] ts]; [by eexists _, _..|].
  destruct (same_run c d); by eexists _, _.
Qed.

(** A cons whose head does not join what follows starts a token of its
    own. *)
Lemma chunks_alone c r :
  match r with d :: _ => same_run c d = false | [] => True end →
  chunks (c :: r) = [c] :: chunks r.
Proof.
  destruct r as [|d r]; [done|]. intros Hcd.
  destruct (chunks_cons d r) as (t & ts & Hd).
  change (chunks (c :: d :: r)) with
    (match chunks (d :: r) with
     | (d :: t) :: ts => if same_run c d then (c :: d :: t) :: ts else [c] :: (d :: t) :: ts
     | ts => [c] :: ts
     end).
  rewrite Hd. by rewrite Hcd.
Qed.

Lemma chunks_join c d r t ts :
  same_run c d = true → chunks (d :: r) = (d :: t) :: ts →
  chunks (c :: d :: r) = (c :: d :: t) :: ts.
Proof.
  intros Hcd Hd.
  change (chunks (c :: d :: r)) with
    (match chunks (d :: r) with
     | (d :: t) :: ts => if same_run c d then (c :: d :: t) :: ts else [c] :: (d :: t) :: ts
     | ts => [c] :: ts
     end).
  rewrite Hd. by rewrite Hcd.
Qed.

Lemma span_app p s : (Re.span p s).1 ++ (Re.span p s).2 = s.
Proof.
  induction s as [|c r IH]; cbn; [done|].
  destruct (p c); [|done]. destruct (Re.span p r) as [g r']. cbn in *. by rewrite IH.
Qed.

Lemma span_length p s : (length (Re.span p s).2 ≤ length s)%nat.
Proof. rewrite <- (span_app p s) at 2. rewrite length_app. lia. Qed.

Lemma span_nil p s : (Re.span p s).1 = [] → (Re.span p s).2 = s.
Proof. intros H. rewrite <- (span_app p s) at 2. by rewrite H. Qed.

Lemma span_nil_head p c r : (Re.span p (c :: r)).1 = [] → p c = false.
Proof. cbn. destruct (p c); [|done]. by destruct (Re.span p r). Qed.

(** A greedy group is the first token, when it is not empty. *)
Lemma chunks_span p s :
  p = Re.is_word ∨ p = Re.is_sign ∨ p = Re.is_mul →
  chunks s = nonempties [Re.group (Re.span p s).1] ++ chunks (Re.span p s).2.
Proof.
  intros Hp. induction s as [|c r IH]; [done|].
  cbn [Re.span]. destruct (p c) eqn:Hc; [|done].
  destruct (Re.span p r) as [g r'] eqn:Hs. cbn [fst snd] in *.
  change (nonempties [Re.group (c :: g)]) with [c :: g].
  destruct g as [|d g].
  - (* the run ends with [c] *)
    cbn in IH. pose proof (span_nil p r) as Hr. rewrite Hs in Hr. cbn in Hr.
    rewrite Hr by done. apply chunks_alone.
    destruct r as [|d r]; [done|].
    rewrite (same_run_class p) by done.
    apply (span_nil_head p d r). by rewrite Hs.
  - (* the run goes on *)
    cbn in IH. destruct r as [|d' r]; [done|].
    assert (d' = d ∧ p d = true) as [-> Hd].
    { cbn in Hs. destruct (p d') eqn:Hd'; [|done].
      destruct (Re.span p r). by simplify_eq. }
    cbn. eapply chunks_join; [by rewrite (same_run_class p)|done].
Qed.

Lemma match_here_chunks s :
  chunks s = nonempties (Re.match_here s).1 ++ chunks (Re.match_here s).2.
Proof.
  unfold Re.match_here.
  rewrite (chunks_span Re.is_word s) by auto.
  destruct (Re.span Re.is_word s) as [g1 s1]. cbn [fst snd].
  rewrite (chunks_span Re.is_sign s1) by auto.
  destruct (Re.span Re.is_sign s1) as [g2 s2]. cbn [fst snd].
  rewrite (chunks_span Re.is_mul s2) by auto.
  destruct (Re.span Re.is_mul s2) as [g3 s3]. cbn [fst snd].
  assert (chunks s3 =
    nonempties [Re.group (match s3 with
                          | c :: r => if Re.is_paren c then ([c], r) else ([], s3)
                          | [] => ([], [])
                          end).1] ++
    chunks (match s3 with
            | c :: r => if Re.is_paren c then ([c], r) else ([], s3)
            | [] => ([], [])
            end).2) as ->.
  { destruct s3 as [|c r]; [done|]. destruct (Re.is_paren c) eqn:Hc; [|done].
    cbn [fst snd]. change (nonempties [Re.group [c]]) with [[c]].
    apply chunks_alone. destruct r; [done|].
    destruct (proj2 (proj2 (proj2 (classes_disjoint c))) Hc) as (? & ? & ?).
    by apply same_run_none. }
  destruct (match s3 with
            | c :: r => if Re.is_paren c then ([c], r) else ([], s3)
            | [] => ([], [])
            end) as [g4 s4]. cbn [fst snd].
  destruct g1, g2, g3, g4; cbn; by rewrite ?app_nil_r.
Qed.

Lemma group_nonempties g : concat (nonempties [Re.group g]) = g.
Proof. destruct g; cbn; by rewrite ?app_nil_r. Qed.

Lemma nonempties_app l1 l2 : nonempties (l1 ++ l2) = nonempties l1 ++ nonempties l2.
Proof. apply omap_app. Qed.

Lemma match_here_app s :
  concat (nonempties (Re.match_here s).1) ++ (Re.match_here s).2 = s.
Proof.
  unfold Re.match_here.
  pose proof (span_app Re.is_word s) as H1.
  destruct (Re.span Re.is_word s) as [g1 s1]. cbn [fst snd] in *.
  pose proof (span_app Re.is_sign s1) as H2.
  destruct (Re.span Re.is_sign s1) as [g2 s2]. cbn [fst snd] in *.
  pose proof (span_app Re.is_mul s2) as H3.
  destruct (Re.span Re.is_mul s2) as [g3 s3]. cbn [fst snd] in *.
  assert ((match s3 with
           | c :: r => if Re.is_paren c then ([c], r) else ([], s3)
           | [] => ([], [])
           end).1 ++
          (match s3 with
           | c :: r => if Re.is_paren c then ([c], r) else ([], s3)
           | [] => ([], [])
           end).2 = s3) as H4.
  { destruct s3 as [|c r]; [done|]. by destruct (Re.is_paren c). }
  destruct (match s3 with
            | c :: r => if Re.is_paren c then ([c], r) else ([], s3)
            | [] => ([], [])
            end) as [g4 s4]. cbn [fst snd] in *.
  change [Re.group g1; Re.group g2; Re.group g3; Re.group g4]
    with ([Re.group g1] ++ [Re.group g2] ++ [Re.group g3] ++ [Re.group g4]).
  rewrite !nonempties_app, !concat_app, !group_nonempties.
  rewrite <- !app_assoc. by rewrite H4, H3, H2, H1.
Qed.

Lemma empty_match_nonempties groups :
  Re.is_empty_match groups = true → nonempties groups = [].
Proof.
  induction groups as [|[g|] gs IH]; cbn; [done..|]. intros H. by apply IH.
Qed.

Lemma match_here_progress s :
  Re.is_empty_match (Re.match_here s).1 = false →
  (length (Re.match_here s).2 < length s)%nat.
Proof.
  intros He. pose proof (match_here_app s) as Happ.
  assert (concat (nonempties (Re.match_here s).1) ≠ []) as Hne.
  { revert He. unfold Re.match_here.
    destruct (Re.span Re.is_word s) as [g1 s1].
    destruct (Re.span Re.is_sign s1) as [g2 s2].
    destruct (Re.span Re.is_mul s2) as [g3 s3].
    destruct (match s3 with
              | c :: r => if Re.is_paren c then ([c], r) else ([], s3)
              | [] => ([], [])
              end) as [g4 s4]. cbn [fst].
    destruct g1, g2, g3, g4; cbn; done. }
  rewrite <- Happ at 2. rewrite length_app.
  destruct (concat (nonempties (Re.match_here s).1)); [done|]. cbn. lia.
Qed.

Lemma match_here_length s : (length (Re.match_here s).2 ≤ length s)%nat.
Proof. rewrite <- (match_here_app s) at 2. rewrite length_app. lia. Qed.

Lemma match_here_empty s :
  Re.is_empty_match (Re.match_here s).1 = true → (Re.match_here s).2 = s.
Proof.
  intros He. rewrite <- (match_here_app s) at 2.
  by rewrite (empty_match_nonempties _ He).
Qed.

Lemma match_here_empty_head c r :
  Re.is_empty_match (Re.match_here (c :: r)).1 = true →
  chunks (c :: r) = [c] :: chunks r.
Proof.
  unfold Re.match_here.
  pose proof (span_nil_head Re.is_word c r) as H1.
  pose proof (span_nil Re.is_word (c :: r)) as E1.
  destruct (Re.span Re.is_word (c :: r)) as [g1 s1]. cbn [fst snd] in *.
  destruct g1; [|by destruct (Re.span Re.is_sign s1) as [? s2],
                      (Re.span Re.is_mul s2) as [? s3], s3 as [|d ?];
                   [|destruct (Re.is_paren d)]].
  rewrite E1 by done.
  pose proof (span_nil_head Re.is_sign c r) as H2.
  pose proof (span_nil Re.is_sign (c :: r)) as E2.
  destruct (Re.span Re.is_sign (c :: r)) as [g2 s2]. cbn [fst snd] in *.
  destruct g2; [|by destruct (Re.span Re.is_mul s2) as [? s3], s3 as [|d ?];
                   [|destruct (Re.is_paren d)]].
  rewrite E2 by done.
  pose proof (span_nil_head Re.is_mul c r) as H3.
  destruct (Re.span Re.is_mul (c :: r)) as [g3 s3]. cbn [fst snd] in *.
  destruct g3; [|by destruct s3 as [|d ?]; [|destruct (Re.is_paren d)]].
  intros _. apply chunks_alone. destruct r; [done|].
  apply same_run_none; auto.
Qed.

(** The loop of [re.split] returns within the bound, and what it returns
    are the tokens. *)
Lemma split_loop_chunks (fuel : nat) (must_advance : bool) (s : list ascii) :
  (2 * length s + (if must_advance then 1 else 2) ≤ fuel)%nat →
  ∃ items, Re.split_loop fuel must_advance s = Some items ∧ nonempties items = chunks s.
Proof.
  revert must_advance s. induction fuel as [|fuel IH]; intros must_advance s Hfuel.
  { destruct must_advance; lia. }
  cbn [Re.split_loop].
  pose proof (match_here_chunks s) as Hch.
  pose proof (match_here_progress s) as Hprog.
  pose proof (match_here_empty s) as Hemp.
  destruct (Re.match_here s) as [groups rest] eqn:Hm. cbn [fst snd] in *.
  destruct (Re.is_empty_match groups) eqn:He; cbn [andb negb].
  - destruct must_advance; cbn [negb].
    + (* the empty match is refused *)
      destruct s as [|c s']; [by exists [Some []]|].
      assert (chunks (c :: s') = [c] :: chunks s') as Hc.
      { apply match_here_empty_head. by rewrite Hm. }
      pose proof (match_here_chunks s') as Hch'.
      pose proof (match_here_length s') as Hlen'.
      destruct (Re.match_here s') as [groups' rest']. cbn [fst snd] in *.
      destruct (IH (Re.is_empty_match groups') rest') as (items & -> & Hitems).
      { cbn [length] in Hfuel. destruct (Re.is_empty_match groups'); lia. }
      eexists. split; [done|].
      change (nonempties (Some [c] :: groups' ++ items))
        with ([c] :: nonempties (groups' ++ items)).
      by rewrite nonempties_app, Hitems, <- Hch', Hc.
    + rewrite Hemp by done.
      destruct (IH true s) as (items & -> & Hitems); [lia|].
      eexists. split; [done|].
      change (nonempties (Some [] :: groups ++ items)) with (nonempties (groups ++ items)).
      by rewrite nonempties_app, (empty_match_nonempties _ He).
  - destruct (IH false rest) as (items & -> & Hitems).
    { specialize (Hprog eq_refl). destruct must_advance; lia. }
    eexists. split; [done|].
    change (nonempties (Some [] :: groups ++ items)) with (nonempties (groups ++ items)).
    by rewrite nonempties_app, Hitems.
Qed.

Lemma truthy_nonempties items :
  truthy (map (option_map string_of_list_ascii) items) =
  map string_of_list_ascii (nonempties items).
Proof.
  induction items as [|[[|c r]|] items IH]; cbn; [done..| |done].
  f_equal. apply IH.
Qed.

(** [re.split] never runs out of turns, and the tokens of a line are the
    runs of its characters without the spaces. *)
Lemma split_tokens s :
  truthy (Re.split s) = map string_of_list_ascii (chunks (list_ascii_of_string s)).
Proof.
  unfold Re.split.
  destruct (split_loop_chunks (Re.enough (list_ascii_of_string s)) false
              (list_ascii_of_string s)) as (items & -> & <-).
  { unfold Re.enough. lia. }
  apply truthy_nonempties.
Qed.

Lemma get_infix_chunks expression :
  get_infix expression =
  fold_tokens (map string_of_list_ascii
                 (chunks (list_ascii_of_string (Py.remove_char " " expression)))).
Proof. unfold get_infix. by rewrite split_tokens. Qed.

(** ** Tokens of a line, piece by piece *)

Lemma chunks_app s1 s2 :
  (∀ c d, last s1 = Some c → head s2 = Some d → same_run c d = false) →
  chunks (s1 ++ s2) = chunks s1 ++ chunks s2.
Proof.
  induction s1 as [|c r IH]; [done|]. intros Hb.
  destruct r as [|c' r].
  - cbn [app]. destruct s2 as [|d s2]; [done|].
    rewrite chunks_alone; [done|]. by apply Hb.
  - assert (IH' : chunks ((c' :: r) ++ s2) = chunks (c' :: r) ++ chunks s2).
    { apply IH. intros x y Hx. apply Hb. by rewrite last_cons_cons. }
    destruct (chunks_cons c' r) as (t & ts & Hc').
    change (chunks ((c :: c' :: r) ++ s2)) with
      (match chunks ((c' :: r) ++ s2) with
       | (d :: t) :: ts =>
           if same_run c d then (c :: d :: t) :: ts else [c] :: (d :: t) :: ts
       | ts => [c] :: ts
       end).
    change (chunks (c :: c' :: r)) with
      (match chunks (c' :: r) with
       | (d :: t) :: ts =>
           if same_run c d then (c :: d :: t) :: ts else [c] :: (d :: t) :: ts
       | ts => [c] :: ts
       end).
    rewrite IH', Hc'. cbn. by destruct (same_run c c').
Qed.

Lemma span_all p s : forallb p s = true → Re.span p s = (s, []).
Proof.
  induction s as [|c r IH]; cbn; [done|].
  intros [-> Hr]%andb_true_iff. by rewrite IH.
Qed.

Lemma chunks_run p s :
  p = Re.is_word ∨ p = Re.is_sign ∨ p = Re.is_mul →
  s ≠ [] → forallb p s = true → chunks s = [s].
Proof.
  intros Hp Hne Hall. rewrite (chunks_span p s Hp), (span_all p s Hall).
  by destruct s.
Qed.

Lemma fold_tokens_app l1 l2 :
  fold_tokens (l1 ++ l2) =
  rbind (fold_tokens l1) (λ a, rbind (fold_tokens l2) (λ b, Ok (a ++ b))).
Proof.
  induction l1 as [|ch l1 IH]; cbn.
  - by destruct (fold_tokens l2).
  - destruct (fold_token ch); [|done..]. cbn. rewrite IH.
    destruct (fold_tokens l1); [|done..]. cbn.
    by destruct (fold_tokens l2).
Qed.

(** *** Strings and their characters *)

Lemma list_ascii_app (s1 s2 : string) :
  list_ascii_of_string (s1 +:+ s2) = list_ascii_of_string s1 ++ list_ascii_of_string s2.
Proof. induction s1 as [|c r IH]; simpl; [done|]. f_equal. exact IH. Qed.

Lemma all_chars_forallb p s :
  Py.all_chars p s = forallb p (list_ascii_of_string s).
Proof. induction s as [|c r IH]; cbn; [done|]. by rewrite IH. Qed.

Lemma ends_with_last p s :
  ends_with p s = match last (list_ascii_of_string s) with
                  | Some c => p c
                  | None => false
                  end.
Proof.
  induction s as [|c r IH]; [done|].
  destruct r as [|d r]; [done|].
  change (ends_with p (String c (String d r))) with (ends_with p (String d r)).
  rewrite IH. cbn [list_ascii_of_string]. by rewrite last_cons_cons.
Qed.

Lemma starts_with_head p s :
  starts_with p s = match head (list_ascii_of_string s) with
                    | Some c => p c
                    | None => false
                    end.
Proof. by destruct s. Qed.

Lemma str_in_char c d r :
  Py.str_in (String c "") (String d r) = Ascii.eqb c d || Py.str_in (String c "") r.
Proof.
  cbn. destruct (ascii_dec c d) as [->|Hne].
  - rewrite Ascii.eqb_refl. by destruct r.
  - by rewrite (proj2 (Ascii.eqb_neq c d) Hne).
Qed.

Lemma has_sign_cons d r : has_sign (String d r) = Re.is_sign d || has_sign r.
Proof.
  unfold has_sign, Re.is_sign. rewrite !str_in_char.
  rewrite (Ascii.eqb_sym "+" d), (Ascii.eqb_sym "-" d).
  destruct (Ascii.eqb d "+"), (Ascii.eqb d "-"), (Py.str_in "+" r), (Py.str_in "-" r); done.
Qed.

Lemma has_mul_cons d r : has_mul (String d r) = Re.is_mul d || has_mul r.
Proof.
  unfold has_mul, Re.is_mul. rewrite !str_in_char.
  rewrite (Ascii.eqb_sym "*" d), (Ascii.eqb_sym "/" d), (Ascii.eqb_sym "^" d).
  destruct (Ascii.eqb d "*"), (Ascii.eqb d "/"), (Ascii.eqb d "^"),
    (Py.str_in "*" r), (Py.str_in "/" r), (Py.str_in "^" r); done.
Qed.

Lemma has_mul_exists s : has_mul s = existsb Re.is_mul (list_ascii_of_string s).
Proof. induction s as [|d r IH]; [done|]. rewrite has_mul_cons, IH. done. Qed.

Lemma has_sign_exists s : has_sign s = existsb Re.is_sign (list_ascii_of_string s).
Proof. induction s as [|d r IH]; [done|]. rewrite has_sign_cons, IH. done. Qed.

Lemma remove_char_free c s :
  Py.all_chars (λ d, negb (Ascii.eqb d c)) (Py.remove_char c s) = true.
Proof.
  induction s as [|d r IH]; cbn; [done|].
  destruct (Ascii.eqb d c) eqn:Hd; [done|]. cbn. by rewrite Hd, IH.
Qed.

Lemma remove_char_none c s :
  Py.all_chars (λ d, negb (Ascii.eqb d c)) s = true → Py.remove_char c s = s.
Proof.
  induction s as [|d r IH]; cbn; [done|].
  intros [Hd Hr]%andb_true_iff. apply negb_true_iff in Hd. by rewrite Hd, IH.
Qed.

Lemma all_chars_app p (s1 s2 : string) :
  Py.all_chars p (s1 +:+ s2) = Py.all_chars p s1 && Py.all_chars p s2.
Proof.
  induction s1 as [|c r IH]; simpl; [done|].
  rewrite <- andb_assoc. f_equal. exact IH.
Qed.

Lemma string_of_list_ascii_inj_len l : Py.len (string_of_list_ascii l) = length l.
Proof. induction l as [|c l IH]; cbn; [done|]. unfold Py.len in IH. by rewrite IH. Qed.

(** ** Runs of signs *)

Lemma sign_cases d : Re.is_sign d = true → d = "+"%char ∨ d = "-"%char.
Proof.
  unfold Re.is_sign. intros [H|H]%orb_true_iff; apply Ascii.eqb_eq in H; auto.
Qed.

Lemma odd_mod2 n : (n mod 2 =? 1)%nat = Nat.odd n.
Proof. by rewrite <- Nat.bit0_eqb, Nat.bit0_odd. Qed.

Lemma fold_token_sign_run run :
  Py.nonempty run && Py.all_chars Re.is_sign run = true →
  fold_token run = Ok (folded_sign run).
Proof.
  intros [Hne Hall]%andb_true_iff. unfold fold_token.
  assert (has_mul run = false) as ->.
  { rewrite has_mul_exists. rewrite all_chars_forallb in Hall.
    induction (list_ascii_of_string run) as [|d l IH]; [done|]. cbn in Hall |- *.
    apply andb_true_iff in Hall as [Hd Hl]. rewrite IH by done.
    destruct (proj1 (proj2 (classes_disjoint d)) Hd) as (_ & -> & _). done. }
  cbn [andb]. destruct run as [|d r]; [done|].
  rewrite has_sign_cons. cbn in Hall. apply andb_true_iff in Hall as [Hd Hr].
  rewrite Hd. cbn [orb andb]. unfold folded_sign. rewrite odd_mod2.
  destruct r as [|d' r]; [|done]. cbn.
  by destruct (sign_cases d Hd) as [-> | ->].
Qed.

Lemma same_run_into_sign c d :
  Re.is_sign c = false → Re.is_sign d = true → same_run c d = false.
Proof.
  intros Hc Hd. unfold same_run. rewrite Hc, Hd.
  destruct (proj1 (proj2 (classes_disjoint d)) Hd) as (-> & -> & _).
  by rewrite !andb_false_r.
Qed.

(** C3: a maximal run of [+] and [-] in the line (spaces removed) becomes
    one token, [-] when the run has an odd number of [-] and [+]
    otherwise, between the tokens of what stands before and after it; a
    lone sign is that token itself.  So [1+-2] prints -1 and [1--2]
    prints 3. *)
Theorem C3_sign_runs_fold (expression pre run post : string)
    (Hline : Py.remove_char " " expression = pre +:+ run +:+ post)
    (Hrun : Py.nonempty run && Py.all_chars Re.is_sign run = true)
    (Hpre : ends_with Re.is_sign pre = false)
    (Hpost : starts_with Re.is_sign post = false) :
  get_infix expression =
    rbind (get_infix pre) (λ before,
    rbind (get_infix post) (λ after,
      Ok (before ++ [folded_sign run] ++ after))) ∧
  folded_sign "+" = "+" ∧ folded_sign "-" = "-" ∧
  get_infix "1+-2" = Ok ["1"; "-"; "2"] ∧ prints ["1+-2"] = [Text "-1"] ∧
  get_infix "1--2" = Ok ["1"; "+"; "2"] ∧ prints ["1--2"] = [Text "3"].
Proof.
  split; [|by vm_compute].
  pose proof (remove_char_free " " expression) as Hfree.
  rewrite Hline, !all_chars_app in Hfree.
  apply andb_true_iff in Hfree as [Hfpre [_ Hfpost]%andb_true_iff].
  rewrite !get_infix_chunks, Hline.
  rewrite (remove_char_none " " pre), (remove_char_none " " post) by done.
  rewrite !list_ascii_app.
  pose proof Hrun as [Hne Hall]%andb_true_iff.
  rewrite all_chars_forallb in Hall.
  rewrite ends_with_last in Hpre. rewrite starts_with_head in Hpost.
  assert (Hrl : list_ascii_of_string run ≠ []) by (by destruct run).
  rewrite chunks_app.
  2:{ intros c d Hc Hd. rewrite Hc in Hpre.
      apply same_run_into_sign; [done|].
      destruct (list_ascii_of_string run) as [|x l]; [done|].
      cbn in Hd, Hall. apply andb_true_iff in Hall as [? _]. by simplify_eq. }
  rewrite chunks_app.
  2:{ intros c d Hc Hd. rewrite Hd in Hpost.
      rewrite (same_run_class Re.is_sign); [done|auto|].
      apply last_Some_elem_of in Hc.
      rewrite forallb_forall in Hall. apply Hall. by apply list_elem_of_In. }
  rewrite (chunks_run Re.is_sign (list_ascii_of_string run)); [|auto|done|done].
  rewrite !map_app, !fold_tokens_app. cbn [map fold_tokens].
  rewrite string_of_list_ascii_of_string, (fold_token_sign_run run Hrun).
  cbn [rbind].
  destruct (fold_tokens (map string_of_list_ascii (chunks (list_ascii_of_string pre))));
    [|done..].
  cbn [rbind].
  by destruct (fold_tokens (map string_of_list_ascii (chunks (list_ascii_of_string post)))).
Qed.

Lemma C3_sign_runs_fold_witness :
  get_infix "1 +-+- - (2)" =
    rbind (get_infix "1") (λ before,
    rbind (get_infix "(2)") (λ after,
      Ok (before ++ [folded_sign "+-+--"] ++ after))) ∧
  folded_sign "+" = "+" ∧ folded_sign "-" = "-" ∧
  get_infix "1+-2" = Ok ["1"; "-"; "2"] ∧ prints ["1+-2"] = [Text "-1"] ∧
  get_infix "1--2" = Ok ["1"; "+"; "2"] ∧ prints ["1--2"] = [Text "3"].
Proof.
  apply (C3_sign_runs_fold "1 +-+- - (2)" "1" "+-+--" "(2)"); reflexivity.
Defined.

(** ** Adjacent [*], [/] and [^] *)

Lemma fold_tokens_raise l t :
  t ∈ l → fold_token t = Raise InvalidExpressionError →
  fold_tokens l = Raise InvalidExpressionError.
Proof.
  intros Hin Ht. induction l as [|ch l IH]; [by apply elem_of_nil in Hin|].
  cbn. destruct (fold_token ch) as [ch'|e|] eqn:Hch; cbn.
  - apply elem_of_cons in Hin as [->|Hin]; [congruence|].
    by rewrite IH.
  - by rewrite (fold_token_raises _ _ Hch).
  - by apply fold_token_integer in Hch.
Qed.

Lemma chunks_adjacent_mul pre a b post :
  Re.is_mul a = true → Re.is_mul b = true →
  ∃ t, t ∈ chunks (pre ++ a :: b :: post) ∧ (2 ≤ length t)%nat ∧
       existsb Re.is_mul t = true.
Proof.
  intros Ha Hb. induction pre as [|c pre IH].
  - destruct (chunks_cons b post) as (t & ts & Hc).
    exists (a :: b :: t). cbn [app].
    rewrite (chunks_join a b post t ts); [|by rewrite (same_run_class Re.is_mul); auto|done].
    split; [apply list_elem_of_here|]. split; [cbn; lia|]. cbn. by rewrite Ha.
  - destruct IH as (t0 & Hin & Hlen & Hmul).
    cbn [app chunks].
    destruct (chunks (pre ++ a :: b :: post)) as [|[|d t] ts].
    + by apply elem_of_nil in Hin.
    + exists t0. split; [by apply list_elem_of_further|done].
    + destruct (same_run c d).
      * apply elem_of_cons in Hin as [->|Hin].
        -- exists (c :: d :: t). split; [apply list_elem_of_here|].
           split; [cbn; lia|]. cbn in Hmul |- *. rewrite Hmul. by rewrite orb_true_r.
        -- exists t0. split; [by apply list_elem_of_further|done].
      * exists t0. split; [by apply list_elem_of_further|done].
Qed.

(** C5: two adjacent characters among [*], [/], [^] in the line (spaces
    removed) make the tokeniser fail with InvalidExpression, as does any
    token of more than one character that has one of them; so [1**2] and
    [1//2] fail with InvalidExpression. *)
Theorem C5_adjacent_mul_rejected (expression pre post : string) (a b : ascii)
    (Hline : Py.remove_char " " expression = pre +:+ String a (String b post))
    (Ha : Re.is_mul a = true) (Hb : Re.is_mul b = true) :
  get_infix expression = Raise InvalidExpressionError ∧
  (∀ tokens ch, ch ∈ tokens → has_mul ch = true → (1 < Py.len ch)%nat →
     fold_tokens tokens = Raise InvalidExpressionError) ∧
  get_infix "1**2" = Raise InvalidExpressionError ∧
  get_infix "1//2" = Raise InvalidExpressionError ∧
  prints ["1**2"] = [Text "Invalid expression"] ∧
  prints ["1//2"] = [Text "Invalid expression"].
Proof.
  assert (Htok : ∀ tokens ch, ch ∈ tokens → has_mul ch = true → (1 < Py.len ch)%nat →
     fold_tokens tokens = Raise InvalidExpressionError).
  { intros tokens ch Hin Hmul Hlen. apply (fold_tokens_raise tokens ch Hin).
    unfold fold_token. rewrite Hmul. by rewrite (proj2 (Nat.ltb_lt _ _) Hlen). }
  split; [|split; [done|by vm_compute]].
  rewrite get_infix_chunks, Hline, list_ascii_app. cbn [list_ascii_of_string].
  destruct (chunks_adjacent_mul (list_ascii_of_string pre) a b
              (list_ascii_of_string post) Ha Hb) as (t & Hin & Hlen & Hmul).
  apply (Htok _ (string_of_list_ascii t)).
  - by apply list_elem_of_fmap_2.
  - by rewrite has_mul_exists, list_ascii_of_string_of_list_ascii.
  - rewrite string_of_list_ascii_inj_len. lia.
Qed.

Lemma C5_adjacent_mul_rejected_witness :
  get_infix "(a + 1) ^/ 2" = Raise InvalidExpressionError ∧
  (∀ tokens ch, ch ∈ tokens → has_mul ch = true → (1 < Py.len ch)%nat →
     fold_tokens tokens = Raise InvalidExpressionError) ∧
  get_infix "1**2" = Raise InvalidExpressionError ∧
  get_infix "1//2" = Raise InvalidExpressionError ∧
  prints ["1**2"] = [Text "Invalid expression"] ∧
  prints ["1//2"] = [Text "Invalid expression"].
Proof.
  apply (C5_adjacent_mul_rejected "(a + 1) ^/ 2" "(a+1)" "2" "^" "/"); reflexivity.
Defined.

(** ** Unmatched parentheses *)

Lemma not_elem_of_snoc (x y : string) l : x ∉ l → x ≠ y → x ∉ l ++ [y].
Proof. intros Hl Hy. rewrite elem_of_app, list_elem_of_singleton. tauto. Qed.

Lemma opens_zero stack : opens stack = 0%nat ↔ "(" ∉ stack.
Proof.
  induction stack as [|t below IH]; cbn.
  - split; [intros _; apply not_elem_of_nil|done].
  - rewrite not_elem_of_cons. destruct (String.eqb_spec t "(") as [->|Hne].
    + split; [done|]. by intros [? _].
    + rewrite IH. split; [by intros ?; split|by intros [_ ?]].
Qed.

Lemma stack_ok_cons t below :
  stack_ok (t :: below) = (is_operator t || String.eqb t "(") && stack_ok below.
Proof. done. Qed.

Lemma opens_cons t below :
  opens (t :: below) = ((if String.eqb t "(" then 1 else 0) + opens below)%nat.
Proof. done. Qed.

(** Popping for a [)]: everything above the first [(] goes to the
    output, and with no [(] the stack is emptied. *)
Lemma pop_to_paren_none stack postfix :
  "(" ∉ stack → (pop_to_paren stack postfix).1 = [].
Proof.
  revert postfix. induction stack as [|t below IH]; intros postfix; cbn; [done|].
  rewrite not_elem_of_cons. intros [Hne Hb].
  destruct (String.eqb_spec t "(") as [->|_]; [done|]. by apply IH.
Qed.

Lemma pop_to_paren_some stack postfix :
  stack_ok stack = true → "(" ∉ postfix → "(" ∈ stack →
  ∃ below postfix',
    pop_to_paren stack postfix = ("(" :: below, postfix') ∧
    stack_ok below = true ∧ S (opens below) = opens stack ∧ "(" ∉ postfix'.
Proof.
  revert postfix. induction stack as [|t below IH]; intros postfix Hok Hpf Hin.
  { by apply elem_of_nil in Hin. }
  cbn in Hok |- *. apply andb_true_iff in Hok as [Ht Hok].
  destruct (String.eqb_spec t "(") as [->|Hne].
  - exists below, postfix. done.
  - apply elem_of_cons in Hin as [?|Hin]; [done|].
    destruct (IH (postfix ++ [t])) as (b & pf & -> & ? & ? & ?); try done.
    { by apply not_elem_of_snoc. }
    by exists b, pf.
Qed.

Lemma operator_priority ch :
  is_operator ch = true → ∃ p, priority_of ch = Ok (S p).
Proof.
  intros H. destruct (operator_cases ch H) as [->|[->|[->|[->| ->]]]];
    by eexists.
Qed.

Lemma operator_not_paren ch :
  is_operator ch = true →
  Py.isalnum ch = false ∧ String.eqb ch "(" = false ∧ String.eqb ch ")" = false.
Proof.
  intros H. by destruct (operator_cases ch H) as [->|[->|[->|[->| ->]]]].
Qed.

Lemma stack_top_priority t :
  is_operator t || String.eqb t "(" = true →
  ∃ q, priority_of t = Ok q ∧ (q = 0%nat ↔ t = "(").
Proof.
  intros [H|H]%orb_true_iff.
  - destruct (operator_cases t H) as [->|[->|[->|[->| ->]]]];
      eexists; (split; [done|split; done]).
  - apply String.eqb_eq in H as ->. by exists 0%nat.
Qed.

Lemma pop_not_lower_known ch stack postfix :
  is_operator ch = true → stack_ok stack = true → "(" ∉ postfix →
  ∃ stack' postfix',
    pop_not_lower ch stack postfix = Ok (stack', postfix') ∧
    stack_ok stack' = true ∧ opens stack' = opens stack ∧ "(" ∉ postfix'.
Proof.
  intros Hch. destruct (operator_priority ch Hch) as [p Hp].
  revert postfix. induction stack as [|t below IH]; intros postfix Hok Hpf.
  { by exists [], postfix. }
  cbn in Hok. apply andb_true_iff in Hok as [Ht Hok].
  destruct (stack_top_priority t Ht) as (q & Hq & Hq0).
  cbn [pop_not_lower]. rewrite Hp, Hq. cbn [rbind].
  destruct (Nat.leb_spec (S p) q) as [Hle|Hgt].
  - assert (t ≠ "(") as Hne by (intros ?; assert (q = 0%nat) by tauto; lia).
    destruct (IH (postfix ++ [t])) as (st' & pf' & -> & ? & ? & ?); try done.
    { by apply not_elem_of_snoc. }
    exists st', pf'. split; [done|]. split; [done|]. split; [|done].
    cbn. by rewrite (proj2 (String.eqb_neq t "(") Hne).
  - exists (t :: below), postfix. split; [done|]. split; [|done].
    cbn. by rewrite Ht, Hok.
Qed.

(** One token of a known kind keeps the stack in shape and moves the
    count of open parentheses as [depth] does. *)
Lemma convert_token_known ch stack postfix :
  known ch = true → stack_ok stack = true → "(" ∉ postfix →
  match depth [ch] (opens stack) with
  | None => convert_token ch stack postfix = Raise InvalidExpressionError
  | Some k =>
      ∃ stack' postfix',
        convert_token ch stack postfix = Ok (stack', postfix') ∧
        stack_ok stack' = true ∧ opens stack' = k ∧ "(" ∉ postfix'
  end.
Proof.
  intros Hk Hok Hpf. unfold convert_token. cbn [depth].
  destruct (Py.isalnum ch) eqn:Hal.
  { assert (String.eqb ch "(" = false) as -> by (by destruct (String.eqb_spec ch "(") as [->|]).
    assert (String.eqb ch ")" = false) as -> by (by destruct (String.eqb_spec ch ")") as [->|]).
    eexists _, _. split; [done|]. split; [done|]. split; [done|].
    apply not_elem_of_snoc; [done|]. intros <-. done. }
  destruct (String.eqb_spec ch "(") as [->|Hno].
  { eexists _, _. split; [done|]. split; [done|]. done. }
  destruct (String.eqb_spec ch ")") as [->|Hnc].
  { destruct (opens stack) as [|k] eqn:Hopen.
    - apply opens_zero in Hopen.
      pose proof (pop_to_paren_none stack postfix Hopen) as Hnone.
      destruct (pop_to_paren stack postfix) as [st pf]. cbn in Hnone. by subst st.
    - assert ("(" ∈ stack) as Hin.
      { destruct (decide ("(" ∈ stack)) as [?|Hn]; [done|].
        apply opens_zero in Hn. lia. }
      destruct (pop_to_paren_some stack postfix Hok Hpf Hin) as (b & pf & -> & ? & ? & ?).
      exists b, pf. split; [done|]. split; [done|]. split; [lia|done]. }
  assert (is_operator ch = true) as Hop.
  { unfold known in Hk. rewrite Hal in Hk.
    rewrite (proj2 (String.eqb_neq ch "(") Hno), (proj2 (String.eqb_neq ch ")") Hnc) in Hk.
    by rewrite !orb_false_r in Hk. }
  destruct stack as [|t below].
  { eexists _, _. split; [done|]. cbn. rewrite Hop.
    by rewrite (proj2 (String.eqb_neq ch "(") Hno). }
  destruct (operator_priority ch Hop) as [p Hp].
  pose proof Hok as Hok'. cbn in Hok'. apply andb_true_iff in Hok' as [Ht _].
  destruct (stack_top_priority t Ht) as (q & Hq & _).
  rewrite Hp, Hq. cbn [rbind].
  destruct (q <? S p)%nat.
  - eexists _, _. split; [done|]. split; [|split; [|done]].
    + by rewrite stack_ok_cons, Hop, Hok.
    + by rewrite opens_cons, (proj2 (String.eqb_neq ch "(") Hno).
  - destruct (pop_not_lower_known ch (t :: below) postfix Hop Hok Hpf)
      as (st' & pf' & -> & Hok1 & Hop1 & Hpf1).
    cbn [rbind]. exists (ch :: st'), pf'. split; [done|]. split; [|split; [|done]].
    + by rewrite stack_ok_cons, Hop, Hok1.
    + by rewrite opens_cons, (proj2 (String.eqb_neq ch "(") Hno), Hop1.
Qed.

Lemma depth_cons ch rest opened :
  depth (ch :: rest) opened =
  match depth [ch] opened with
  | Some k => depth rest k
  | None => None
  end.
Proof.
  cbn. destruct (String.eqb ch "("); [done|].
  destruct (String.eqb ch ")"); [by destruct opened|done].
Qed.

Lemma convert_tokens_known infix stack postfix :
  forallb known infix = true → stack_ok stack = true → "(" ∉ postfix →
  match depth infix (opens stack) with
  | None => convert_tokens infix stack postfix = Raise InvalidExpressionError
  | Some k =>
      ∃ stack' postfix',
        convert_tokens infix stack postfix = Ok (stack', postfix') ∧
        stack_ok stack' = true ∧ opens stack' = k ∧ "(" ∉ postfix'
  end.
Proof.
  revert stack postfix. induction infix as [|ch rest IH]; intros stack postfix Hk Hok Hpf.
  { by exists stack, postfix. }
  cbn in Hk. apply andb_true_iff in Hk as [Hch Hrest].
  rewrite depth_cons. cbn [convert_tokens].
  pose proof (convert_token_known ch stack postfix Hch Hok Hpf) as Hone.
  destruct (depth [ch] (opens stack)) as [k|].
  - destruct Hone as (st' & pf' & -> & Hok' & <- & Hpf'). cbn [rbind].
    by apply IH.
  - by rewrite Hone.
Qed.

(** On known tokens the converter fails with InvalidExpression exactly
    when the parentheses do not match, and returns otherwise. *)
Lemma infix_to_postfix_known infix :
  forallb known infix = true →
  if balanced infix then ∃ postfix, infix_to_postfix infix = Ok postfix
  else infix_to_postfix infix = Raise InvalidExpressionError.
Proof.
  intros Hk. unfold infix_to_postfix, balanced.
  pose proof (convert_tokens_known infix [] [] Hk eq_refl (not_elem_of_nil _)) as H.
  cbn [opens] in H.
  destruct (depth infix 0) as [k|]; [|by rewrite H].
  destruct H as (st & pf & -> & Hok & Hopen & Hpf). cbn [rbind].
  destruct k as [|k].
  - apply opens_zero in Hopen. rewrite bool_decide_eq_false_2; [by eexists|].
    rewrite elem_of_app. tauto.
  - rewrite bool_decide_eq_true_2; [done|].
    rewrite elem_of_app. right.
    destruct (decide ("(" ∈ st)) as [?|Hn]; [done|]. apply opens_zero in Hn. lia.
Qed.

(** C4: both kinds of unmatched parenthesis fail with InvalidExpression.
    A [)] met when the stack has no [(] fails at once; a [(] left in the
    output after the stack was emptied into it fails at the end; and on
    operands, operators and parentheses the converter fails whenever the
    parentheses do not match.  So [(1+2] and [1+2)] fail with
    InvalidExpression. *)
Theorem C4_unmatched_parentheses (infix : list string)
    (Hknown : forallb known infix = true)
    (Hunmatched : balanced infix = false) :
  infix_to_postfix infix = Raise InvalidExpressionError ∧
  (∀ stack postfix rest, "(" ∉ stack →
     convert_token ")" stack postfix = Raise InvalidExpressionError ∧
     convert_tokens (")" :: rest) stack postfix = Raise InvalidExpressionError) ∧
  (∀ tokens stack postfix,
     convert_tokens tokens [] [] = Ok (stack, postfix) → "(" ∈ postfix ++ stack →
     infix_to_postfix tokens = Raise InvalidExpressionError) ∧
  get_infix "(1+2" = Ok ["("; "1"; "+"; "2"] ∧
  get_infix "1+2)" = Ok ["1"; "+"; "2"; ")"] ∧
  prints ["(1+2"] = [Text "Invalid expression"] ∧
  prints ["1+2)"] = [Text "Invalid expression"].
Proof.
  split; [|split; [|split]].
  - pose proof (infix_to_postfix_known infix Hknown) as H. by rewrite Hunmatched in H.
  - intros stack postfix rest Hno.
    assert (convert_token ")" stack postfix = Raise InvalidExpressionError) as Hc.
    { unfold convert_token. cbn.
      pose proof (pop_to_paren_none stack postfix Hno) as Hnone.
      destruct (pop_to_paren stack postfix) as [st pf]. cbn in Hnone. by subst st. }
    split; [done|]. cbn [convert_tokens]. by rewrite Hc.
  - intros tokens stack postfix Hc Hin. unfold infix_to_postfix. rewrite Hc. cbn [rbind].
    by rewrite bool_decide_eq_true_2.
  - by vm_compute.
Qed.

Lemma C4_unmatched_parentheses_witness :
  infix_to_postfix ["("; "1"; "+"; "2"] = Raise InvalidExpressionError ∧
  infix_to_postfix ["1"; "+"; "2"; ")"] = Raise InvalidExpressionError.
Proof.
  split.
  - apply (C4_unmatched_parentheses ["("; "1"; "+"; "2"]); reflexivity.
  - apply (C4_unmatched_parentheses ["1"; "+"; "2"; ")"]); reflexivity.
Defined.

(** * Further properties of the loop and its handlers *)

(** ** What a line can do to the state and to the output *)

Lemma process_line_assigns line self out :
  variables (process_line line self out).1.2 = variables self ∨
  ∃ name z, Py.isalpha name = true ∧
            classify (Py.strip line) = ToVariable ∧
            variables (process_line line self out).1.2 =
            <[name := Py.str z]> (variables self).
Proof.
  unfold process_line.
  destruct (classify (Py.strip line)) eqn:Hc; [by left| | |].
  - left. unfold try_except. rewrite handle_command_unfold.
    repeat case_match; simplify_eq; done.
  - unfold try_except. rewrite handle_variable_unfold.
    repeat case_match; simplify_eq; cbn; eauto 8.
  - left. unfold try_except. rewrite handle_expression_unfold.
    repeat case_match; simplify_eq; done.
Qed.

Lemma process_line_total line self out :
  total (process_line line self out).1.2 = total self ∨
  total (process_line line self out).1.2 = 0.
Proof.
  unfold process_line.
  destruct (classify (Py.strip line)); [by left| | |].
  - left. unfold try_except. rewrite handle_command_unfold.
    repeat case_match; simplify_eq; done.
  - left. unfold try_except. rewrite handle_variable_unfold.
    repeat case_match; simplify_eq; done.
  - unfold try_except. rewrite handle_expression_unfold.
    repeat case_match; simplify_eq; cbn; auto.
Qed.

Lemma in_session_reachable self : in_session self → reachable self.
Proof.
  induction 1 as [|self line self' now _ IH _ _ Hstep _]; [apply reachable_init|].
  by eapply reachable_line.
Qed.

(** X1: whenever the loop reads a line the last result is 0: a line that
    prints its result resets it before the loop goes on, and no other
    line assigns it. *)
Theorem X1_total_is_zero_between_lines (self : Calculator) (Hsession : in_session self) :
  total self = 0.
Proof.
  induction Hsession as [|self line self' now _ IH _ _ Hstep _]; [done|].
  pose proof (process_line_total line self []) as Ht.
  rewrite Hstep in Ht. cbn in Ht. destruct Ht; congruence.
Qed.

Lemma X1_total_is_zero_between_lines_witness :
  total (process_line "x * 7" (process_line "x = 3" init []).1.2 []).1.2 = 0.
Proof.
  apply X1_total_is_zero_between_lines.
  eapply (session_line _ "x * 7");
    [eapply (session_line init "x = 3"); [apply session_init|reflexivity|cbn; lia| |]
    |reflexivity|cbn; lia| |];
    by vm_compute.
Defined.

Lemma reachable_names self name value :
  reachable self → variables self !! name = Some value → Py.isalpha name = true.
Proof.
  intros Hreach. revert name value.
  induction Hreach as [|self line out r self' out' _ IH Hstep]; intros name value Hin.
  { cbn in Hin. by rewrite lookup_empty in Hin. }
  pose proof (process_line_assigns line self out) as Hv.
  rewrite Hstep in Hv. cbn in Hv.
  destruct Hv as [Hv|(n & z & Hn & _ & Hv)]; rewrite Hv in Hin; [by eapply IH|].
  destruct (decide (n = name)) as [<-|Hne]; [done|].
  rewrite lookup_insert_ne in Hin by done. by eapply IH.
Qed.

(** X2: in a session whose lines are ASCII, every name in the variables
    table is alphabetic, whenever the loop reads a line: on ASCII text
    [isalpha] accepts the letters [A] to [Z] and [a] to [z] only. *)
Theorem X2_variable_names_alphabetic (self : Calculator) (name value : string)
    (Hsession : in_session self) (Hin : variables self !! name = Some value) :
  Py.isalpha name = true.
Proof. eapply reachable_names; [by apply in_session_reachable|done]. Qed.

Lemma X2_variable_names_alphabetic_witness : Py.isalpha "count" = true.
Proof.
  apply (X2_variable_names_alphabetic
           (process_line " count = -12 " init []).1.2 "count" "-12").
  - eapply (session_line init " count = -12 ");
      [apply session_init|reflexivity|cbn; lia| |]; by vm_compute.
  - reflexivity.
Defined.

(** X3: only an assignment changes the variables table: a line that is
    not routed to [handle_variable] leaves it as it was, and a line that
    is changes at most the value of one alphabetic name, to the text of an
    integer. *)
Theorem X3_only_assignment_changes_variables
    (line : string) (self : Calculator) (out : list printed)
    (Hchanged : variables (process_line line self out).1.2 ≠ variables self) :
  classify (Py.strip line) = ToVariable ∧
  ∃ name z, Py.isalpha name = true ∧
    variables (process_line line self out).1.2 !! name = Some (Py.str z) ∧
    ∀ other, other ≠ name →
      variables (process_line line self out).1.2 !! other = variables self !! other.
Proof.
  destruct (process_line_assigns line self out) as [?|(name & z & Hn & Hc & Hv)]; [done|].
  split; [done|]. exists name, z. split; [done|]. rewrite Hv. split.
  - apply lookup_insert_eq.
  - intros other Hne. by apply lookup_insert_ne.
Qed.

Lemma X3_only_assignment_changes_variables_witness :
  classify (Py.strip "n = 4") = ToVariable ∧
  ∃ name z, Py.isalpha name = true ∧
    variables (process_line "n = 4" init []).1.2 !! name = Some (Py.str z) ∧
    ∀ other, other ≠ name →
      variables (process_line "n = 4" init []).1.2 !! other = variables init !! other.
Proof.
  apply (X3_only_assignment_changes_variables "n = 4" init []).
  intros H. apply (f_equal (λ m, m !! "n")) in H. vm_compute in H. discriminate H.
Defined.

(** X4: a line prints at most once, whatever it is and however its
    processing ends; what was printed before stays. *)
Theorem X4_one_print_per_line
    (line : string) (self : Calculator) (out : list printed) :
  (process_line line self out).2 = out ∨
  ∃ p, (process_line line self out).2 = out ++ [p].
Proof.
  unfold process_line.
  destruct (classify (Py.strip line)); [by left| | |].
  - unfold try_except. rewrite handle_command_unfold.
    repeat case_match; simplify_eq; cbn; eauto.
  - unfold try_except. rewrite handle_variable_unfold.
    repeat case_match; simplify_eq; cbn; eauto.
  - unfold try_except. rewrite handle_expression_unfold.
    repeat case_match; simplify_eq; cbn; eauto.
Qed.

Lemma split_nonempty c s : Py.split c s ≠ [].
Proof.
  destruct s as [|d r]; cbn; [done|].
  destruct (Ascii.eqb d c); [done|]. by destruct (Py.split c r).
Qed.

(** X5: a command line or a variable line never ends the loop with an
    exception: [process_line] returns, and it says [Break] only for
    [/exit]; neither touches the last result or the postfix sequence. *)
Theorem X5_commands_and_variables_never_raise
    (line : string) (self : Calculator) (out : list printed)
    (Hroute : classify (Py.strip line) ≠ ToExpression) :
  ∃ f, (process_line line self out).1.1 = Ok f ∧
       (f = Break ↔ Py.strip line = "/exit") ∧
       total (process_line line self out).1.2 = total self ∧
       postfix (process_line line self out).1.2 = postfix self.
Proof.
  unfold process_line. revert Hroute. unfold classify.
  destruct (String.eqb_spec (Py.strip line) "") as [He|He].
  { intros _. exists Continue. rewrite He. done. }
  destruct (first_char_is "/" (Py.strip line)) eqn:Hs.
  { intros _. unfold try_except. rewrite handle_command_unfold.
    destruct (String.eqb_spec (Py.strip line) "/exit") as [Hx|Hx].
    - exists Break. done.
    - destruct (String.eqb (Py.strip line) "/help"); exists Continue; done. }
  destruct (Py.str_in "=" (Py.strip line) || Py.isalpha (Py.strip line)); [|done].
  intros _. exists Continue.
  assert (Py.strip line ≠ "/exit") as Hx by (intros Hx; by rewrite Hx in Hs).
  pose proof (split_nonempty "=" (Py.strip line)) as Hsplit.
  unfold try_except. rewrite handle_variable_unfold.
  repeat case_match; simplify_eq; cbn; done.
Qed.

Lemma X5_commands_and_variables_never_raise_witness :
  ∃ f, (process_line "1x = = 5" init []).1.1 = Ok f ∧
       (f = Break ↔ Py.strip "1x = = 5" = "/exit") ∧
       total (process_line "1x = = 5" init []).1.2 = total init ∧
       postfix (process_line "1x = = 5" init []).1.2 = postfix init.
Proof.
  apply (X5_commands_and_variables_never_raise "1x = = 5" init []).
  vm_compute. discriminate.
Defined.

(** ** The same expression twice, and the end of the loop *)

(** X6: evaluating an expression line again, in the state it left, ends
    the same way and prints the same; the variables are untouched. *)
Theorem X6_expression_twice
    (line : string) (self : Calculator) (out out2 : list printed)
    (Hroute : classify (Py.strip line) = ToExpression) :
  ∃ now,
    (process_line line self out).2 = out ++ now ∧
    (process_line line (process_line line self out).1.2 out2).1.1 =
      (process_line line self out).1.1 ∧
    (process_line line (process_line line self out).1.2 out2).2 = out2 ++ now ∧
    variables (process_line line self out).1.2 = variables self.
Proof.
  unfold process_line. rewrite Hroute. unfold try_except.
  rewrite !handle_expression_unfold.
  destruct (get_infix (Py.strip line)) as [infix|e|].
  - destruct (infix_to_postfix infix) as [p|e|].
    + destruct (eval_tokens (variables self) p []) as [[|v st]|e|] eqn:He.
      * exists []. cbn. rewrite He. by rewrite !app_nil_r.
      * exists [Text (Py.str v)]. cbn. by rewrite He.
      * destruct e as [e| | | | |];
          [destruct (bool_decide (e ∈ [InvalidExpressionError; UnknownVariableError])) eqn:Hd|..].
        -- exists [Text (message e)]. cbn. rewrite He, Hd. done.
        -- exists []. cbn. rewrite He, Hd. by rewrite !app_nil_r.
        -- exists []. cbn. rewrite He. by rewrite !app_nil_r.
        -- exists []. cbn. rewrite He. by rewrite !app_nil_r.
        -- exists []. cbn. rewrite He. by rewrite !app_nil_r.
        -- exists []. cbn. rewrite He. by rewrite !app_nil_r.
        -- exists []. cbn. rewrite He. by rewrite !app_nil_r.
      * exists []. cbn. rewrite He. by rewrite !app_nil_r.
    + destruct e as [e| | | | |];
        [destruct (bool_decide (e ∈ [InvalidExpressionError; UnknownVariableError])) eqn:Hd|..];
        first [by exists [Text (message e)]; cbn; rewrite ?Hd
              |by exists []; cbn; rewrite ?Hd, !app_nil_r].
    + exists []. cbn. by rewrite !app_nil_r.
  - destruct e as [e| | | | |];
      [destruct (bool_decide (e ∈ [InvalidExpressionError; UnknownVariableError])) eqn:Hd|..];
      first [by exists [Text (message e)]; cbn; rewrite ?Hd
            |by exists []; cbn; rewrite ?Hd, !app_nil_r].
  - exists []. cbn. by rewrite !app_nil_r.
Qed.

Lemma X6_expression_twice_witness :
  ∃ now,
    (process_line "2 * (3 + 4)" init []).2 = [] ++ now ∧
    (process_line "2 * (3 + 4)" (process_line "2 * (3 + 4)" init []).1.2 [Doc]).1.1 =
      (process_line "2 * (3 + 4)" init []).1.1 ∧
    (process_line "2 * (3 + 4)" (process_line "2 * (3 + 4)" init []).1.2 [Doc]).2 =
      [Doc] ++ now ∧
    variables (process_line "2 * (3 + 4)" init []).1.2 = variables init.
Proof. apply (X6_expression_twice "2 * (3 + 4)" init [] [Doc]). reflexivity. Defined.

(** X7: the loop ends at [/exit], whatever spaces surround it: it prints
    the farewell, changes nothing, and the lines after it are never
    read. *)
Theorem X7_exit_ends_the_loop
    (before rest : list string) (line : string) (self : Calculator)
    (out : list printed)
    (Hexit : Py.strip line = "/exit") :
  process_line line self out = (Ok Break, self, out ++ [Text "Bye!"]) ∧
  start_calculator (line :: rest) self out = (Ok tt, self, out ++ [Text "Bye!"]) ∧
  start_calculator (before ++ line :: rest) self out =
  start_calculator (before ++ [line]) self out.
Proof.
  assert (Hline : ∀ s o, process_line line s o = (Ok Break, s, o ++ [Text "Bye!"])).
  { intros s o. unfold process_line. rewrite Hexit. done. }
  assert (Hstop : ∀ tail s o,
            start_calculator (line :: tail) s o = (Ok tt, s, o ++ [Text "Bye!"])).
  { intros tail s o. cbn [start_calculator]. unfold bind. by rewrite Hline. }
  split; [done|]. split; [done|].
  revert self out. induction before as [|l before IH]; intros self out.
  - cbn [app]. by rewrite !Hstop.
  - cbn [app start_calculator]. unfold bind.
    destruct (process_line l self out) as [[[[|]| |] s] o]; first [done|apply IH].
Qed.

Lemma X7_exit_ends_the_loop_witness :
  process_line "  /exit " init [] = (Ok Break, init, [] ++ [Text "Bye!"]) ∧
  start_calculator ["  /exit "; "1/0"] init [] = (Ok tt, init, [] ++ [Text "Bye!"]) ∧
  start_calculator (["1+1"] ++ "  /exit " :: ["1/0"]) init [] =
  start_calculator (["1+1"] ++ ["  /exit "]) init [].
Proof. apply (X7_exit_ends_the_loop ["1+1"] ["1/0"] "  /exit " init []). reflexivity. Defined.

(** ** Strings at their ends *)

Lemma lstrip_none p s : starts_with p s = false → Py.lstrip p s = s.
Proof. destruct s as [|c r]; cbn; [done|]. by intros ->. Qed.

Lemma rstrip_cons p c r :
  Py.rstrip p (String c r) =
  match Py.rstrip p r with
  | EmptyString => if p c then EmptyString else String c EmptyString
  | r' => String c r'
  end.
Proof. done. Qed.

Lemma rstrip_all p s : Py.all_chars p s = true → Py.rstrip p s = "".
Proof.
  induction s as [|x b IH]; [done|]. rewrite rstrip_cons. cbn.
  intros [-> Hb]%andb_true_iff. by rewrite IH.
Qed.

Lemma rstrip_end p s : ends_with p s = false → Py.rstrip p s = s.
Proof.
  induction s as [|c r IH]; [done|]. destruct r as [|d r].
  - cbn. by intros ->.
  - intros H. change (ends_with p (String c (String d r))) with (ends_with p (String d r)) in H.
    change (Py.rstrip p (String c (String d r))) with
      (match Py.rstrip p (String d r) with
       | EmptyString => if p c then EmptyString else String c EmptyString
       | r' => String c r'
       end).
    by rewrite IH.
Qed.

Lemma strip_by_none p s :
  starts_with p s = false → ends_with p s = false → Py.strip_by p s = s.
Proof. intros Hs He. unfold Py.strip_by. by rewrite lstrip_none, rstrip_end. Qed.

Lemma starts_with_app p (a b : string) :
  a ≠ "" → starts_with p (a +:+ b) = starts_with p a.
Proof. by destruct a. Qed.

Lemma ends_with_app p (a b : string) :
  b ≠ "" → ends_with p (a +:+ b) = ends_with p b.
Proof.
  intros Hb. induction a as [|c a IH]; [done|].
  simpl. rewrite <- IH. destruct (a +:+ b) eqn:E; [|done].
  destruct a, b; done.
Qed.

Lemma rstrip_app_stripped p (a b : string) :
  Py.all_chars p b = true → a ≠ "" → ends_with p a = false →
  Py.rstrip p (a +:+ b) = a.
Proof.
  intros Hb. induction a as [|c a IH]; [done|]. intros _ He.
  destruct a as [|d a].
  - change (String c "" +:+ b) with (String c b).
    rewrite rstrip_cons, rstrip_all by done. cbn in He. by rewrite He.
  - change (ends_with p (String c (String d a))) with (ends_with p (String d a)) in He.
    change (String c (String d a) +:+ b) with (String c (String d a +:+ b)).
    rewrite rstrip_cons, IH by done. done.
Qed.

Lemma lstrip_app_stripped p (a b : string) :
  Py.all_chars p a = true → Py.lstrip p (a +:+ b) = Py.lstrip p b.
Proof.
  induction a as [|c a IH]; [done|]. intros H. cbn in H.
  apply andb_true_iff in H as [Hc Ha].
  change (Py.lstrip p (String c a +:+ b))
    with (if p c then Py.lstrip p (a +:+ b) else String c (a +:+ b)).
  rewrite Hc. by apply IH.
Qed.

Lemma split_none c s :
  Py.all_chars (λ d, negb (Ascii.eqb d c)) s = true → Py.split c s = [s].
Proof.
  induction s as [|d r IH]; cbn; [done|].
  intros [Hd Hr]%andb_true_iff. apply negb_true_iff in Hd. by rewrite Hd, IH.
Qed.

Lemma split_app c (a b : string) :
  Py.all_chars (λ d, negb (Ascii.eqb d c)) a = true →
  Py.split c (a +:+ String c b) = a :: Py.split c b.
Proof.
  induction a as [|d a IH]; simpl.
  - intros _. by rewrite Ascii.eqb_refl.
  - intros [Hd Ha]%andb_true_iff. apply negb_true_iff in Hd. by rewrite Hd, IH.
Qed.

Lemma split_length c s : length (Py.split c s) = S (Py.count c s).
Proof.
  induction s as [|d r IH]; cbn; [done|].
  destruct (Ascii.eqb d c); cbn; [by rewrite IH|].
  destruct (Py.split c r); cbn in *; lia.
Qed.

Lemma str_in_char_spec c s :
  Py.str_in (String c "") s = negb (Py.all_chars (λ d, negb (Ascii.eqb d c)) s).
Proof.
  induction s as [|d r IH]; [done|].
  rewrite str_in_char, IH. cbn. rewrite (Ascii.eqb_sym c d).
  by destruct (Ascii.eqb d c).
Qed.

Lemma all_chars_impl (p q : ascii → bool) s :
  (∀ c, p c = true → q c = true) →
  Py.all_chars p s = true → Py.all_chars q s = true.
Proof.
  intros Hpq. induction s as [|c r IH]; cbn; [done|].
  intros [Hc Hr]%andb_true_iff. by rewrite (Hpq c Hc), IH.
Qed.

Lemma alpha_not c :
  Py.isalpha_c c = true →
  Ascii.eqb c "=" = false ∧ Ascii.eqb c " " = false ∧ Ascii.eqb c "/" = false ∧
  Py.isspace_c c = false ∧ Py.isdigit_c c = false ∧ Re.is_word c = true.
Proof.
  destruct c as [[|] [|] [|] [|] [|] [|] [|] [|]]; vm_compute; intros H;
    try discriminate H; repeat split.
Qed.

Lemma digit_not c :
  Py.isdigit_c c = true →
  Ascii.eqb c "=" = false ∧ Ascii.eqb c " " = false ∧ Ascii.eqb c "/" = false ∧
  Py.isspace_c c = false ∧ Py.isalpha_c c = false ∧ Re.is_word c = true.
Proof.
  destruct c as [[|] [|] [|] [|] [|] [|] [|] [|]]; vm_compute; intros H;
    try discriminate H; repeat split.
Qed.

(** The text of an integer: an optional minus and digits, ending in a
    digit. *)
Lemma str_shape z :
  ∃ ds, ds ≠ "" ∧ Py.all_chars Py.isdigit_c ds = true ∧
        Py.str z = (if z <? 0 then "-" else "") +:+ ds.
Proof.
  unfold Py.str. destruct z as [|p|p]; cbn -[Pos.to_uint].
  - by exists "0".
  - exists (NilEmpty.string_of_uint (Pos.to_uint p)).
    split; [|split; [apply all_digits_string_of_uint|done]].
    pose proof (Unsigned.to_uint_nonnil p). by destruct (Pos.to_uint p).
  - exists (NilEmpty.string_of_uint (Pos.to_uint p)).
    split; [|split; [apply all_digits_string_of_uint|done]].
    pose proof (Unsigned.to_uint_nonnil p). by destruct (Pos.to_uint p).
Qed.

Lemma all_chars_ends p s : s ≠ "" → Py.all_chars p s = true → ends_with (λ c, negb (p c)) s = false.
Proof.
  induction s as [|c r IH]; [done|]. intros _. cbn [Py.all_chars].
  intros [Hc Hr]%andb_true_iff. destruct r as [|d r]; [cbn; by rewrite Hc|].
  change (ends_with (λ c, negb (p c)) (String c (String d r)))
    with (ends_with (λ c, negb (p c)) (String d r)). by apply IH.
Qed.

Lemma ends_with_ext (p q : ascii → bool) s :
  (∀ c, q c = true → p c = true) → ends_with p s = false → ends_with q s = false.
Proof.
  intros Hqp. induction s as [|c r IH]; [done|]. destruct r as [|d r].
  - cbn. intros Hc. destruct (q c) eqn:Hq; [|done]. by rewrite (Hqp c Hq) in Hc.
  - apply IH.
Qed.

(** What does not occur at the ends or inside the text of an integer and
    an alphabetic name. *)
Lemma str_facts z :
  Py.str z ≠ "" ∧
  Py.all_chars (λ d, negb (Ascii.eqb d "=")) (Py.str z) = true ∧
  starts_with (Ascii.eqb " ") (Py.str z) = false ∧
  ends_with (Ascii.eqb " ") (Py.str z) = false ∧
  ends_with Py.isspace_c (Py.str z) = false ∧
  Py.isalpha (Py.str z) = false.
Proof.
  destruct (str_shape z) as (ds & Hne & Hds & ->).
  assert (Hnoeq : Py.all_chars (λ d, negb (Ascii.eqb d "=")) ds = true).
  { eapply all_chars_impl; [|done]. intros c Hc.
    by destruct (digit_not c Hc) as (-> & _). }
  assert (Hend : ∀ q, (∀ c, q c = true → Py.isdigit_c c = false) → ends_with q ds = false).
  { intros q Hq. eapply (ends_with_ext (λ c, negb (Py.isdigit_c c))).
    - intros c Hc. by rewrite (Hq c Hc).
    - by apply all_chars_ends. }
  assert (Hsp : ∀ c, Ascii.eqb " " c = true → Py.isdigit_c c = false).
  { intros c Hc. apply Ascii.eqb_eq in Hc as <-. done. }
  assert (Hws : ∀ c, Py.isspace_c c = true → Py.isdigit_c c = false).
  { intros c Hc. destruct (Py.isdigit_c c) eqn:Hd; [|done].
    destruct (digit_not c Hd) as (_ & _ & _ & Hn & _). congruence. }
  destruct (z <? 0).
  - change ("-" +:+ ds) with (String "-" ds).
    assert (He : ∀ q, ends_with q (String "-" ds) = ends_with q ds)
      by (intros q; by destruct ds).
    rewrite !He, !Hend by done. cbn [Py.all_chars]. rewrite Hnoeq.
    repeat split; done.
  - change ("" +:+ ds) with ds. rewrite !Hend by done.
    destruct ds as [|c r]; [done|]. cbn in Hds.
    apply andb_true_iff in Hds as [Hc _].
    destruct (digit_not c Hc) as (_ & Hs & _ & _ & Ha & _).
    assert (Ascii.eqb " " c = false) as Hs' by (by rewrite Ascii.eqb_sym).
    unfold Py.isalpha. cbn [starts_with Py.nonempty Py.all_chars].
    rewrite Hs', Ha. split; [done|]. split; [done|]. done.
Qed.

Lemma alpha_facts name :
  Py.isalpha name = true →
  name ≠ "" ∧
  Py.all_chars (λ d, negb (Ascii.eqb d "=")) name = true ∧
  first_char_is "/" name = false ∧
  starts_with (Ascii.eqb " ") name = false ∧
  ends_with (Ascii.eqb " ") name = false ∧
  starts_with Py.isspace_c name = false ∧
  ends_with Py.isspace_c name = false.
Proof.
  unfold Py.isalpha. intros [Hne Hall]%andb_true_iff.
  assert (Hend : ∀ q, (∀ c, q c = true → Py.isalpha_c c = false) → ends_with q name = false).
  { intros q Hq. eapply (ends_with_ext (λ c, negb (Py.isalpha_c c))).
    - intros c Hc. by rewrite (Hq c Hc).
    - apply all_chars_ends; [by destruct name|done]. }
  assert (Hsp : ∀ c, Ascii.eqb " " c = true → Py.isalpha_c c = false).
  { intros c Hc. apply Ascii.eqb_eq in Hc as <-. done. }
  assert (Hws : ∀ c, Py.isspace_c c = true → Py.isalpha_c c = false).
  { intros c Hc. destruct (Py.isalpha_c c) eqn:Hd; [|done].
    destruct (alpha_not c Hd) as (_ & _ & _ & Hn & _). congruence. }
  rewrite !Hend by done.
  split; [by destruct name|]. split.
  { eapply all_chars_impl; [|done]. intros c Hc.
    by destruct (alpha_not c Hc) as (-> & _). }
  destruct name as [|c r]; [done|]. cbn in Hall.
  apply andb_true_iff in Hall as [Hc _].
  destruct (alpha_not c Hc) as (_ & Hs & Hsl & Hw & _).
  assert (Ascii.eqb " " c = false) as Hs' by (by rewrite Ascii.eqb_sym).
  cbn [first_char_is starts_with]. rewrite Hs', Hsl, Hw. done.
Qed.

(** ** Assignments and lookups *)

Lemma classify_variable expression :
  expression ≠ "" → first_char_is "/" expression = false →
  Py.str_in "=" expression || Py.isalpha expression = true →
  classify expression = ToVariable.
Proof.
  intros Hne Hs Hv. unfold classify.
  rewrite (proj2 (String.eqb_neq _ _) Hne), Hs, Hv. done.
Qed.

Lemma strip_spaces_none s :
  starts_with (Ascii.eqb " ") s = false → ends_with (Ascii.eqb " ") s = false →
  Py.strip_spaces s = s.
Proof. apply strip_by_none. Qed.

(** A line that is an alphabetic name is a lookup. *)
Lemma lookup_line line name self out :
  Py.strip line = name → Py.isalpha name = true →
  process_line line self out =
  match variables self !! name with
  | Some value => (Ok Continue, self, out ++ [Text value])
  | None => (Ok Continue, self, out ++ [Text "Unknown variable"])
  end.
Proof.
  intros Hline Hname.
  destruct (alpha_facts name Hname) as (Hne & Hnoeq & Hsl & Hs1 & Hs2 & _).
  unfold process_line. rewrite Hline.
  rewrite classify_variable; [|done|done|by rewrite Hname, orb_true_r].
  unfold try_except. rewrite handle_variable_unfold, split_none by done.
  rewrite strip_spaces_none, Hname by done.
  by destruct (variables self !! name).
Qed.

(** X8: a line that is just an alphabetic name, with any whitespace
    around it, prints the value stored under that name, or "Unknown
    variable" when there is none; the state stays as it is. *)
Theorem X8_lookup_prints_stored_value
    (line name : string) (self : Calculator) (out : list printed)
    (Hline : Py.strip line = name) (Hname : Py.isalpha name = true) :
  process_line line self out =
  match variables self !! name with
  | Some value => (Ok Continue, self, out ++ [Text value])
  | None => (Ok Continue, self, out ++ [Text "Unknown variable"])
  end.
Proof. by apply lookup_line. Qed.

Lemma X8_lookup_prints_stored_value_witness :
  process_line "  rate " init [] =
  match variables init !! "rate" with
  | Some value => (Ok Continue, init, [] ++ [Text value])
  | None => (Ok Continue, init, [] ++ [Text "Unknown variable"])
  end.
Proof. apply (X8_lookup_prints_stored_value "  rate " "rate" init []); reflexivity. Defined.

Lemma append_middle (a : string) c b : a +:+ String c b = (a +:+ String c "") +:+ b.
Proof.
  induction a as [|d a IH]; [done|].
  change (String d a +:+ String c b) with (String d (a +:+ String c b)).
  by rewrite IH.
Qed.

Lemma assignment_line name value self out :
  Py.isalpha name = true →
  value ≠ "" →
  Py.all_chars (λ d, negb (Ascii.eqb d "=")) value = true →
  starts_with (Ascii.eqb " ") value = false →
  ends_with (Ascii.eqb " ") value = false →
  ends_with Py.isspace_c value = false →
  process_line (name +:+ " = " +:+ value) self out =
  match Py.int (default value (variables self !! value)) with
  | Some z => (Ok Continue, set_variables (<[name := Py.str z]> (variables self)) self, out)
  | None => (Ok Continue, self, out ++ [Text "Invalid assignment"])
  end.
Proof.
  intros Hname Hvne Hveq Hvs Hve Hvw.
  destruct (alpha_facts name Hname) as (Hne & Hnoeq & Hsl & Hs1 & Hs2 & Hw1 & Hw2).
  assert (Hstrip : Py.strip (name +:+ " = " +:+ value) = name +:+ " = " +:+ value).
  { apply strip_by_none.
    - by rewrite starts_with_app.
    - rewrite ends_with_app by done.
      change (" = " +:+ value) with (String " " (String "=" (String " " value))).
      by destruct value. }
  unfold process_line. rewrite Hstrip.
  assert (Hsplit : Py.split "=" (name +:+ " = " +:+ value) = [name +:+ " "; " " +:+ value]).
  { change (" = " +:+ value) with (String " " (String "=" (" " +:+ value))).
    rewrite append_middle, split_app.
    - rewrite split_none; [done|].
      change (" " +:+ value) with (String " " value).
      cbn [Py.all_chars]. by rewrite Hveq.
    - rewrite all_chars_app, Hnoeq. done. }
  rewrite classify_variable.
  2:{ by destruct name. }
  2:{ by destruct name. }
  2:{ rewrite str_in_char_spec, all_chars_app, Hnoeq. done. }
  unfold try_except. rewrite handle_variable_unfold, Hsplit.
  assert (Py.strip_spaces (name +:+ " ") = name) as ->.
  { unfold Py.strip_spaces, Py.strip_by. rewrite lstrip_none.
    - by apply rstrip_app_stripped.
    - by rewrite starts_with_app. }
  assert (Py.strip_spaces (" " +:+ value) = value) as ->.
  { unfold Py.strip_spaces, Py.strip_by.
    rewrite (lstrip_app_stripped _ " " value) by done.
    by rewrite lstrip_none, rstrip_end. }
  rewrite Hname.
  destruct (Py.int (default value (variables self !! value))); done.
Qed.

(** X9: round trip of the variables table.  After the line
    [name = <integer>], for any alphabetic name and any integer of at most
    4300 digits, the table has the integer's text under the name and
    nothing is printed; the line [name] then prints that text. *)
Theorem X9_assign_then_lookup
    (name : string) (z : Z) (self : Calculator) (out out2 : list printed)
    (Hname : Py.isalpha name = true) (Hfits : fits z = true)
    (Hreach : reachable self) :
  process_line (name +:+ " = " +:+ Py.str z) self out =
    (Ok Continue, set_variables (<[name := Py.str z]> (variables self)) self, out) ∧
  process_line name (set_variables (<[name := Py.str z]> (variables self)) self) out2 =
    (Ok Continue, set_variables (<[name := Py.str z]> (variables self)) self,
     out2 ++ [Text (Py.str z)]).
Proof.
  destruct (str_facts z) as (Hne & Hnoeq & Hs & He & Hw & Hna).
  split.
  - rewrite assignment_line by done.
    assert (variables self !! Py.str z = None) as ->.
    { destruct (variables self !! Py.str z) as [v|] eqn:Hv; [|done].
      apply (reachable_names self _ _ Hreach) in Hv. congruence. }
    cbn [from_option id]. by rewrite int_str.
  - destruct (alpha_facts name Hname) as (_ & _ & _ & _ & _ & Hw1 & Hw2).
    rewrite (lookup_line name name) by (by try apply strip_by_none).
    cbn [variables set_variables]. by rewrite lookup_insert_eq.
Qed.

Lemma X9_assign_then_lookup_witness :
  process_line ("total" +:+ " = " +:+ Py.str (-1200)) init [] =
    (Ok Continue, set_variables (<["total" := Py.str (-1200)]> (variables init)) init, []) ∧
  process_line "total"
    (set_variables (<["total" := Py.str (-1200)]> (variables init)) init) [] =
    (Ok Continue, set_variables (<["total" := Py.str (-1200)]> (variables init)) init,
     [] ++ [Text (Py.str (-1200))]).
Proof.
  apply (X9_assign_then_lookup "total" (-1200) init [] []);
    [reflexivity|by vm_compute|apply reachable_init].
Defined.

(** X10: the line [y = x], for a variable [x] that has a value, gives
    [y] the same value (reached states only: there the value is the text
    of an integer, which [str(int(...))] gives back). *)
Theorem X10_copy_assignment
    (x y value : string) (self : Calculator) (out : list printed)
    (Hx : Py.isalpha x = true) (Hy : Py.isalpha y = true)
    (Hreach : reachable self) (Hvalue : variables self !! x = Some value) :
  process_line (y +:+ " = " +:+ x) self out =
    (Ok Continue, set_variables (<[y := value]> (variables self)) self, out).
Proof.
  destruct (alpha_facts x Hx) as (Hne & Hnoeq & _ & Hs1 & Hs2 & _ & Hw2).
  rewrite assignment_line by done. rewrite Hvalue.
  destruct (reachable_canonical self Hreach x value Hvalue) as (z & Hz & Hs).
  cbn [from_option id]. by rewrite Hz, Hs.
Qed.

Lemma X10_copy_assignment_witness :
  process_line ("y" +:+ " = " +:+ "x") (process_line "x = 0010" init []).1.2 [] =
    (Ok Continue,
     set_variables (<["y" := "10"]> (variables (process_line "x = 0010" init []).1.2))
       (process_line "x = 0010" init []).1.2, []).
Proof.
  apply (X10_copy_assignment "x" "y" "10" (process_line "x = 0010" init []).1.2 []);
    try reflexivity.
  eapply (reachable_line init "x = 0010" []); [apply reachable_init|reflexivity].
Defined.

Lemma count_positive c s :
  (0 < Py.count c s)%nat → Py.str_in (String c "") s = true.
Proof.
  rewrite str_in_char_spec. induction s as [|d r IH]; cbn; [lia|].
  destruct (Ascii.eqb d c); cbn; [done|]. apply IH.
Qed.

(** X11: a line with more than one [=] that does not start with [/]
    fails with InvalidAssignment, whatever stands between the signs; the
    state stays as it is. *)
Theorem X11_two_equals_invalid
    (line : string) (self : Calculator) (out : list printed)
    (Hcount : (2 ≤ Py.count "=" (Py.strip line))%nat)
    (Hslash : first_char_is "/" (Py.strip line) = false) :
  process_line line self out = (Ok Continue, self, out ++ [Text "Invalid assignment"]).
Proof.
  unfold process_line.
  rewrite classify_variable;
    [|intros E; rewrite E in Hcount; cbn in Hcount; lia|done|].
  2:{ rewrite count_positive by lia. done. }
  unfold try_except. rewrite handle_variable_unfold.
  pose proof (split_length "=" (Py.strip line)) as Hlen.
  destruct (Py.split "=" (Py.strip line)) as [|a [|b [|c rest]]]; cbn in Hlen; try lia.
  done.
Qed.

Lemma X11_two_equals_invalid_witness :
  process_line "a = b = 5" init [] = (Ok Continue, init, [] ++ [Text "Invalid assignment"]).
Proof. apply (X11_two_equals_invalid "a = b = 5" init []); [vm_compute; lia|reflexivity]. Defined.

(** * Further properties of the tokeniser *)

Lemma concat_chunks l : concat (chunks l) = l.
Proof.
  induction l as [|c r IH]; [done|]. cbn [chunks].
  destruct (chunks r) as [|[|d t] ts]; cbn in IH |- *; [by rewrite <- IH..|].
  destruct (same_run c d); cbn; by rewrite <- IH.
Qed.

Lemma chunks_nonempty l : Forall (λ t, t ≠ []) (chunks l).
Proof.
  induction l as [|c r IH]; [by constructor|]. cbn [chunks].
  destruct (chunks r) as [|[|d t] ts]; [by repeat constructor| |].
  - by constructor.
  - apply Forall_cons in IH as [_ IH]. destruct (same_run c d); by repeat constructor.
Qed.

Lemma concat_strings ts :
  String.concat "" (map string_of_list_ascii ts) = string_of_list_ascii (concat ts).
Proof.
  assert (Happ : ∀ a b, string_of_list_ascii (a ++ b) =
                        string_of_list_ascii a +:+ string_of_list_ascii b).
  { intros a b. induction a as [|x a IH]; [done|].
    cbn [app string_of_list_ascii]. rewrite IH. done. }
  induction ts as [|t ts IH]; [done|].
  cbn [map concat]. rewrite Happ, <- IH.
  destruct ts as [|t' ts]; cbn [map String.concat].
  - clear. induction (string_of_list_ascii t) as [|c s IH]; [done|].
    change (String c s = String c (s +:+ "")). by rewrite <- IH.
  - done.
Qed.

(** X12: the tokens that [re.split] leaves, put end to end, are the text
    that was split, and none of them is empty: the tokeniser neither
    drops nor invents a character. *)
Theorem X12_tokens_partition_the_line (s : string) :
  String.concat "" (truthy (Re.split s)) = s ∧
  Forall (λ ch, ch ≠ "") (truthy (Re.split s)).
Proof.
  rewrite split_tokens. split.
  - by rewrite concat_strings, concat_chunks, string_of_list_ascii_of_string.
  - apply Forall_fmap. eapply Forall_impl; [apply chunks_nonempty|].
    intros t Ht. by destruct t.
Qed.

Lemma same_run_mul c d : same_run c d = true → Re.is_mul d = Re.is_mul c.
Proof.
  unfold same_run. intros [[H|H]%orb_true_iff|H]%orb_true_iff;
    apply andb_true_iff in H as [Hc Hd].
  - destruct (proj1 (classes_disjoint c) Hc) as (_ & -> & _).
    by destruct (proj1 (classes_disjoint d) Hd) as (_ & -> & _).
  - destruct (proj1 (proj2 (classes_disjoint c)) Hc) as (_ & -> & _).
    by destruct (proj1 (proj2 (classes_disjoint d)) Hd) as (_ & -> & _).
  - by rewrite Hc, Hd.
Qed.

Lemma both_mul_same_run c d :
  Re.is_mul c = true → Re.is_mul d = true → same_run c d = true.
Proof. unfold same_run. intros -> ->. by rewrite !orb_true_r. Qed.

(** A token that the tokeniser refuses: more than one character, one of
    them among [*], [/], [^]. *)
Lemma fold_token_bad t :
  fold_token (string_of_list_ascii t) = Raise InvalidExpressionError ↔
  existsb Re.is_mul t && (1 <? length t)%nat = true.
Proof.
  unfold fold_token.
  rewrite has_mul_exists, list_ascii_of_string_of_list_ascii, string_of_list_ascii_inj_len.
  destruct (existsb Re.is_mul t && (1 <? length t)%nat); [done|].
  split; [|done]. by case_match.
Qed.

Lemma fold_tokens_ok l :
  Forall (λ ch, fold_token ch ≠ Raise InvalidExpressionError) l →
  ∃ infix, fold_tokens l = Ok infix.
Proof.
  induction 1 as [|ch l Hch _ [infix IH]]; [by exists []|].
  cbn. destruct (fold_token ch) as [ch'|e|] eqn:E.
  - rewrite IH. by eexists.
  - by rewrite (fold_token_raises _ _ E) in Hch.
  - by apply fold_token_integer in E.
Qed.

(** In the chunks of a text, a refused token is there exactly when two
    of [*], [/], [^] are adjacent; the head of the first chunk decides
    whether the chunk has one of them. *)
Lemma chunks_bad l :
  existsb (λ t, existsb Re.is_mul t && (1 <? length t)%nat) (chunks l) =
    adjacent_mul (string_of_list_ascii l) ∧
  match chunks l with
  | (d :: t) :: _ => existsb Re.is_mul (d :: t) = Re.is_mul d
  | _ => True
  end.
Proof.
  induction l as [|c r [IH1 IH2]]; [done|].
  destruct r as [|d r].
  { cbn. by destruct (Re.is_mul c). }
  destruct (chunks_cons d r) as (t & ts & Hd). rewrite Hd in IH1, IH2.
  change (string_of_list_ascii (c :: d :: r))
    with (String c (string_of_list_ascii (d :: r))).
  change (adjacent_mul (String c (string_of_list_ascii (d :: r))))
    with (Re.is_mul c && Re.is_mul d || adjacent_mul (string_of_list_ascii (d :: r))).
  rewrite <- IH1.
  destruct (same_run c d) eqn:Hcd.
  - rewrite (chunks_join c d r t ts Hcd Hd).
    pose proof (same_run_mul c d Hcd) as Hm.
    cbn [existsb] in IH2 |- *. rewrite IH2, Hm. cbn [length].
    split; [|by destruct (Re.is_mul c)].
    destruct (Re.is_mul c), t; cbn; done.
  - rewrite chunks_alone by done. rewrite Hd. cbn [existsb length].
    split; [|by rewrite orb_false_r].
    rewrite orb_false_r. cbn [Nat.ltb Nat.leb]. rewrite andb_false_r. cbn [orb].
    destruct (Re.is_mul c) eqn:Hc, (Re.is_mul d) eqn:Hd'; try done.
    by rewrite both_mul_same_run in Hcd.
Qed.

(** X13: the tokeniser fails exactly on the lines that, spaces removed,
    have two of [*], [/], [^] side by side; on every other line it
    returns its tokens. *)
Theorem X13_get_infix_fails_iff_adjacent (expression : string) :
  if adjacent_mul (Py.remove_char " " expression)
  then get_infix expression = Raise InvalidExpressionError
  else ∃ infix, get_infix expression = Ok infix.
Proof.
  rewrite get_infix_chunks.
  destruct (chunks_bad (list_ascii_of_string (Py.remove_char " " expression))) as [Hbad _].
  rewrite string_of_list_ascii_of_string in Hbad. rewrite <- Hbad.
  destruct (existsb _ _) eqn:He.
  - apply existsb_exists in He as (t & Hin & Ht).
    apply (fold_tokens_raise _ (string_of_list_ascii t)).
    + apply list_elem_of_fmap_2. by apply list_elem_of_In.
    + by apply fold_token_bad.
  - apply fold_tokens_ok, Forall_fmap, Forall_forall. intros t Hin Hr.
    apply fold_token_bad in Hr.
    assert (existsb (λ t0, existsb Re.is_mul t0 && (1 <? length t0)%nat)
              (chunks (list_ascii_of_string (Py.remove_char " " expression))) = true);
      [|congruence].
    apply existsb_exists. exists t. split; [by apply list_elem_of_In|done].
Qed.

Lemma fold_tokens_each l infix :
  fold_tokens l = Ok infix → Forall2 (λ t ch, fold_token t = Ok ch) l infix.
Proof.
  revert infix. induction l as [|t l IH]; intros infix; cbn.
  - intros [= <-]. constructor.
  - destruct (fold_token t) as [ch| |] eqn:E; [|done..]. cbn.
    destruct (fold_tokens l) as [r| |]; [|done..]. cbn. intros [= <-].
    constructor; [done|]. by apply IH.
Qed.

Lemma single_operator_char c :
  Re.is_sign c || Re.is_mul c = true → is_operator (String c "") = true.
Proof.
  unfold Re.is_sign, Re.is_mul. intros H.
  repeat (apply orb_true_iff in H as [H|H]); apply Ascii.eqb_eq in H as ->; done.
Qed.

Lemma fold_token_operator t ch :
  fold_token t = Ok ch → has_sign ch || has_mul ch = true → is_operator ch = true.
Proof.
  unfold fold_token.
  destruct (has_mul t && (1 <? Py.len t)%nat) eqn:Hm; [done|].
  destruct (has_sign t && (1 <? Py.len t)%nat) eqn:Hs.
  { intros [= <-] _. by case_match. }
  intros [= <-] Hop.
  assert (Hlen : (1 <? Py.len t)%nat = false).
  { destruct (1 <? Py.len t)%nat; [|done].
    rewrite andb_true_r in Hm, Hs. by rewrite Hm, Hs in Hop. }
  destruct t as [|c [|d r]]; [done| |done].
  apply single_operator_char. rewrite has_sign_cons, has_mul_cons in Hop.
  revert Hop. cbn. by rewrite !orb_false_r.
Qed.

(** X14: in what the tokeniser returns, a token that has any of [+], [-],
    [*], [/], [^] in it is one of these five operators by itself; this is
    what lets the evaluator test [ch in '+-*/^']. *)
Theorem X14_operator_tokens_are_single
    (expression : string) (infix : list string) (ch : string)
    (Hok : get_infix expression = Ok infix) (Hin : ch ∈ infix) :
  ch ≠ "" ∧
  (has_sign ch || has_mul ch = true → is_operator ch = true) ∧
  (is_operator ch = true ↔ Py.str_in ch "+-*/^" = true).
Proof.
  unfold get_infix in Hok. apply fold_tokens_each in Hok.
  apply list_elem_of_lookup in Hin as [i Hi].
  destruct (Forall2_lookup_r _ _ _ _ _ Hok Hi) as (t & Ht & Hf).
  assert (Hne : t ≠ "").
  { apply list_elem_of_lookup_2 in Ht.
    unfold truthy in Ht. apply list_elem_of_omap in Ht as (x & _ & Hx).
    by destruct x as [[|]|]; simplify_eq. }
  assert (Hch : ch ≠ "").
  { revert Hf. unfold fold_token. repeat case_match; intros [= <-]; done. }
  split; [done|]. split; [by apply (fold_token_operator t)|].
  split.
  - intros Hop. by destruct (operator_cases ch Hop) as [->|[->|[->|[->| ->]]]].
  - intros Hsub.
    assert (Hops : has_sign ch || has_mul ch = true).
    { destruct ch as [|c r]; [done|]. rewrite has_sign_cons, has_mul_cons.
      assert (Re.is_sign c || Re.is_mul c = true) as Hc;
        [|apply orb_true_iff in Hc as [-> | ->]; cbn; by rewrite ?orb_true_r].
      revert Hsub. clear.
      destruct c as [[|] [|] [|] [|] [|] [|] [|] [|]]; by vm_compute. }
    by apply (fold_token_operator t).
Qed.

Lemma X14_operator_tokens_are_single_witness :
  "-" ≠ "" ∧
  (has_sign "-" || has_mul "-" = true → is_operator "-" = true) ∧
  (is_operator "-" = true ↔ Py.str_in "-" "+-*/^" = true).
Proof.
  apply (X14_operator_tokens_are_single "a +-+ 2" ["a"; "-"; "2"] "-").
  - reflexivity.
  - apply list_elem_of_further, list_elem_of_here.
Defined.

(** * Further properties of the converter *)

(** X15: on operands, operators and parentheses the converter returns a
    postfix sequence when the parentheses match and fails with
    InvalidExpression when they do not; it never fails in another way, so
    the priority table has every key that is looked up. *)
Theorem X15_converter_succeeds_iff_balanced (infix : list string)
    (Hknown : forallb known infix = true) :
  (balanced infix = true ∧ ∃ postfix, infix_to_postfix infix = Ok postfix) ∨
  (balanced infix = false ∧ infix_to_postfix infix = Raise InvalidExpressionError).
Proof.
  pose proof (infix_to_postfix_known infix Hknown) as H.
  destruct (balanced infix); [by left|by right].
Qed.

Lemma X15_converter_succeeds_iff_balanced_witness :
  (balanced ["("; "a"; "+"; "1"; ")"; "*"; "2"] = true ∧
   ∃ postfix, infix_to_postfix ["("; "a"; "+"; "1"; ")"; "*"; "2"] = Ok postfix) ∨
  (balanced ["("; "a"; "+"; "1"; ")"; "*"; "2"] = false ∧
   infix_to_postfix ["("; "a"; "+"; "1"; ")"; "*"; "2"] = Raise InvalidExpressionError).
Proof.
  apply (X15_converter_succeeds_iff_balanced ["("; "a"; "+"; "1"; ")"; "*"; "2"]).
  reflexivity.
Defined.

(** Popping moves tokens from the top of the stack to the end of the
    output. *)
Lemma pop_to_paren_split stack postfix :
  ∃ popped,
    stack = popped ++ (pop_to_paren stack postfix).1 ∧
    (pop_to_paren stack postfix).2 = postfix ++ popped ∧
    match (pop_to_paren stack postfix).1 with
    | t :: _ => t = "("
    | [] => True
    end.
Proof.
  revert postfix. induction stack as [|t below IH]; intros postfix; cbn.
  { exists []. cbn. by rewrite ?app_nil_r. }
  destruct (String.eqb_spec t "(") as [->|_].
  { exists []. cbn. by rewrite ?app_nil_r. }
  destruct (IH (postfix ++ [t])) as (popped & Hs & Hp & Ht).
  exists (t :: popped). split; [by rewrite Hs at 1|].
  split; [by rewrite Hp, <- app_assoc|done].
Qed.

Lemma pop_not_lower_split ch stack postfix stack' postfix' :
  pop_not_lower ch stack postfix = Ok (stack', postfix') →
  ∃ popped, stack = popped ++ stack' ∧ postfix' = postfix ++ popped.
Proof.
  revert postfix. induction stack as [|t below IH]; intros postfix; cbn.
  { intros [= <- <-]. exists []. cbn. by rewrite ?app_nil_r. }
  destruct (priority_of ch); [|done..]. destruct (priority_of t); [|done..]. cbn.
  case_match; [|intros [= <- <-]; exists []; by rewrite ?app_nil_r].
  intros Hpop. destruct (IH _ Hpop) as (popped & -> & ->).
  exists (t :: popped). by rewrite <- app_assoc.
Qed.

(** What one step of the converter does to the stack and the output. *)
Lemma convert_token_shape ch stack postfix stack' postfix' :
  convert_token ch stack postfix = Ok (stack', postfix') →
  (Py.isalnum ch = true ∧ stack' = stack ∧ postfix' = postfix ++ [ch]) ∨
  (ch = "(" ∧ stack' = "(" :: stack ∧ postfix' = postfix) ∨
  (ch = ")" ∧ ∃ popped, stack = popped ++ "(" :: stack' ∧ postfix' = postfix ++ popped) ∨
  (Py.isalnum ch = false ∧ ch ≠ "(" ∧ ch ≠ ")" ∧
   ∃ popped below, stack = popped ++ below ∧ stack' = ch :: below ∧
                   postfix' = postfix ++ popped).
Proof.
  unfold convert_token.
  destruct (Py.isalnum ch) eqn:Hal.
  { intros [= <- <-]. by left. }
  destruct (String.eqb_spec ch "(") as [->|Hno].
  { intros [= <- <-]. right. by left. }
  destruct (String.eqb_spec ch ")") as [->|Hnc].
  { destruct (pop_to_paren_split stack postfix) as (popped & Hs & Hp & Ht).
    destruct (pop_to_paren stack postfix) as [[|t below] pf]; [done|].
    cbn [fst snd] in *. subst t pf. intros [= <- <-].
    right. right. left. split; [done|]. by exists popped. }
  intros H. right. right. right. split; [done|]. split; [done|]. split; [done|].
  destruct stack as [|top below].
  { injection H as <- <-. exists [], []. by rewrite ?app_nil_r. }
  destruct (priority_of ch); [|done..]. destruct (priority_of top); [|done..].
  cbn [rbind] in H. destruct (_ <? _)%nat.
  { injection H as <- <-. exists [], (top :: below). by rewrite ?app_nil_r. }
  destruct (pop_not_lower ch (top :: below) postfix) as [[st pf]| |] eqn:Hpop; [|done..].
  cbn [rbind] in H. injection H as <- <-.
  destruct (pop_not_lower_split _ _ _ _ _ Hpop) as (popped & -> & ->).
  by exists popped, st.
Qed.

Lemma filter_nonparen_middle (a b : list string) ch :
  List.filter nonparen (a ++ ch :: b) ≡ₚ
  List.filter nonparen (a ++ b) ++ List.filter nonparen [ch].
Proof.
  rewrite !List.filter_app. cbn [List.filter]. destruct (nonparen ch); cbn.
  - rewrite <- app_assoc. apply Permutation_app_head.
    by rewrite (Permutation_app_comm _ [ch]).
  - by rewrite ?app_nil_r.
Qed.

Lemma filter_alnum_none (l : list string) :
  Forall (λ t, Py.isalnum t = false) l → List.filter Py.isalnum l = [].
Proof. induction 1 as [|t l Ht _ IH]; [done|]. cbn. by rewrite Ht. Qed.

Lemma convert_tokens_content infix stack postfix stack' postfix' :
  convert_tokens infix stack postfix = Ok (stack', postfix') →
  Forall (λ t, Py.isalnum t = false) stack → ")" ∉ postfix ++ stack →
  List.filter nonparen (postfix' ++ stack') ≡ₚ
    List.filter nonparen (postfix ++ stack) ++ List.filter nonparen infix ∧
  List.filter Py.isalnum postfix' =
    List.filter Py.isalnum postfix ++ List.filter Py.isalnum infix ∧
  Forall (λ t, Py.isalnum t = false) stack' ∧ ")" ∉ postfix' ++ stack'.
Proof.
  revert stack postfix. induction infix as [|ch rest IH]; intros stack postfix.
  { cbn. intros [= <- <-] Hs Hc. by rewrite !app_nil_r. }
  cbn [convert_tokens].
  destruct (convert_token ch stack postfix) as [[st pf]| |] eqn:Hstep; [|done..].
  cbn [rbind]. intros Hrest Hs Hc.
  assert (List.filter nonparen (pf ++ st) ≡ₚ
            List.filter nonparen (postfix ++ stack) ++ List.filter nonparen [ch] ∧
          List.filter Py.isalnum pf =
            List.filter Py.isalnum postfix ++ List.filter Py.isalnum [ch] ∧
          Forall (λ t, Py.isalnum t = false) st ∧ ")" ∉ pf ++ st) as (H1 & H2 & H3 & H4).
  { destruct (convert_token_shape _ _ _ _ _ Hstep)
      as [(Hal & -> & ->)|[(-> & -> & ->)|[(-> & popped & -> & ->)|
          (Hal & Hno & Hnc & popped & below & -> & -> & ->)]]].
    - split; [|split; [|split; [done|]]].
      + rewrite <- app_assoc. apply filter_nonparen_middle.
      + by rewrite List.filter_app.
      + rewrite <- app_assoc. cbn [app]. intros Hin.
        apply elem_of_app in Hin as [Hin|Hin%elem_of_cons].
        * apply Hc, elem_of_app. by left.
        * destruct Hin as [<-|Hin]; [done|]. apply Hc, elem_of_app. by right.
    - split; [|split; [|split]].
      + apply filter_nonparen_middle.
      + by rewrite ?app_nil_r.
      + by constructor.
      + intros Hin. apply elem_of_app in Hin as [Hin|Hin%elem_of_cons].
        * apply Hc, elem_of_app. by left.
        * destruct Hin as [?|Hin]; [done|]. apply Hc, elem_of_app. by right.
    - apply Forall_app in Hs as [Hpop Hst]. apply Forall_cons in Hst as [_ Hst].
      split; [|split; [|split; [done|]]].
      + rewrite (app_assoc postfix popped ("(" :: st)).
        rewrite (filter_nonparen_middle (postfix ++ popped) st "(").
        cbn. by rewrite !app_nil_r.
      + rewrite List.filter_app, (filter_alnum_none popped) by done. done.
      + intros Hin. apply Hc. rewrite <- app_assoc in Hin.
        rewrite !elem_of_app in Hin. rewrite !elem_of_app, elem_of_cons. tauto.
    - apply Forall_app in Hs as [Hpop Hst].
      split; [|split; [|split]].
      + rewrite (app_assoc postfix popped below).
        apply filter_nonparen_middle.
      + rewrite List.filter_app, (filter_alnum_none popped) by done.
        cbn. by rewrite Hal.
      + by constructor.
      + intros Hin. rewrite <- app_assoc in Hin.
        rewrite !elem_of_app, elem_of_cons in Hin.
        rewrite !elem_of_app in Hc. destruct Hin as [?|[?|[?|?]]]; try tauto. done. }
  destruct (IH _ _ Hrest H3 H4) as (I1 & I2 & I3 & I4).
  split; [|split; [|done]].
  - rewrite I1, H1. rewrite <- app_assoc. cbn [List.filter].
    by destruct (nonparen ch).
  - rewrite I2, H2. rewrite <- app_assoc. cbn [List.filter].
    by destruct (Py.isalnum ch).
Qed.

Lemma filter_all {A} (p : A → bool) l : Forall (λ x, p x = true) l → List.filter p l = l.
Proof. induction 1 as [|x l Hx _ IH]; [done|]. cbn. by rewrite Hx, IH. Qed.

(** X16: what the converter returns has exactly the tokens of its input
    that are not parentheses, each as often as it was there, and the
    operands in the order they had. *)
Theorem X16_converter_keeps_tokens (infix postfix : list string)
    (Hok : infix_to_postfix infix = Ok postfix) :
  postfix ≡ₚ List.filter nonparen infix ∧
  List.filter Py.isalnum postfix = List.filter Py.isalnum infix.
Proof.
  unfold infix_to_postfix in Hok.
  destruct (convert_tokens infix [] []) as [[st pf]| |] eqn:Hc; [|done..].
  cbn [rbind] in Hok. case_bool_decide as Hopen; [done|]. injection Hok as <-.
  destruct (convert_tokens_content _ _ _ _ _ Hc) as (H1 & H2 & H3 & H4);
    [done|apply not_elem_of_nil|].
  split.
  - rewrite <- H1. rewrite filter_all; [done|].
    apply Forall_forall. intros t Ht. unfold nonparen.
    destruct (String.eqb_spec t "(") as [->|_]; [done|].
    by destruct (String.eqb_spec t ")") as [->|_].
  - by rewrite List.filter_app, (filter_alnum_none st), app_nil_r.
Qed.

Lemma X16_converter_keeps_tokens_witness :
  ["a"; "b"; "c"; "*"; "+"; "2"; "/"] ≡ₚ
    List.filter nonparen ["("; "a"; "+"; "b"; "*"; "c"; ")"; "/"; "2"] ∧
  List.filter Py.isalnum ["a"; "b"; "c"; "*"; "+"; "2"; "/"] =
    List.filter Py.isalnum ["("; "a"; "+"; "b"; "*"; "c"; ")"; "/"; "2"].
Proof.
  apply (X16_converter_keeps_tokens ["("; "a"; "+"; "b"; "*"; "c"; ")"; "/"; "2"]).
  reflexivity.
Defined.

(** * The calculator on parenthesised expressions *)

Lemma str_nat_digits n :
  Py.str (Z.of_N n) ≠ "" ∧ Py.all_chars Py.isdigit_c (Py.str (Z.of_N n)) = true.
Proof.
  destruct (str_shape (Z.of_N n)) as (ds & Hne & Hds & ->).
  assert ((Z.of_N n <? 0) = false) as -> by (apply Z.ltb_ge; lia). done.
Qed.

Lemma word_not_operator_text c r :
  Re.is_word c = true → Py.str_in (String c r) "+-*/^" = false.
Proof.
  destruct c as [[|] [|] [|] [|] [|] [|] [|] [|]]; vm_compute; intros H;
    try discriminate H; reflexivity.
Qed.

Lemma token_lit n :
  Py.isalnum (Py.str (Z.of_N n)) = true ∧
  Py.isdigit (Py.str (Z.of_N n)) = true ∧
  Py.str_in (Py.str (Z.of_N n)) "+-*/^" = false.
Proof.
  destruct (str_nat_digits n) as [Hne Hd].
  unfold Py.isalnum, Py.isdigit. rewrite Hd.
  assert (Py.nonempty (Py.str (Z.of_N n)) = true) as -> by (by destruct (Py.str _)).
  split; [|split; [done|]].
  - cbn. eapply all_chars_impl; [|done]. intros c Hc.
    unfold Py.isalnum_c. by rewrite Hc, orb_true_r.
  - destruct (Py.str (Z.of_N n)) as [|c r]; [done|].
    apply word_not_operator_text. cbn in Hd. apply andb_true_iff in Hd as [Hc _].
    by destruct (digit_not c Hc) as (_ & _ & _ & _ & _ & ?).
Qed.

Lemma token_name x :
  Py.isalpha x = true →
  Py.isalnum x = true ∧ Py.isdigit x = false ∧ Py.str_in x "+-*/^" = false.
Proof.
  unfold Py.isalpha, Py.isalnum, Py.isdigit. intros [Hne Ha]%andb_true_iff.
  rewrite Hne. split; [|split].
  - cbn. eapply all_chars_impl; [|done]. intros c Hc.
    unfold Py.isalnum_c. by rewrite Hc.
  - destruct x as [|c r]; [done|]. cbn in Ha |- *.
    apply andb_true_iff in Ha as [Hc _].
    by destruct (alpha_not c Hc) as (_ & _ & _ & _ & -> & _).
  - destruct x as [|c r]; [done|]. cbn in Ha.
    apply andb_true_iff in Ha as [Hc _]. apply word_not_operator_text.
    by destruct (alpha_not c Hc) as (_ & _ & _ & _ & _ & ?).
Qed.

Lemma pop_to_paren_operator op stack postfix :
  is_operator op = true →
  pop_to_paren (op :: "(" :: stack) postfix = ("(" :: stack, postfix ++ [op]).
Proof.
  intros Hop. cbn. by destruct (operator_not_paren op Hop) as (_ & -> & _).
Qed.

(** The converter on a parenthesised expression: the stack is as before
    and the output has grown by the postfix order. *)
Lemma convert_render e rest stack postfix :
  wf e = true →
  convert_tokens (render e ++ rest) stack postfix =
  convert_tokens rest stack (postfix ++ postorder e).
Proof.
  revert rest stack postfix.
  induction e as [n|x|op a IHa b IHb]; intros rest stack postfix Hwf.
  - cbn [render postorder app convert_tokens].
    destruct (token_lit n) as (Hal & _). by rewrite convert_operand.
  - cbn [render postorder app convert_tokens].
    destruct (token_name x Hwf) as (Hal & _). by rewrite convert_operand.
  - cbn [wf] in Hwf. apply andb_true_iff in Hwf as [[Hop Ha]%andb_true_iff Hb].
    cbn [render postorder]. rewrite <- !app_assoc.
    change (["("] ++ render a ++ [op] ++ render b ++ [")"] ++ rest)
      with ("(" :: (render a ++ op :: (render b ++ ")" :: rest))).
    cbn [convert_tokens].
    change (convert_token "(" stack postfix)
      with (Ok ("(" :: stack, postfix) : result (list string * list string)).
    cbn [rbind]. rewrite IHa by done. cbn [convert_tokens].
    assert (convert_token op ("(" :: stack) (postfix ++ postorder a) =
            Ok (op :: "(" :: stack, postfix ++ postorder a)) as ->.
    { unfold convert_token.
      destruct (operator_not_paren op Hop) as (-> & -> & ->).
      destruct (operator_priority op Hop) as [p ->]. done. }
    cbn [rbind]. rewrite IHb by done. cbn [convert_tokens].
    assert (convert_token ")" (op :: "(" :: stack) ((postfix ++ postorder a) ++ postorder b) =
            Ok (stack, ((postfix ++ postorder a) ++ postorder b) ++ [op])) as ->.
    { unfold convert_token. cbn [Py.isalnum Py.nonempty andb].
      change (String.eqb ")" "(") with false. change (String.eqb ")" ")") with true.
      cbn iota. by rewrite pop_to_paren_operator. }
    cbn [rbind]. by rewrite <- !app_assoc.
Qed.

Lemma apply_operator_arith op a b stack :
  is_operator op = true →
  apply_operator op a b stack = rbind (arith op a b) (λ v, Ok (v :: stack)).
Proof.
  intros Hop. by destruct (operator_cases op Hop) as [->|[->|[->|[->| ->]]]].
Qed.

(** The evaluator on the postfix order: the value is pushed. *)
Lemma eval_postorder vars e rest stack :
  wf e = true →
  eval_tokens vars (postorder e ++ rest) stack =
  rbind (value vars e) (λ v, eval_tokens vars rest (v :: stack)).
Proof.
  revert rest stack.
  induction e as [n|x|op a IHa b IHb]; intros rest stack Hwf.
  - cbn [postorder app eval_tokens value rbind].
    destruct (token_lit n) as (_ & Hd & Hs).
    unfold eval_token. rewrite Hs, Hd. unfold int_or_raise. by rewrite int_str.
  - cbn [postorder app eval_tokens value].
    destruct (token_name x Hwf) as (_ & Hd & Hs).
    unfold eval_token. rewrite Hs, Hd.
    destruct (vars !! x) as [v|]; [|done]. by destruct (int_or_raise v).
  - cbn [wf] in Hwf. apply andb_true_iff in Hwf as [[Hop Ha]%andb_true_iff Hb].
    cbn [postorder value]. rewrite <- !app_assoc, IHa by done.
    destruct (value vars a) as [va| |]; [|done..]. cbn [rbind].
    rewrite IHb by done.
    destruct (value vars b) as [vb| |]; [|done..]. cbn [rbind app eval_tokens].
    assert (eval_token vars op (vb :: va :: stack) = apply_operator op va vb stack) as ->.
    { unfold eval_token.
      by destruct (operator_cases op Hop) as [->|[->|[->|[->| ->]]]]. }
    rewrite apply_operator_arith by done.
    by destruct (arith op va vb).
Qed.

Lemma postorder_no_paren e : wf e = true → "(" ∉ postorder e.
Proof.
  induction e as [n|x|op a IHa b IHb]; cbn [wf postorder]; intros Hwf.
  - destruct (token_lit n) as (Hal & _).
    intros Hin%list_elem_of_singleton. by rewrite <- Hin in Hal.
  - destruct (token_name x Hwf) as (Hal & _).
    intros Hin%list_elem_of_singleton. by rewrite <- Hin in Hal.
  - apply andb_true_iff in Hwf as [[Hop Ha]%andb_true_iff Hb].
    rewrite !elem_of_app, list_elem_of_singleton.
    intros [?|[?|Heq]]; [by apply IHa|by apply IHb|].
    by rewrite <- Heq in Hop.
Qed.

Lemma parenthesised_tokens vars e :
  wf e = true →
  infix_to_postfix (render e) = Ok (postorder e) ∧
  eval_tokens vars (postorder e) [] = rbind (value vars e) (λ v, Ok [v]).
Proof.
  intros Hwf. split.
  - unfold infix_to_postfix.
    rewrite <- (app_nil_r (render e)), convert_render by done.
    cbn [convert_tokens rbind app]. rewrite app_nil_r.
    by rewrite bool_decide_eq_false_2 by (by apply postorder_no_paren).
  - rewrite <- (app_nil_r (postorder e)), eval_postorder by done.
    by destruct (value vars e).
Qed.

(** X17: on the tokens of an expression with every operation in
    parentheses, the converter returns the postfix order of the
    expression, and evaluating that gives the value of the expression, or
    fails as the first failing operation of the expression does.  The
    literals and the stored values have at most 4300 digits. *)
Theorem X17_parenthesised_tokens (vars : gmap string string) (e : expr)
    (Hwf : wf e = true) (Hshort : short_values vars) :
  infix_to_postfix (render e) = Ok (postorder e) ∧
  eval_tokens vars (postorder e) [] = rbind (value vars e) (λ v, Ok [v]).
Proof. by apply parenthesised_tokens. Qed.

Lemma X17_parenthesised_tokens_witness :
  infix_to_postfix (render (Bin "-" (Lit 2) (Bin "^" (Name "x") (Lit 3)))) =
    Ok (postorder (Bin "-" (Lit 2) (Bin "^" (Name "x") (Lit 3)))) ∧
  eval_tokens {["x" := "5"]} (postorder (Bin "-" (Lit 2) (Bin "^" (Name "x") (Lit 3)))) [] =
    rbind (value {["x" := "5"]} (Bin "-" (Lit 2) (Bin "^" (Name "x") (Lit 3))))
      (λ v, Ok [v]).
Proof.
  apply (X17_parenthesised_tokens {["x" := "5"]}
           (Bin "-" (Lit 2) (Bin "^" (Name "x") (Lit 3)))).
  - reflexivity.
  - apply map_Forall_singleton. cbn. lia.
Defined.

(** ** From the typed line to its tokens *)

Lemma plain_not c :
  plain c = true →
  Ascii.eqb c " " = false ∧ Ascii.eqb c "=" = false ∧ Py.isspace_c c = false.
Proof.
  destruct c as [[|] [|] [|] [|] [|] [|] [|] [|]]; vm_compute; intros H;
    try discriminate H; repeat split.
Qed.

Lemma operator_char op :
  is_operator op = true →
  ∃ c, op = String c "" ∧ Re.is_word c = false ∧ Re.is_paren c = false ∧
       plain c = true ∧ Ascii.eqb c "/" = Ascii.eqb c "/" ∧
       (Re.is_sign c = true ∨ Re.is_mul c = true).
Proof.
  intros H. destruct (operator_cases op H) as [->|[->|[->|[->| ->]]]];
    eexists; (split; [done|]); repeat split; auto.
Qed.

Lemma word_plain_string s :
  Py.all_chars Py.isalnum_c s = true →
  Py.all_chars plain s = true ∧ Py.all_chars Re.is_word s = true.
Proof.
  intros H. split; (eapply all_chars_impl; [|done]); intros c Hc.
  - unfold plain. by rewrite Hc.
  - unfold Re.is_word. by rewrite Hc.
Qed.

Lemma alnum_of_digits s :
  Py.all_chars Py.isdigit_c s = true → Py.all_chars Py.isalnum_c s = true.
Proof.
  apply all_chars_impl. intros c Hc. unfold Py.isalnum_c. by rewrite Hc, orb_true_r.
Qed.

Lemma alnum_of_alpha s :
  Py.all_chars Py.isalpha_c s = true → Py.all_chars Py.isalnum_c s = true.
Proof. apply all_chars_impl. intros c Hc. unfold Py.isalnum_c. by rewrite Hc. Qed.

(** An operand of a well-formed expression is a run of letters or of
    digits. *)
Lemma operand_text e :
  wf e = true → is_name e = true ∨ (∃ n, e = Lit n) →
  show e ≠ "" ∧ Py.all_chars Py.isalnum_c (show e) = true ∧ render e = [show e].
Proof.
  intros Hwf [Hn|[n ->]].
  - destruct e as [|x|]; try done. cbn in Hwf |- *.
    apply andb_true_iff in Hwf as [Hne Ha].
    split; [by destruct x|]. split; [by apply alnum_of_alpha|done].
  - cbn. destruct (str_nat_digits n) as [Hne Hd].
    split; [done|]. split; [by apply alnum_of_digits|done].
Qed.

(** Every character of a typed expression is a letter, a digit, an
    operator or a parenthesis; it starts with a word character or [(]
    and ends with a word character or [)]. *)
Lemma show_plain e :
  wf e = true →
  Py.all_chars plain (show e) = true ∧
  (∃ c r, show e = String c r ∧ (Re.is_word c = true ∨ c = "("%char)).
Proof.
  induction e as [n|x|op a IHa b IHb]; intros Hwf.
  - destruct (operand_text (Lit n) Hwf) as (Hne & Hal & _); [right; by eexists|].
    destruct (word_plain_string _ Hal) as [Hp Hw]. split; [done|].
    cbn [show] in *. destruct (Py.str (Z.of_N n)) as [|c r]; [done|].
    exists c, r. split; [done|]. left. cbn in Hw. by apply andb_true_iff in Hw as [? _].
  - destruct (operand_text (Name x) Hwf) as (Hne & Hal & _); [by left|].
    destruct (word_plain_string _ Hal) as [Hp Hw]. split; [done|].
    cbn [show] in *. destruct x as [|c r]; [done|].
    exists c, r. split; [done|]. left. cbn in Hw. by apply andb_true_iff in Hw as [? _].
  - cbn [wf] in Hwf. apply andb_true_iff in Hwf as [[Hop Ha]%andb_true_iff Hb].
    destruct (IHa Ha) as [Hpa _]. destruct (IHb Hb) as [Hpb _].
    destruct (operator_char op Hop) as (c & -> & _ & _ & Hc & _).
    cbn [show]. split; [|by eexists _, _; split; [done|right]].
    rewrite !all_chars_app, Hpa, Hpb. cbn [Py.all_chars]. by rewrite Hc.
Qed.

Lemma chunks_paren c rest :
  Re.is_paren c = true → chunks (c :: rest) = [c] :: chunks rest.
Proof.
  intros Hc. apply chunks_alone. destruct rest; [done|].
  destruct (proj2 (proj2 (proj2 (classes_disjoint c))) Hc) as (? & ? & ?).
  by apply same_run_none.
Qed.

Lemma chunks_word_run (s : string) rest :
  s ≠ "" → Py.all_chars Re.is_word s = true →
  match rest with d :: _ => Re.is_word d = false | [] => True end →
  chunks (list_ascii_of_string s ++ rest) = list_ascii_of_string s :: chunks rest.
Proof.
  intros Hne Hall Hrest. rewrite all_chars_forallb in Hall.
  rewrite chunks_app.
  - rewrite (chunks_run Re.is_word); [done|auto|by destruct s|done].
  - intros c d Hc Hd. destruct rest as [|d' rest]; [done|]. cbn in Hd. simplify_eq.
    rewrite (same_run_class Re.is_word); [done|auto|].
    apply last_Some_elem_of in Hc. rewrite forallb_forall in Hall.
    apply Hall. by apply list_elem_of_In.
Qed.

Lemma chunks_operator c rest :
  Re.is_sign c = true ∨ Re.is_mul c = true →
  match rest with
  | d :: _ => Re.is_word d = true ∨ d = "("%char
  | [] => True
  end →
  chunks (c :: rest) = [c] :: chunks rest.
Proof.
  intros Hc Hrest. apply chunks_alone. destruct rest as [|d rest]; [done|].
  assert (Re.is_sign d = false ∧ Re.is_mul d = false) as [Hs Hm].
  { destruct Hrest as [Hw| ->]; [|done].
    by destruct (proj1 (classes_disjoint d) Hw) as (-> & -> & _). }
  destruct Hc as [Hc|Hc].
  - rewrite (same_run_class Re.is_sign); auto.
  - rewrite (same_run_class Re.is_mul); auto.
Qed.

(** The characters of a typed expression fall into its tokens. *)
Lemma show_chunks e rest :
  wf e = true →
  match rest with d :: _ => Re.is_word d = false | [] => True end →
  chunks (list_ascii_of_string (show e) ++ rest) =
  map list_ascii_of_string (render e) ++ chunks rest.
Proof.
  revert rest. induction e as [n|x|op a IHa b IHb]; intros rest Hwf Hrest.
  - destruct (operand_text (Lit n) Hwf) as (Hne & Hal & _); [right; by eexists|].
    destruct (word_plain_string _ Hal) as [_ Hw].
    cbn [show render map app] in *. by apply chunks_word_run.
  - destruct (operand_text (Name x) Hwf) as (Hne & Hal & _); [by left|].
    destruct (word_plain_string _ Hal) as [_ Hw].
    cbn [show render map app] in *. by apply chunks_word_run.
  - cbn [wf] in Hwf. apply andb_true_iff in Hwf as [[Hop Ha]%andb_true_iff Hb].
    destruct (operator_char op Hop) as (c & -> & Hcw & _ & _ & _ & Hc).
    destruct (show_plain b Hb) as (_ & d & r & Hd & Hhead).
    cbn [show render]. rewrite !list_ascii_app, !map_app, <- !app_assoc.
    cbn [list_ascii_of_string map app].
    rewrite chunks_paren by done. f_equal.
    rewrite IHa by done. f_equal.
    rewrite chunks_operator; [|done|by rewrite Hd]. f_equal.
    rewrite IHb by done. f_equal.
    by rewrite chunks_paren.
Qed.

Lemma fold_token_word t :
  Py.all_chars Re.is_word t = true → fold_token t = Ok t.
Proof.
  intros Hw. unfold fold_token.
  assert (has_mul t = false ∧ has_sign t = false) as [-> ->]; [|done].
  rewrite has_mul_exists, has_sign_exists. rewrite all_chars_forallb in Hw.
  induction (list_ascii_of_string t) as [|c l IH]; [done|]. cbn in Hw |- *.
  apply andb_true_iff in Hw as [Hc Hl]. destruct (IH Hl) as [-> ->].
  by destruct (proj1 (classes_disjoint c) Hc) as (-> & -> & _).
Qed.

Lemma fold_tokens_render e : wf e = true → fold_tokens (render e) = Ok (render e).
Proof.
  assert (Happ : ∀ l1 l2, fold_tokens l1 = Ok l1 → fold_tokens l2 = Ok l2 →
                          fold_tokens (l1 ++ l2) = Ok (l1 ++ l2)).
  { intros l1 l2 H1 H2. by rewrite fold_tokens_app, H1, H2. }
  induction e as [n|x|op a IHa b IHb]; intros Hwf.
  - destruct (operand_text (Lit n) Hwf) as (_ & Hal & ->); [right; by eexists|].
    destruct (word_plain_string _ Hal) as [_ Hw].
    cbn [fold_tokens]. by rewrite fold_token_word.
  - destruct (operand_text (Name x) Hwf) as (_ & Hal & ->); [by left|].
    destruct (word_plain_string _ Hal) as [_ Hw].
    cbn [fold_tokens]. by rewrite fold_token_word.
  - cbn [wf] in Hwf. apply andb_true_iff in Hwf as [[Hop Ha]%andb_true_iff Hb].
    cbn [render]. repeat apply Happ; auto.
    by destruct (operator_cases op Hop) as [->|[->|[->|[->| ->]]]].
Qed.

Lemma get_infix_show e : wf e = true → get_infix (show e) = Ok (render e).
Proof.
  intros Hwf. destruct (show_plain e Hwf) as [Hp _].
  rewrite get_infix_chunks, remove_char_none.
  2:{ eapply all_chars_impl; [|done]. intros c Hc.
      by destruct (plain_not c Hc) as (-> & _). }
  rewrite <- (app_nil_r (list_ascii_of_string (show e))), show_chunks by done.
  cbn [chunks]. rewrite app_nil_r, map_map.
  rewrite (map_ext _ id), map_id; [by apply fold_tokens_render|].
  intros t. apply string_of_list_ascii_of_string.
Qed.

Lemma strip_plain s :
  Py.all_chars plain s = true → Py.strip s = s.
Proof.
  intros Hp. apply strip_by_none.
  - destruct s as [|c r]; [done|]. cbn in Hp |- *.
    apply andb_true_iff in Hp as [Hc _]. by destruct (plain_not c Hc) as (_ & _ & ->).
  - destruct s as [|c r]; [done|].
    eapply (ends_with_ext (λ c, negb (plain c))).
    + intros d Hd. destruct (plain d) eqn:Hpd; [|done].
      destruct (plain_not d Hpd) as (_ & _ & ?). congruence.
    + by apply all_chars_ends.
Qed.

Lemma classify_expression s c r :
  s = String c r → Py.all_chars plain s = true →
  Ascii.eqb c "/" = false → Py.isalpha_c c = false →
  classify s = ToExpression.
Proof.
  intros -> Hp Hsl Ha. unfold classify. cbn [String.eqb first_char_is].
  rewrite Hsl.
  assert (Py.str_in "=" (String c r) = false) as ->.
  { rewrite str_in_char_spec. apply negb_false_iff.
    eapply all_chars_impl; [|done]. intros d Hd.
    by destruct (plain_not d Hd) as (_ & -> & _). }
  unfold Py.isalpha. cbn. by rewrite Ha.
Qed.

(** An expression line whose tokens, postfix order and value are known. *)
Lemma expression_line line infix p self out :
  classify (Py.strip line) = ToExpression →
  get_infix (Py.strip line) = Ok infix →
  infix_to_postfix infix = Ok p →
  process_line line self out =
  match eval_tokens (variables self) p [] with
  | Ok (v :: _) =>
      (Ok Continue, {| total := 0; variables := variables self; postfix := [] |},
       out ++ [Text (Py.str v)])
  | Ok [] => (Raise IndexError, set_postfix [] self, out)
  | Raise (Custom err) =>
      (Ok Continue, set_postfix p self, out ++ [Text (message err)])
  | Raise err => (Raise err, set_postfix p self, out)
  | NonInteger => (NonInteger, set_postfix p self, out)
  end.
Proof.
  intros Hc Hi Hp. unfold process_line. rewrite Hc. unfold try_except.
  rewrite handle_expression_unfold, Hi, Hp.
  destruct (eval_tokens (variables self) p []) as [[|v st]|err|] eqn:He; try done.
  destruct err as [err| | | | |]; try done.
  apply eval_tokens_raises_custom in He as ->. done.
Qed.

(** X18: the line of an expression with every operation in parentheses
    prints the value of the expression, when that has at most 4300 digits,
    and leaves the variables as they were; when the value is not defined,
    the line fails as the first failing operation does: an unassigned
    variable prints "Unknown variable", a division by zero ends the loop.
    Nothing is said of an expression with a negative exponent. *)
Theorem X18_parenthesised_line
    (e : expr) (self : Calculator) (out : list printed)
    (Hwf : wf e = true) (Hline : is_name e = false)
    (Hshort : short_values (variables self)) :
  match value (variables self) e with
  | Ok v =>
      fits v = true →
      process_line (show e) self out =
      (Ok Continue, {| total := 0; variables := variables self; postfix := [] |},
       out ++ [Text (Py.str v)])
  | Raise (Custom err) =>
      process_line (show e) self out =
      (Ok Continue, set_postfix (postorder e) self, out ++ [Text (message err)])
  | Raise err =>
      process_line (show e) self out = (Raise err, set_postfix (postorder e) self, out)
  | NonInteger => True
  end.
Proof.
  destruct (show_plain e Hwf) as (Hp & c & r & Hs & Hhead).
  destruct (parenthesised_tokens (variables self) e Hwf) as [Hconv Heval].
  assert (Hrun : process_line (show e) self out =
                 match eval_tokens (variables self) (postorder e) [] with
                 | Ok (v :: _) =>
                     (Ok Continue,
                      {| total := 0; variables := variables self; postfix := [] |},
                      out ++ [Text (Py.str v)])
                 | Ok [] => (Raise IndexError, set_postfix [] self, out)
                 | Raise (Custom err) =>
                     (Ok Continue, set_postfix (postorder e) self,
                      out ++ [Text (message err)])
                 | Raise err => (Raise err, set_postfix (postorder e) self, out)
                 | NonInteger => (NonInteger, set_postfix (postorder e) self, out)
                 end).
  { apply (expression_line _ (render e) (postorder e)).
    - rewrite strip_plain by done. apply (classify_expression _ c r); [done..| |].
      + destruct Hhead as [Hw| ->]; [|done]. revert Hw. clear.
        destruct c as [[|] [|] [|] [|] [|] [|] [|] [|]]; by vm_compute.
      + destruct e as [n| |]; [|done|].
        * cbn [show] in Hs. destruct (str_nat_digits n) as [_ Hd]. rewrite Hs in Hd.
          cbn in Hd. apply andb_true_iff in Hd as [Hc _].
          by destruct (digit_not c Hc) as (_ & _ & _ & _ & ? & _).
        * cbn [show] in Hs. by injection Hs as <- _.
    - rewrite strip_plain by done. by apply get_infix_show.
    - done. }
  rewrite Hrun, Heval. by destruct (value (variables self) e) as [v|[]|].
Qed.

Lemma X18_parenthesised_line_witness :
  process_line (show (Bin "/" (Bin "-" (Lit 0) (Name "x")) (Lit 2)))
    (set_variables {["x" := "7"]} init) [] =
  (Ok Continue, {| total := 0; variables := {["x" := "7"]}; postfix := [] |},
   [] ++ [Text (Py.str (-4))]).
Proof.
  refine (X18_parenthesised_line (Bin "/" (Bin "-" (Lit 0) (Name "x")) (Lit 2))
            (set_variables {["x" := "7"]} init) [] _ _ _ _).
  - reflexivity.
  - reflexivity.
  - apply map_Forall_singleton. cbn. lia.
  - by vm_compute.
Defined.

(** X19: a minus in front of an operand or of a parenthesised expression
    negates it: the line prints the negated value, when that has at most
    4300 digits.  The minus is pushed on the empty stack, comes last in
    the postfix sequence and finds one value, so that the missing operand
    is taken as 0. *)
Theorem X19_leading_minus_negates
    (e : expr) (v : Z) (self : Calculator) (out : list printed)
    (Hwf : wf e = true) (Hshort : short_values (variables self))
    (Hvalue : value (variables self) e = Ok v) (Hfits : fits v = true) :
  get_infix ("-" +:+ show e) = Ok ("-" :: render e) ∧
  infix_to_postfix ("-" :: render e) = Ok (postorder e ++ ["-"]) ∧
  process_line ("-" +:+ show e) self out =
    (Ok Continue, {| total := 0; variables := variables self; postfix := [] |},
     out ++ [Text (Py.str (- v))]).
Proof.
  destruct (show_plain e Hwf) as (Hp & c & r & Hs & Hhead).
  assert (Hplain : Py.all_chars plain ("-" +:+ show e) = true).
  { change ("-" +:+ show e) with (String "-" (show e)). cbn [Py.all_chars].
    by rewrite Hp. }
  assert (Hinfix : get_infix ("-" +:+ show e) = Ok ("-" :: render e)).
  { rewrite get_infix_chunks, remove_char_none.
    2:{ eapply all_chars_impl; [|done]. intros d Hd.
        by destruct (plain_not d Hd) as (-> & _). }
    change (list_ascii_of_string ("-" +:+ show e))
      with ("-"%char :: list_ascii_of_string (show e)).
    rewrite chunks_operator; [|by left|by rewrite Hs].
    rewrite <- (app_nil_r (list_ascii_of_string (show e))), show_chunks by done.
    cbn [chunks map]. rewrite app_nil_r, map_map.
    rewrite (map_ext _ id), map_id.
    - change (string_of_list_ascii ["-"%char]) with "-".
      cbn [fold_tokens]. rewrite fold_tokens_render by done. done.
    - intros t. apply string_of_list_ascii_of_string. }
  assert (Hpost : infix_to_postfix ("-" :: render e) = Ok (postorder e ++ ["-"])).
  { unfold infix_to_postfix. cbn [convert_tokens].
    change (convert_token "-" [] []) with (Ok (["-"], []) : result (list string * list string)).
    cbn [rbind]. rewrite <- (app_nil_r (render e)), convert_render by done.
    cbn [convert_tokens rbind app].
    rewrite bool_decide_eq_false_2; [done|].
    rewrite elem_of_app, list_elem_of_singleton.
    intros [Hin|?]; [|done]. by apply (postorder_no_paren e). }
  split; [done|]. split; [done|].
  rewrite (expression_line _ ("-" :: render e) (postorder e ++ ["-"])).
  - rewrite eval_postorder, Hvalue by done. cbn. by rewrite Z.sub_0_l.
  - rewrite strip_plain by done.
    by apply (classify_expression _ "-" (show e)).
  - by rewrite strip_plain.
  - done.
Qed.

Lemma X19_leading_minus_negates_witness :
  get_infix ("-" +:+ show (Bin "*" (Lit 3) (Lit 5))) =
    Ok ("-" :: render (Bin "*" (Lit 3) (Lit 5))) ∧
  infix_to_postfix ("-" :: render (Bin "*" (Lit 3) (Lit 5))) =
    Ok (postorder (Bin "*" (Lit 3) (Lit 5)) ++ ["-"]) ∧
  process_line ("-" +:+ show (Bin "*" (Lit 3) (Lit 5))) init [] =
    (Ok Continue, {| total := 0; variables := variables init; postfix := [] |},
     [] ++ [Text (Py.str (- 15))]).
Proof.
  apply (X19_leading_minus_negates (Bin "*" (Lit 3) (Lit 5)) 15 init []);
    [reflexivity|apply map_Forall_empty|reflexivity|by vm_compute].
Defined.

(** ** Lines of letters, digits, operators and parentheses *)

Lemma same_run_cases c d :
  same_run c d = true →
  ∃ p, (p = Re.is_word ∨ p = Re.is_sign ∨ p = Re.is_mul) ∧ p c = true ∧ p d = true.
Proof.
  unfold same_run. intros [[H|H]%orb_true_iff|H]%orb_true_iff;
    apply andb_true_iff in H as [Hc Hd]; eexists; (split; [|by split]); auto.
Qed.

Lemma same_run_trans c d x :
  same_run c d = true → same_run d x = true → same_run c x = true.
Proof.
  intros (p & Hp & Hc & Hd)%same_run_cases Hx.
  rewrite (same_run_class p d x Hp Hd) in Hx. by rewrite (same_run_class p c x Hp Hc).
Qed.

(** The characters of one token are of one class. *)
Lemma chunks_uniform l :
  Forall (λ t, match t with
               | d :: t' => forallb (same_run d) t' = true
               | [] => False
               end) (chunks l).
Proof.
  induction l as [|c r IH]; [by constructor|]. cbn [chunks].
  destruct (chunks r) as [|[|d t] ts]; [by repeat constructor| |].
  - by apply Forall_cons in IH as [? _].
  - apply Forall_cons in IH as [Hd Hts].
    destruct (same_run c d) eqn:Hcd; [|by repeat constructor].
    constructor; [|done]. cbn [forallb]. rewrite Hcd. cbn [andb].
    apply forallb_forall. intros x Hx. rewrite forallb_forall in Hd.
    by eapply same_run_trans; [|apply Hd].
Qed.

Lemma chunk_chars l t x : t ∈ chunks l → x ∈ t → x ∈ l.
Proof.
  intros Ht Hx. rewrite <- (concat_chunks l). apply list_elem_of_In, in_concat.
  exists t. split; by apply list_elem_of_In.
Qed.

Lemma word_plain_alnum c :
  Re.is_word c = true → plain c = true → Py.isalnum_c c = true.
Proof.
  destruct c as [[|] [|] [|] [|] [|] [|] [|] [|]]; vm_compute; intros H1 H2;
    try discriminate H1; try discriminate H2; reflexivity.
Qed.

Lemma paren_cases c : Re.is_paren c = true → c = "("%char ∨ c = ")"%char.
Proof.
  unfold Re.is_paren. intros [H|H]%orb_true_iff; apply Ascii.eqb_eq in H; auto.
Qed.

Lemma all_chars_list p l :
  Py.all_chars p (string_of_list_ascii l) = forallb p l.
Proof. by rewrite all_chars_forallb, list_ascii_of_string_of_list_ascii. Qed.

(** The token that a chunk of plain characters becomes is one that the
    converter has a rule for. *)
Lemma plain_chunk_known d t' ch :
  forallb (same_run d) t' = true → forallb plain (d :: t') = true →
  fold_token (string_of_list_ascii (d :: t')) = Ok ch → known ch = true.
Proof.
  intros Huni Hplain Hfold. cbn [forallb] in Hplain.
  apply andb_true_iff in Hplain as [Hd Hp'].
  rewrite forallb_forall in Huni, Hp'.
  assert (Hclass : Re.is_word d = true ∨ Re.is_sign d = true ∨
                   Re.is_mul d = true ∨ Re.is_paren d = true).
  { unfold plain in Hd. unfold Re.is_word.
    destruct (Py.isalnum_c d), (Re.is_sign d), (Re.is_mul d), (Re.is_paren d); auto. }
  destruct Hclass as [Hw|[Hs|[Hm|Hpa]]].
  - assert (Hall : forallb Py.isalnum_c (d :: t') = true).
    { cbn. rewrite (word_plain_alnum d Hw Hd). apply forallb_forall. intros x Hx.
      apply word_plain_alnum; [|by apply Hp'].
      rewrite <- (same_run_class Re.is_word d x); auto. }
    rewrite <- all_chars_list in Hall.
    destruct (word_plain_string _ Hall) as [_ Hword].
    rewrite fold_token_word in Hfold by done.
    assert (Py.isalnum (string_of_list_ascii (d :: t')) = true) as Hal.
    { unfold Py.isalnum. by rewrite Hall. }
    assert (ch = string_of_list_ascii (d :: t')) as -> by congruence.
    unfold known. by rewrite Hal.
  - rewrite fold_token_sign_run in Hfold.
    + injection Hfold as <-. unfold folded_sign. by case_match.
    + rewrite all_chars_list. cbn. rewrite Hs. apply forallb_forall. intros x Hx.
      rewrite <- (same_run_class Re.is_sign d x); auto.
  - destruct t' as [|x t'].
    + cbn in Hfold. revert Hfold. unfold fold_token, Py.len. cbn [String.length].
      rewrite !andb_false_r. intros [= <-].
      unfold known. rewrite single_operator_char by (by rewrite Hm, orb_true_r).
      by rewrite orb_true_r.
    + assert (fold_token (string_of_list_ascii (d :: x :: t')) =
              Raise InvalidExpressionError); [|congruence].
      apply fold_token_bad. cbn. by rewrite Hm.
  - destruct t' as [|x t'].
    + cbn in Hfold. revert Hfold. unfold fold_token, Py.len. cbn [String.length].
      rewrite !andb_false_r. intros [= <-].
      by destruct (paren_cases d Hpa) as [-> | ->].
    + destruct (proj2 (proj2 (proj2 (classes_disjoint d))) Hpa) as (? & ? & ?).
      pose proof (Huni x (in_eq _ _)) as Hx.
      by rewrite same_run_none in Hx.
Qed.

Lemma plain_tokens_known expression infix :
  Py.all_chars plain (Py.remove_char " " expression) = true →
  get_infix expression = Ok infix → forallb known infix = true.
Proof.
  intros Hplain Hok. rewrite get_infix_chunks in Hok.
  apply fold_tokens_each in Hok.
  rewrite all_chars_forallb, forallb_forall in Hplain.
  apply forallb_forall. intros ch Hch%list_elem_of_In.
  apply list_elem_of_lookup in Hch as [i Hi].
  destruct (Forall2_lookup_r _ _ _ _ _ Hok Hi) as (s & Hs & Hf).
  apply list_lookup_fmap_Some in Hs as (t & -> & Ht).
  apply list_elem_of_lookup_2 in Ht.
  pose proof (proj1 (Forall_forall _ _) (chunks_uniform _) t Ht) as Huni.
  destruct t as [|d t']; [done|].
  apply (plain_chunk_known d t' ch); [done| |done].
  apply forallb_forall. intros x Hx. apply Hplain, list_elem_of_In.
  eapply chunk_chars; [done|]. by apply list_elem_of_In.
Qed.

(** X20: on a line made of letters, digits, the five operators,
    parentheses and spaces, every token is an operand, an operator or a
    parenthesis, so the converter never fails on its priority table: it
    returns a postfix sequence when the parentheses match and fails with
    InvalidExpression when they do not. *)
Theorem X20_plain_line_never_key_error
    (expression : string) (infix : list string)
    (Hplain : Py.all_chars plain (Py.remove_char " " expression) = true)
    (Hok : get_infix expression = Ok infix) :
  forallb known infix = true ∧
  ((balanced infix = true ∧ ∃ postfix, infix_to_postfix infix = Ok postfix) ∨
   (balanced infix = false ∧ infix_to_postfix infix = Raise InvalidExpressionError)).
Proof.
  pose proof (plain_tokens_known expression infix Hplain Hok) as Hknown.
  split; [done|].
  pose proof (infix_to_postfix_known infix Hknown) as H.
  destruct (balanced infix); [by left|by right].
Qed.

Lemma X20_plain_line_never_key_error_witness :
  forallb known ["ab1"; "-"; "("; "2"; "^"; "x"; ")"; ")"] = true ∧
  ((balanced ["ab1"; "-"; "("; "2"; "^"; "x"; ")"; ")"] = true ∧
    ∃ postfix, infix_to_postfix ["ab1"; "-"; "("; "2"; "^"; "x"; ")"; ")"] = Ok postfix) ∨
   (balanced ["ab1"; "-"; "("; "2"; "^"; "x"; ")"; ")"] = false ∧
    infix_to_postfix ["ab1"; "-"; "("; "2"; "^"; "x"; ")"; ")"] =
      Raise InvalidExpressionError)).
Proof.
  apply (X20_plain_line_never_key_error "ab1 +- (2 ^ x))"); reflexivity.
Defined.

(** ** Two operators without parentheses *)

Lemma convert_operator_empty op postfix :
  is_operator op = true → convert_token op [] postfix = Ok ([op], postfix).
Proof.
  intros Hop. unfold convert_token.
  by destruct (operator_not_paren op Hop) as (-> & -> & ->).
Qed.

Lemma convert_operator_on_operator op1 op2 p1 p2 postfix :
  is_operator op1 = true → is_operator op2 = true →
  priority !! op1 = Some p1 → priority !! op2 = Some p2 →
  convert_token op2 [op1] postfix =
  Ok (if (p1 <? p2)%nat then ([op2; op1], postfix) else ([op2], postfix ++ [op1])).
Proof.
  intros Hop1 Hop2 Hp1 Hp2. unfold convert_token.
  destruct (operator_not_paren op2 Hop2) as (-> & -> & ->).
  unfold priority_of. rewrite Hp1, Hp2. cbn [rbind].
  destruct (Nat.ltb_spec p1 p2) as [Hlt|Hge]; [done|].
  cbn [pop_not_lower]. unfold priority_of. rewrite Hp1, Hp2. cbn [rbind].
  destruct (Nat.leb_spec p2 p1) as [_|?]; [done|lia].
Qed.

(** X21: in [x op1 y op2 z] without parentheses around the operations,
    the operator of higher priority is applied first and, with equal
    priorities, the left one: the postfix sequence and the value are
    those of [x op1 (y op2 z)] when [op2] has the higher priority and of
    [(x op1 y) op2 z] otherwise.  The literals and the stored values have
    at most 4300 digits. *)
Theorem X21_priority_then_left_to_right
    (vars : gmap string string) (x y z : expr) (op1 op2 : string) (p1 p2 : nat)
    (Hshort : short_values vars)
    (Hx : wf x = true) (Hy : wf y = true) (Hz : wf z = true)
    (Hop1 : is_operator op1 = true) (Hop2 : is_operator op2 = true)
    (Hp1 : priority !! op1 = Some p1) (Hp2 : priority !! op2 = Some p2) :
  infix_to_postfix (render x ++ [op1] ++ render y ++ [op2] ++ render z) =
    Ok (postorder (if (p1 <? p2)%nat then Bin op1 x (Bin op2 y z)
                   else Bin op2 (Bin op1 x y) z)) ∧
  eval_tokens vars
    (postorder (if (p1 <? p2)%nat then Bin op1 x (Bin op2 y z)
                else Bin op2 (Bin op1 x y) z)) [] =
    rbind (value vars (if (p1 <? p2)%nat then Bin op1 x (Bin op2 y z)
                       else Bin op2 (Bin op1 x y) z))
      (λ v, Ok [v]).
Proof.
  assert (Hwf : wf (if (p1 <? p2)%nat then Bin op1 x (Bin op2 y z)
                    else Bin op2 (Bin op1 x y) z) = true).
  { destruct (p1 <? p2)%nat; cbn [wf]; by rewrite Hx, Hy, Hz, Hop1, Hop2. }
  split; [|by apply parenthesised_tokens].
  pose proof (postorder_no_paren _ Hwf) as Hno.
  unfold infix_to_postfix.
  rewrite convert_render by done. cbn [app convert_tokens].
  rewrite convert_operator_empty by done. cbn [rbind].
  rewrite convert_render by done. cbn [app convert_tokens].
  rewrite (convert_operator_on_operator op1 op2 p1 p2) by done. cbn [rbind].
  destruct (p1 <? p2)%nat.
  - rewrite <- (app_nil_r (render z)), convert_render by done.
    cbn [convert_tokens rbind postorder] in Hno |- *.
    rewrite <- !app_assoc. cbn [app].
    rewrite bool_decide_eq_false_2; [by rewrite <- ?app_assoc|].
    intros Hin. apply Hno. by rewrite <- ?app_assoc.
  - rewrite <- (app_nil_r (render z)), convert_render by done.
    cbn [convert_tokens rbind postorder] in Hno |- *.
    rewrite <- !app_assoc. cbn [app].
    rewrite bool_decide_eq_false_2; [by rewrite <- ?app_assoc|].
    intros Hin. apply Hno. by rewrite <- ?app_assoc.
Qed.

Lemma X21_priority_then_left_to_right_witness :
  infix_to_postfix (render (Lit 2) ++ ["+"] ++ render (Lit 3) ++ ["*"] ++ render (Lit 4)) =
    Ok (postorder (if (1 <? 2)%nat then Bin "+" (Lit 2) (Bin "*" (Lit 3) (Lit 4))
                   else Bin "*" (Bin "+" (Lit 2) (Lit 3)) (Lit 4))) ∧
  eval_tokens ∅
    (postorder (if (1 <? 2)%nat then Bin "+" (Lit 2) (Bin "*" (Lit 3) (Lit 4))
                else Bin "*" (Bin "+" (Lit 2) (Lit 3)) (Lit 4))) [] =
    rbind (value ∅ (if (1 <? 2)%nat then Bin "+" (Lit 2) (Bin "*" (Lit 3) (Lit 4))
                    else Bin "*" (Bin "+" (Lit 2) (Lit 3)) (Lit 4)))
      (λ v, Ok [v]).
Proof.
  apply (X21_priority_then_left_to_right ∅ (Lit 2) (Lit 3) (Lit 4) "+" "*" 1 2);
    [apply map_Forall_empty|reflexivity..].
Defined.
